(** * Open-Chat-Ai: the pro chat screen (ProChat.tsx) and the simple screen
      (HuggingFaceChatApp.tsx), embedded as pure functions over an explicit
      application state.

    Conventions of the embedding.
    - A JavaScript string is a [string]: the bytes of its UTF-8 text, a
      surrogate without its partner as the three bytes of its code unit.
    - React state ([useState]) and refs ([useRef]) are the fields of one state
      record; an event handler is a function of the state it was rendered
      with.  Values a handler obtains from the platform ([uuid()], [now()],
      the HTTP response, the chunks of the body) are arguments.
    - [JSON.parse], [JSON.stringify], [String.prototype.trim], [split] and the
      two regular expressions of the source are platform functions; they are
      written out here so that every definition computes. *)

From Stdlib Require Import String Ascii List ZArith NArith Lia Bool.
From Stdlib Require Import DecimalString.
From Stdlib Require DecimalFacts DecimalPos DecimalN.
Import ListNotations.
Open Scope list_scope.
Open Scope string_scope.

(** ** Strings *)

Module Str.

Definition code (c : ascii) : N := N_of_ascii c.

Definition char (n : N) : ascii := ascii_of_N n.

(** The double quote, character 34. *)
Definition dquote : ascii :=
  Ascii false true false false false true false false.

Definition is_digit (c : ascii) : bool :=
  ((48 <=? code c) && (code c <=? 57))%N.

Definition is_empty (s : string) : bool :=
  match s with EmptyString => true | String _ _ => false end.

Fixpoint rev (s : string) : string :=
  match s with
  | EmptyString => EmptyString
  | String c r => rev r ++ String c EmptyString
  end.

Fixpoint repeat (c : ascii) (n : nat) : string :=
  match n with O => EmptyString | S k => String c (repeat c k) end.

Fixpoint join (sep : string) (l : list string) : string :=
  match l with
  | [] => EmptyString
  | [x] => x
  | x :: r => x ++ sep ++ join sep r
  end.

(** [s.split("\n")]: never empty, the empty string gives one empty line. *)
Fixpoint split_lines_aux (cur : string) (s : string) : list string :=
  match s with
  | EmptyString => [cur]
  | String c r =>
      if Ascii.eqb c "010" then cur :: split_lines_aux EmptyString r
      else split_lines_aux (cur ++ String c EmptyString) r
  end.

Definition split_lines (s : string) : list string :=
  split_lines_aux EmptyString s.

(** ECMAScript white space and line terminators, as the regular expression
    class [\s] and [trim] see them: the length of the white-space character
    at the head of the string (0 when there is none).  U+00A0 is two
    bytes; U+1680, U+2000..U+200A, U+2028, U+2029, U+202F, U+205F, U+3000
    and U+FEFF are three. *)
Definition ws_len (s : string) : nat :=
  match s with
  | EmptyString => 0
  | String c1 r1 =>
      let n1 := code c1 in
      if ((9 <=? n1) && (n1 <=? 13) || (n1 =? 32))%N then 1
      else match r1 with
      | EmptyString => 0
      | String c2 r2 =>
          let n2 := code c2 in
          if ((n1 =? 194) && (n2 =? 160))%N then 2
          else match r2 with
          | EmptyString => 0
          | String c3 _ =>
              let n3 := code c3 in
              if ((n1 =? 225) && (n2 =? 154) && (n3 =? 128)
               || (n1 =? 226) && (n2 =? 128)
                    && ((128 <=? n3) && (n3 <=? 138) || (n3 =? 168)
                        || (n3 =? 169) || (n3 =? 175))
               || (n1 =? 226) && (n2 =? 129) && (n3 =? 159)
               || (n1 =? 227) && (n2 =? 128) && (n3 =? 128)
               || (n1 =? 239) && (n2 =? 187) && (n3 =? 191))%N
              then 3 else 0
          end
      end
  end.

(** [trimStart]. *)
Fixpoint trimStart (s : string) : string :=
  match s with
  | EmptyString => EmptyString
  | String _ r1 =>
      match ws_len s with
      | 1 => trimStart r1
      | 2 => match r1 with
             | String _ r2 => trimStart r2
             | EmptyString => s
             end
      | 3 => match r1 with
             | String _ (String _ r3) => trimStart r3
             | _ => s
             end
      | _ => s
      end
  end.

(** The same scan from the end of the string, on the reversed text (the
    bytes of a multi-byte character then come last byte first). *)
Definition ws_len_rev (s : string) : nat :=
  match s with
  | EmptyString => 0
  | String c1 r1 =>
      if Nat.eqb (ws_len (String c1 EmptyString)) 1 then 1
      else match r1 with
      | EmptyString => 0
      | String c2 r2 =>
          if Nat.eqb (ws_len (String c2 (String c1 EmptyString))) 2 then 2
          else match r2 with
          | EmptyString => 0
          | String c3 _ =>
              if Nat.eqb
                   (ws_len (String c3 (String c2 (String c1 EmptyString)))) 3
              then 3 else 0
          end
      end
  end.

Fixpoint trimStart_rev (s : string) : string :=
  match s with
  | EmptyString => EmptyString
  | String _ r1 =>
      match ws_len_rev s with
      | 1 => trimStart_rev r1
      | 2 => match r1 with
             | String _ r2 => trimStart_rev r2
             | EmptyString => s
             end
      | 3 => match r1 with
             | String _ (String _ r3) => trimStart_rev r3
             | _ => s
             end
      | _ => s
      end
  end.

Definition trimEnd (s : string) : string := rev (trimStart_rev (rev s)).

(** [s.trim()]. *)
Definition trim (s : string) : string := trimEnd (trimStart s).

(** A line terminator at the head of the string: LF, CR, U+2028, U+2029.
    The regular expression atom [.] matches any character but these. *)
Definition at_line_terminator (s : string) : bool :=
  match s with
  | String c1 r1 =>
      let n1 := code c1 in
      ((n1 =? 10) || (n1 =? 13)
       || match r1 with
          | String c2 (String c3 _) =>
              (n1 =? 226) && (code c2 =? 128)
              && ((code c3 =? 168) || (code c3 =? 169))
          | _ => false
          end)%N
  | EmptyString => false
  end.

Fixpoint has_line_terminator (s : string) : bool :=
  match s with
  | EmptyString => false
  | String _ r => at_line_terminator s || has_line_terminator r
  end.

(** *** UTF-16 code units

    A string stands for the UTF-16 text of a JavaScript string.  A
    character of the basic plane is the one to three bytes of its UTF-8
    form and is one code unit; a character outside it is four bytes and
    two code units, its surrogates; a surrogate that stands alone is the
    three bytes of its own code unit. *)

(** The ten bits a high surrogate carries, when three bytes are one. *)
Definition high_surrogate (c1 c2 c3 : ascii) : option N :=
  if ((code c1 =? 237) && (160 <=? code c2) && (code c2 <=? 175)
      && (128 <=? code c3) && (code c3 <=? 191))%N
  then Some ((code c2 - 160) * 64 + (code c3 - 128))%N
  else None.

Definition low_surrogate (c1 c2 c3 : ascii) : option N :=
  if ((code c1 =? 237) && (176 <=? code c2) && (code c2 <=? 191)
      && (128 <=? code c3) && (code c3 <=? 191))%N
  then Some ((code c2 - 176) * 64 + (code c3 - 128))%N
  else None.

(** The three bytes of the high surrogate that carries [hi]. *)
Definition high_bytes (hi : N) : string :=
  String (char 237)
    (String (char (160 + hi / 64))
       (String (char (128 + hi mod 64)) EmptyString)).

(** The four bytes of the character of a surrogate pair. *)
Definition pair (hi lo : N) : string :=
  let cp := (65536 + hi * 1024 + lo)%N in
  String (char (240 + cp / 262144))
    (String (char (128 + (cp / 4096) mod 64))
       (String (char (128 + (cp / 64) mod 64))
          (String (char (128 + cp mod 64)) EmptyString))).

(** The high surrogate a string ends with, after the text before it. *)
Definition ends_high (a : string) : option (string * N) :=
  let n := String.length a in
  match substring (n - 3) 3 a with
  | String c1 (String c2 (String c3 EmptyString)) =>
      option_map (fun hi => (substring 0 (n - 3) a, hi))
        (high_surrogate c1 c2 c3)
  | _ => None
  end.

(** The low surrogate a string starts with, before the text after it. *)
Definition starts_low (b : string) : option (N * string) :=
  match b with
  | String c1 (String c2 (String c3 r)) =>
      option_map (fun lo => (lo, r)) (low_surrogate c1 c2 c3)
  | _ => None
  end.

(** [a + b]: the code units of [a], then those of [b].  A high surrogate
    at the end of [a] and a low surrogate at the start of [b] are then
    the two code units of one character. *)
Definition cat (a b : string) : string :=
  match starts_low b, ends_high a with
  | Some (lo, r), Some (a', hi) => a' ++ pair hi lo ++ r
  | _, _ => a ++ b
  end.

(** The high surrogate of the character of four bytes. *)
Definition high_of (c1 c2 c3 c4 : ascii) : string :=
  let cp := ((code c1 - 240) * 262144 + (code c2 - 128) * 4096
             + (code c3 - 128) * 64 + (code c4 - 128))%N in
  high_bytes ((cp - 65536) / 1024).

(** [s.slice(0, n)]: the first [n] code units. *)
Fixpoint slice0 (n : nat) (s : string) {struct s} : string :=
  match n, s with
  | O, _ => EmptyString
  | _, EmptyString => EmptyString
  | S n', String c1 r1 =>
      if (code c1 <? 192)%N then String c1 (slice0 n' r1)
      else if (code c1 <? 224)%N then
        match r1 with
        | String c2 r2 => String c1 (String c2 (slice0 n' r2))
        | EmptyString => s
        end
      else if (code c1 <? 240)%N then
        match r1 with
        | String c2 (String c3 r3) =>
            String c1 (String c2 (String c3 (slice0 n' r3)))
        | _ => s
        end
      else
        match r1 with
        | String c2 (String c3 (String c4 r4)) =>
            match n' with
            | O => high_of c1 c2 c3 c4
            | S n'' =>
                String c1
                  (String c2 (String c3 (String c4 (slice0 n'' r4))))
            end
        | _ => s
        end
  end.

(** [s.replace(/suffix$/, "")] for a literal suffix. *)
Definition strip_suffix (suffix s : string) : string :=
  let n := String.length s in
  let k := String.length suffix in
  if Nat.leb k n
  then if String.eqb (substring (n - k) k s) suffix
       then substring 0 (n - k) s else s
  else s.

(** [s.replace(/\/$/, "")]. *)
Definition strip_trailing_slash (s : string) : string := strip_suffix "/" s.

(** The upper-case form of a letter of the basic alphabet; the comparison
    of a regular expression with the flag [i] folds no other character
    onto these. *)
Definition upper (c : ascii) : ascii :=
  if ((97 <=? code c) && (code c <=? 122))%N then char (code c - 32) else c.

Fixpoint prefix_ci (p s : string) : bool :=
  match p, s with
  | EmptyString, _ => true
  | String a p', String b s' =>
      Ascii.eqb (upper a) (upper b) && prefix_ci p' s'
  | String _ _, EmptyString => false
  end.

(** [/p/i.test(s)] for a literal [p] of letters and spaces. *)
Fixpoint includes_ci (p s : string) : bool :=
  prefix_ci p s
  || match s with
     | String _ r => includes_ci p r
     | EmptyString => false
     end.

End Str.

(** ** JSON values, [JSON.parse] and [JSON.stringify] *)

(** A number is kept as the decimal [m * 10^e] of its literal; the double
    it denotes is [JSON.Number.of_decimal m e].  The program itself only
    writes integers (epoch-millisecond timestamps, byte sizes), for which
    [e = 0], and the temperature.  The fields of an object are kept in
    source order. *)
#[warning="-register-all"]
Inductive json : Type :=
| JNull
| JBool (b : bool)
| JNum (m e : Z)
| JStr (s : string)
| JArr (items : list json)
| JObj (fields : list (string * json)).

Module JSON.

(** *** Lexical analysis *)

Inductive token : Type :=
| TLBrace | TRBrace | TLBracket | TRBracket | TColon | TComma
| TNull | TTrue | TFalse
| TNum (m e : Z)
| TStr (s : string).

(** A number literal under construction: sign, integer digits, fraction
    digits, exponent sign, exponent digits. *)
Record numlit : Type := mkNum {
  neg : bool; ipart : string; fpart : string; eneg : bool; epart : string
}.

(** Position inside a number literal: after the sign, after a leading
    zero, inside the integer digits, after the point, inside the fraction
    digits, after the exponent mark, after the exponent sign, inside the
    exponent digits. *)
Inductive nphase : Type :=
| NMinus | NZero | NInt | NDot | NFrac | NExpMark | NExpSign | NExp.

Inductive lstate : Type :=
| LDefault
| LWord (rest : string) (t : token)
| LStr (acc : string)
| LEsc (acc : string)
| LUni (acc : string) (k : nat) (v : N)
| LNum (ph : nphase) (n : numlit).

Definition is_ws (c : ascii) : bool :=
  let n := Str.code c in ((n =? 32) || (n =? 9) || (n =? 10) || (n =? 13))%N.

Definition hex_value (c : ascii) : option N :=
  let n := Str.code c in
  if ((48 <=? n) && (n <=? 57))%N then Some (n - 48)%N
  else if ((97 <=? n) && (n <=? 102))%N then Some (n - 87)%N
  else if ((65 <=? n) && (n <=? 70))%N then Some (n - 55)%N
  else None.

(** The bytes of the code unit of a [\uXXXX] escape; [Str.cat] puts it
    behind the text read so far, so that the two escapes of a surrogate
    pair give the four bytes of their character. *)
Definition utf8 (v : N) : string :=
  if (v <? 128)%N then String (Str.char v) EmptyString
  else if (v <? 2048)%N then
    String (Str.char (192 + v / 64))
      (String (Str.char (128 + v mod 64)) EmptyString)
  else
    String (Str.char (224 + v / 4096))
      (String (Str.char (128 + (v / 64) mod 64))
         (String (Str.char (128 + v mod 64)) EmptyString)).

Definition uint_value (s : string) : option Z :=
  option_map (fun d => Z.of_N (N.of_uint d)) (NilEmpty.uint_of_string s).

Definition num_token (n : numlit) : option token :=
  match uint_value (ipart n ++ fpart n), uint_value (epart n) with
  | Some m, Some x =>
      Some (TNum (if neg n then - m else m)
                 ((if eneg n then - x else x)
                  - Z.of_nat (String.length (fpart n))))
  | _, _ => None
  end.

Definition snoc (s : string) (c : ascii) : string := s ++ String c EmptyString.

Definition start_number (sign : bool) (digits : string) : numlit :=
  mkNum sign digits EmptyString false EmptyString.

Definition step_default (c : ascii) : option (list token * lstate) :=
  if is_ws c then Some ([], LDefault)
  else if Ascii.eqb c "{" then Some ([TLBrace], LDefault)
  else if Ascii.eqb c "}" then Some ([TRBrace], LDefault)
  else if Ascii.eqb c "[" then Some ([TLBracket], LDefault)
  else if Ascii.eqb c "]" then Some ([TRBracket], LDefault)
  else if Ascii.eqb c ":" then Some ([TColon], LDefault)
  else if Ascii.eqb c "," then Some ([TComma], LDefault)
  else if Ascii.eqb c Str.dquote then Some ([], LStr EmptyString)
  else if Ascii.eqb c "n" then Some ([], LWord "ull" TNull)
  else if Ascii.eqb c "t" then Some ([], LWord "rue" TTrue)
  else if Ascii.eqb c "f" then Some ([], LWord "alse" TFalse)
  else if Ascii.eqb c "-" then
    Some ([], LNum NMinus (start_number true EmptyString))
  else if Ascii.eqb c "0" then Some ([], LNum NZero (start_number false "0"))
  else if Str.is_digit c then
    Some ([], LNum NInt (start_number false (String c EmptyString)))
  else None.

(** The token of a finished number literal, then the character that ended
    it. *)
Definition end_number (n : numlit) (c : ascii) : option (list token * lstate) :=
  match num_token n, step_default c with
  | Some t, Some (ts, st) => Some (t :: ts, st)
  | _, _ => None
  end.

Definition is_e (c : ascii) : bool := Ascii.eqb c "e" || Ascii.eqb c "E".

Definition step_number (ph : nphase) (n : numlit) (c : ascii)
  : option (list token * lstate) :=
  let with_i := mkNum (neg n) (snoc (ipart n) c) (fpart n) (eneg n) (epart n) in
  let with_f := mkNum (neg n) (ipart n) (snoc (fpart n) c) (eneg n) (epart n) in
  let with_e := mkNum (neg n) (ipart n) (fpart n) (eneg n) (snoc (epart n) c) in
  match ph with
  | NMinus =>
      if Ascii.eqb c "0" then Some ([], LNum NZero with_i)
      else if Str.is_digit c then Some ([], LNum NInt with_i)
      else None
  | NZero =>
      if Ascii.eqb c "." then Some ([], LNum NDot n)
      else if is_e c then Some ([], LNum NExpMark n)
      else if Str.is_digit c then None
      else end_number n c
  | NInt =>
      if Str.is_digit c then Some ([], LNum NInt with_i)
      else if Ascii.eqb c "." then Some ([], LNum NDot n)
      else if is_e c then Some ([], LNum NExpMark n)
      else end_number n c
  | NDot =>
      if Str.is_digit c then Some ([], LNum NFrac with_f) else None
  | NFrac =>
      if Str.is_digit c then Some ([], LNum NFrac with_f)
      else if is_e c then Some ([], LNum NExpMark n)
      else end_number n c
  | NExpMark =>
      if Ascii.eqb c "+" then Some ([], LNum NExpSign n)
      else if Ascii.eqb c "-" then
        Some ([], LNum NExpSign
                    (mkNum (neg n) (ipart n) (fpart n) true (epart n)))
      else if Str.is_digit c then Some ([], LNum NExp with_e)
      else None
  | NExpSign =>
      if Str.is_digit c then Some ([], LNum NExp with_e) else None
  | NExp =>
      if Str.is_digit c then Some ([], LNum NExp with_e)
      else end_number n c
  end.

Definition step (st : lstate) (c : ascii) : option (list token * lstate) :=
  match st with
  | LDefault => step_default c
  | LWord rest t =>
      match rest with
      | String c' EmptyString =>
          if Ascii.eqb c c' then Some ([t], LDefault) else None
      | String c' rest' =>
          if Ascii.eqb c c' then Some ([], LWord rest' t) else None
      | EmptyString => None
      end
  | LStr acc =>
      if Ascii.eqb c Str.dquote then Some ([TStr acc], LDefault)
      else if Ascii.eqb c "\" then Some ([], LEsc acc)
      else if (Str.code c <? 32)%N then None
      else Some ([], LStr (snoc acc c))
  | LEsc acc =>
      if Ascii.eqb c Str.dquote || Ascii.eqb c "\" || Ascii.eqb c "/"
      then Some ([], LStr (snoc acc c))
      else if Ascii.eqb c "b" then Some ([], LStr (snoc acc "008"))
      else if Ascii.eqb c "f" then Some ([], LStr (snoc acc "012"))
      else if Ascii.eqb c "n" then Some ([], LStr (snoc acc "010"))
      else if Ascii.eqb c "r" then Some ([], LStr (snoc acc "013"))
      else if Ascii.eqb c "t" then Some ([], LStr (snoc acc "009"))
      else if Ascii.eqb c "u" then Some ([], LUni acc 0 0%N)
      else None
  | LUni acc k v =>
      match hex_value c with
      | Some h =>
          let v' := (v * 16 + h)%N in
          if Nat.eqb k 3 then Some ([], LStr (Str.cat acc (utf8 v')))
          else Some ([], LUni acc (S k) v')
      | None => None
      end
  | LNum ph n => step_number ph n c
  end.

(** End of input: only a complete number may be pending. *)
Definition finish (st : lstate) : option (list token) :=
  match st with
  | LDefault => Some []
  | LNum ph n =>
      match ph with
      | NZero | NInt | NFrac | NExp => option_map (fun t => [t]) (num_token n)
      | _ => None
      end
  | _ => None
  end.

(** Tokens put in front of the tokens of the rest of the text. *)
Definition emit (ts : list token) (o : option (list token))
  : option (list token) :=
  option_map (List.app ts) o.

Fixpoint lex_from (st : lstate) (s : string) : option (list token) :=
  match s with
  | EmptyString => finish st
  | String c r =>
      match step st c with
      | Some (ts, st') => emit ts (lex_from st' r)
      | None => None
      end
  end.

Definition lex (s : string) : option (list token) := lex_from LDefault s.

(** *** Syntax analysis: a stack of open containers *)

Inductive ctx : Type :=
| CArr (done : list json)
| CObj (done : list (string * json))
| CKey (done : list (string * json)) (key : string).

Inductive mode : Type :=
| MValue | MArrStart | MObjStart | MKey | MColon | MAfter
| MDone (v : json).

Definition pstate : Type := (list ctx * mode)%type.

(** A finished value goes to the innermost open container. *)
Definition deliver (v : json) (stk : list ctx) : option pstate :=
  match stk with
  | [] => Some ([], MDone v)
  | CArr done :: k => Some (CArr (v :: done) :: k, MAfter)
  | CKey done key :: k => Some (CObj ((key, v) :: done) :: k, MAfter)
  | CObj _ :: _ => None
  end.

Definition value_token (stk : list ctx) (t : token) : option pstate :=
  match t with
  | TNull => deliver JNull stk
  | TTrue => deliver (JBool true) stk
  | TFalse => deliver (JBool false) stk
  | TNum m e => deliver (JNum m e) stk
  | TStr s => deliver (JStr s) stk
  | TLBracket => Some (CArr [] :: stk, MArrStart)
  | TLBrace => Some (CObj [] :: stk, MObjStart)
  | _ => None
  end.

Definition pstep (st : pstate) (t : token) : option pstate :=
  let (stk, m) := st in
  match m with
  | MValue => value_token stk t
  | MArrStart =>
      match t, stk with
      | TRBracket, CArr _ :: k => deliver (JArr []) k
      | _, _ => value_token stk t
      end
  | MObjStart =>
      match t, stk with
      | TRBrace, CObj _ :: k => deliver (JObj []) k
      | TStr key, CObj done :: k => Some (CKey done key :: k, MColon)
      | _, _ => None
      end
  | MKey =>
      match t, stk with
      | TStr key, CObj done :: k => Some (CKey done key :: k, MColon)
      | _, _ => None
      end
  | MColon =>
      match t with
      | TColon => Some (stk, MValue)
      | _ => None
      end
  | MAfter =>
      match t, stk with
      | TComma, CArr _ :: _ => Some (stk, MValue)
      | TRBracket, CArr done :: k => deliver (JArr (List.rev done)) k
      | TComma, CObj _ :: _ => Some (stk, MKey)
      | TRBrace, CObj done :: k => deliver (JObj (List.rev done)) k
      | _, _ => None
      end
  | MDone _ => None
  end.

Fixpoint prun (st : pstate) (ts : list token) : option pstate :=
  match ts with
  | [] => Some st
  | t :: r =>
      match pstep st t with
      | Some st' => prun st' r
      | None => None
      end
  end.

Definition parse_tokens (ts : list token) : option json :=
  match prun ([], MValue) ts with
  | Some ([], MDone v) => Some v
  | _ => None
  end.

(** [JSON.parse(text)]; [None] is the thrown [SyntaxError]. *)
Definition parse (text : string) : option json :=
  match lex text with
  | Some ts => parse_tokens ts
  | None => None
  end.

(** *** Printing *)

Definition hex_digit (n : N) : ascii :=
  if (n <? 10)%N then Str.char (48 + n) else Str.char (87 + n).

Definition escape_char (c : ascii) : string :=
  let n := Str.code c in
  if Ascii.eqb c Str.dquote then String "\" (String Str.dquote EmptyString)
  else if Ascii.eqb c "\" then "\\"
  else if (n =? 8)%N then "\b"
  else if (n =? 12)%N then "\f"
  else if (n =? 10)%N then "\n"
  else if (n =? 13)%N then "\r"
  else if (n =? 9)%N then "\t"
  else if (n <? 32)%N then
    "\u00"
    ++ String (hex_digit (n / 16)) (String (hex_digit (n mod 16)) EmptyString)
  else String c EmptyString.

Fixpoint escape (s : string) : string :=
  match s with
  | EmptyString => EmptyString
  | String c r => escape_char c ++ escape r
  end.

Definition quote (s : string) : string :=
  String Str.dquote (escape s ++ String Str.dquote EmptyString).

Definition decimal (z : Z) : string :=
  match z with
  | Z0 => "0"
  | Zpos p => NilEmpty.string_of_uint (Pos.to_uint p)
  | Zneg p => String "-" (NilEmpty.string_of_uint (Pos.to_uint p))
  end.

Fixpoint strip_zeros_rev (s : string) : string :=
  match s with
  | String c r => if Ascii.eqb c "0" then strip_zeros_rev r else s
  | EmptyString => EmptyString
  end.

(** The layout of [Number::toString] for the decimal [m * 10^e],
    [m <> 0]: the digits without trailing zeros, placed by the position
    [n] of the decimal point. *)
Definition decimal_point_text (m e : Z) : string :=
  let all := decimal (Z.abs m) in
  let ds := Str.rev (strip_zeros_rev (Str.rev all)) in
  let k := Z.of_nat (String.length ds) in
  let n := (Z.of_nat (String.length all) + e)%Z in
  let sign := if (m <? 0)%Z then "-" else "" in
  let body :=
    if ((k <=? n) && (n <=? 21))%Z then
      ds ++ Str.repeat "0" (Z.to_nat (n - k))
    else if ((0 <? n) && (n <=? 21))%Z then
      substring 0 (Z.to_nat n) ds ++ "."
        ++ substring (Z.to_nat n) (Z.to_nat (k - n)) ds
    else if ((-6 <? n) && (n <=? 0))%Z then
      "0." ++ Str.repeat "0" (Z.to_nat (- n)) ++ ds
    else
      let x := (n - 1)%Z in
      let mant :=
        match ds with
        | String d EmptyString => ds
        | String d rest => String d ("." ++ rest)
        | EmptyString => ds
        end in
      mant ++ "e" ++ (if (x <? 0)%Z then "-" else "+") ++ decimal (Z.abs x)
  in sign ++ body.

(** The text [JSON.stringify] writes for a number the program made: an
    integer in plain decimal, another number by its decimal. *)
Definition number_text (m e : Z) : string :=
  if (m =? 0)%Z then "0"
  else if (e =? 0)%Z then decimal m
  else decimal_point_text m e.

(** *** The number a literal denotes

    [JSON.parse] gives the double nearest to the decimal of a literal.
    What the program does with a parsed number, testing its truth value
    and putting it into a text, it does with that double. *)
Module Number.

(** A double that is not [NaN]: zero; [f * 2^k] with its sign, where
    [2^52 <= f < 2^53] and [-1074 <= k <= 971], or [0 < f < 2^52] and
    [k = -1074]; or an infinity.  The sign of zero shows in neither
    the truth value nor the text. *)
Inductive t : Type :=
| Zero
| Finite (neg : bool) (f k : Z)
| Infinity (neg : bool).

(** A positive rational: numerator and denominator. *)
Definition frac : Type := (Z * Z)%type.

Definition ltb (x y : frac) : bool :=
  (fst x * snd y <? fst y * snd x)%Z.

Definition leb (x y : frac) : bool :=
  (fst x * snd y <=? fst y * snd x)%Z.

Definition mul (x y : frac) : frac :=
  (fst x * fst y, snd x * snd y)%Z.

(** [c * b^x]. *)
Definition scale (b c x : Z) : frac :=
  if (0 <=? x)%Z then (c * b ^ x, 1)%Z else (c, b ^ (- x))%Z.

Definition floor (x : frac) : Z := (fst x / snd x)%Z.

(** The integer nearest to [x], the even one of two. *)
Definition nearest (x : frac) : Z :=
  let q := (fst x / snd x)%Z in
  let r := (fst x mod snd x)%Z in
  if (2 * r <? snd x)%Z then q
  else if (snd x <? 2 * r)%Z then (q + 1)%Z
  else if Z.even q then q else (q + 1)%Z.

(** The greatest [b] with [2^b <= x]. *)
Definition binade (x : frac) : Z :=
  let b := (Z.log2 (fst x) - Z.log2 (snd x))%Z in
  if ltb x (scale 2 1 b) then (b - 1)%Z else b.

(** The double nearest to [x], the one with the even significand of
    two; beyond the greatest double it is the infinity. *)
Definition round (neg : bool) (x : frac) : t :=
  let k := Z.max (binade x - 52) (-1074) in
  let q := nearest (mul x (scale 2 1 (- k))) in
  let f := if (q =? 2 ^ 53)%Z then (2 ^ 52)%Z else q in
  let k' := if (q =? 2 ^ 53)%Z then (k + 1)%Z else k in
  if (f =? 0)%Z then Zero
  else if (971 <? k')%Z then Infinity neg
  else Finite neg f k'.

(** The double of the literal [m * 10^e].  The first two tests only
    spare the powers of a literal far out of range: above [10^400]
    lies the infinity, and the decimal is below [2^(log2 |m| + 1 + 3e)]
    when [e] is negative, which is zero from [2^(-1075)] down. *)
Definition of_decimal (m e : Z) : t :=
  if (m =? 0)%Z then Zero
  else if (400 <? e)%Z then Infinity (m <? 0)%Z
  else if (Z.log2 (Z.abs m) + 1 + 3 * e <? -1075)%Z then Zero
  else round (m <? 0)%Z (scale 10 (Z.abs m) e).

Definition is_zero (x : t) : bool :=
  match x with Zero => true | _ => false end.

(** The [n] with [10^(n-1) <= x < 10^n], reached from [n]. *)
Fixpoint magnitude_from (fuel : nat) (x : frac) (n : Z) : Z :=
  match fuel with
  | O => n
  | S fuel' =>
      if ltb x (scale 10 1 (n - 1)) then magnitude_from fuel' x (n - 1)
      else if leb (scale 10 1 n) x then magnitude_from fuel' x (n + 1)
      else n
  end.

(** The start is the binade times the logarithm of two. *)
Definition magnitude (x : frac) : Z :=
  magnitude_from 8 x ((binade x * 30103) / 100000 + 1)%Z.

(** The decimal [s * 10^p] denotes the double [f * 2^k]. *)
Definition denotes (s p f k : Z) : bool :=
  match of_decimal s p with
  | Finite _ f' k' => (f' =? f)%Z && (k' =? k)%Z
  | _ => false
  end.

(** The decimal of [d] digits that stands for the double [f * 2^k] of
    the magnitude [n], when there is one: of the two decimals
    [s * 10^(n-d)] around the double, one that denotes it; of two, the
    nearer one; of two as near, the even one. *)
Definition digits_at (f k n d : Z) : option Z :=
  let x := scale 2 f k in
  let p := (n - d)%Z in
  let lo := floor (mul x (scale 10 1 (- p))) in
  let hi := (lo + 1)%Z in
  match denotes lo p f k, denotes hi p f k with
  | true, true =>
      let twice := mul x (2, 1)%Z in
      let mid := scale 10 (2 * lo + 1) p in
      if ltb twice mid then Some lo
      else if ltb mid twice then Some hi
      else if Z.even lo then Some lo else Some hi
  | true, false => Some lo
  | false, true => Some hi
  | false, false => None
  end.

(** The shortest decimal that denotes the double: its digits [s] and
    its exponent.  Seventeen digits always do. *)
Fixpoint shortest (fuel : nat) (f k n d : Z) : Z * Z :=
  match digits_at f k n d, fuel with
  | Some s, _ => (s, n - d)%Z
  | None, S fuel' => shortest fuel' f k n (d + 1)
  | None, O =>
      (nearest (mul (scale 2 f k) (scale 10 1 (d - n))), n - d)%Z
  end.

(** [Number::toString]. *)
Definition to_string (x : t) : string :=
  match x with
  | Zero => "0"
  | Infinity neg => (if neg then "-" else "") ++ "Infinity"
  | Finite neg f k =>
      let sp := shortest 16 f k (magnitude (scale 2 f k)) 1 in
      decimal_point_text (if neg then - fst sp else fst sp) (snd sp)
  end.

End Number.

Section Stringify.
(** [gap]: the number of spaces of one indentation level, 0 for the
    compact form ([JSON.stringify(v, null, gap)]). *)
Variable gap : nat.

Definition newline (ind : nat) : string :=
  match gap with
  | O => EmptyString
  | S _ => String "010" (Str.repeat " " ind)
  end.

Definition colon : string :=
  match gap with O => ":" | S _ => ": " end.

Fixpoint stringify_at (ind : nat) (v : json) : string :=
  match v with
  | JNull => "null"
  | JBool true => "true"
  | JBool false => "false"
  | JNum m e => number_text m e
  | JStr s => quote s
  | JArr [] => "[]"
  | JArr items =>
      "[" ++ newline (ind + gap)
      ++ Str.join ("," ++ newline (ind + gap))
           (List.map (stringify_at (ind + gap)) items)
      ++ newline ind ++ "]"
  | JObj [] => "{}"
  | JObj fields =>
      "{" ++ newline (ind + gap)
      ++ Str.join ("," ++ newline (ind + gap))
           (List.map (fun kv : string * json =>
                        quote (fst kv) ++ colon
                        ++ stringify_at (ind + gap) (snd kv)) fields)
      ++ newline ind ++ "}"
  end.
End Stringify.

(** [JSON.stringify(v, null, gap)]. *)
Definition stringify (gap : nat) (v : json) : string := stringify_at gap 0 v.

(** *** Reading a parsed value *)

(** Own property [k] of an object: the last binding of a repeated key
    wins. *)
Fixpoint field (k : string) (fields : list (string * json)) : option json :=
  match fields with
  | [] => None
  | (k', v) :: r =>
      match field k r with
      | Some x => Some x
      | None => if String.eqb k k' then Some v else None
      end
  end.

(** [v.k] for a name [k] that is neither an index, [length] nor a
    prototype member; [None] is [undefined].  The caller excludes
    [null]. *)
Definition prop (k : string) (v : json) : option json :=
  match v with
  | JObj fields => field k fields
  | _ => None
  end.

(** [v[0]]; of a string, its first code unit. *)
Definition index0 (v : json) : option json :=
  match v with
  | JArr (x :: _) => Some x
  | JStr (String c r) => Some (JStr (Str.slice0 1 (String c r)))
  | JObj fields => field "0" fields
  | _ => None
  end.

(** [ToBoolean]: of a number, whether its double is not zero. *)
Definition truthy (v : json) : bool :=
  match v with
  | JNull => false
  | JBool b => b
  | JNum m e => negb (Number.is_zero (Number.of_decimal m e))
  | JStr s => negb (Str.is_empty s)
  | JArr _ | JObj _ => true
  end.

(** The texts of a list when each of them has one. *)
Fixpoint sequence (l : list (option string)) : option (list string) :=
  match l with
  | [] => Some []
  | Some x :: r => option_map (cons x) (sequence r)
  | None :: _ => None
  end.

(** [ToString], as the operator [+] and a template apply it; [None] is
    the [TypeError] it throws.  An object gives [[object Object]] by the
    [toString] it inherits, unless a member of its own has that name: no
    member of a parsed object is a function, so that nothing converts
    it.  An array joins the texts of its elements with commas, [null]
    elements as the empty string. *)
Fixpoint to_string (v : json) : option string :=
  match v with
  | JNull => Some "null"
  | JBool true => Some "true"
  | JBool false => Some "false"
  | JNum m e => Some (Number.to_string (Number.of_decimal m e))
  | JStr s => Some s
  | JArr items =>
      option_map (Str.join ",")
        (sequence
           (List.map (fun x => match x with
                               | JNull => Some EmptyString
                               | _ => to_string x
                               end) items))
  | JObj fields =>
      match field "toString" fields with
      | Some _ => None
      | None => Some "[object Object]"
      end
  end.

Definition is_array (v : json) : bool :=
  match v with JArr _ => true | _ => false end.

End JSON.

(** ** Data model of the pro screen (the interfaces of ProChat.tsx) *)

Inductive Role : Type := system | user | assistant.

Inductive AttachmentType : Type := image | file.

(** A JavaScript number by the decimal that writes it, mantissa and
    exponent. *)
Definition number : Type := (Z * Z)%type.

Module Attachment.
Record t : Type := mk {
  id : string;
  name : string;
  type : AttachmentType;
  mime : string;
  dataUrl : option string;
  textPreview : option string;
  size : option Z
}.
End Attachment.

Module Message.
Record t : Type := mk {
  id : string;
  role : Role;
  content : string;
  timestamp : Z;
  attachments : option (list Attachment.t)
}.
End Message.

Module Chat.
Record t : Type := mk {
  id : string;
  title : string;
  messages : list Message.t
}.
End Chat.

Module ModelConfig.
Record t : Type := mk {
  apiKey : string;
  selectedModel : string;
  baseUrl : string;
  temperature : number;
  maxTokens : option Z
}.
End ModelConfig.

Inductive AssistantStyle : Type := Default | Claude | ChatGPT | Qwen.

Definition Role_eqb (a b : Role) : bool :=
  match a, b with
  | system, system | user, user | assistant, assistant => true
  | _, _ => false
  end.

Definition AttachmentType_eqb (a b : AttachmentType) : bool :=
  match a, b with
  | image, image | file, file => true
  | _, _ => false
  end.

(** [x === y] where [y] may be [undefined]. *)
Definition same_id (x : string) (y : option string) : bool :=
  match y with
  | Some s => String.eqb x s
  | None => false
  end.

(** Truthiness of an optional string. *)
Definition nonempty (o : option string) : bool :=
  match o with
  | Some s => negb (Str.is_empty s)
  | None => false
  end.

(** [o || []]. *)
Definition or_nil {A : Type} (o : option (list A)) : list A :=
  match o with
  | Some l => l
  | None => []
  end.

(** [l.findIndex(p)]; [None] is -1. *)
Fixpoint findIndex {A : Type} (p : A -> bool) (l : list A) : option nat :=
  match l with
  | [] => None
  | x :: r => if p x then Some 0 else option_map S (findIndex p r)
  end.

Definition LF : string := String "010" EmptyString.

Definition DQ : string := String Str.dquote EmptyString.

Definition STYLE_PROMPTS (style : AssistantStyle) : string :=
  match style with
  | Default =>
      "You are a concise, helpful assistant." ++ LF ++ LF
      ++ "- Use clean Markdown" ++ LF
      ++ "- Prefer short paragraphs and bullet lists" ++ LF
      ++ "- Add section headings (##)" ++ LF
      ++ "- Use fenced code blocks with language hints" ++ LF
      ++ "- Avoid unnecessary preambles or filler"
  | Claude =>
      "Adopt Anthropic Claude's tone: warm, thoughtful, and structured."
      ++ LF ++ LF
      ++ "- Use Markdown with clear section headings (##)" ++ LF
      ++ "- Write short paragraphs and crisp bullet points" ++ LF
      ++ "- Show code in fenced blocks with language tags and minimal "
      ++ "commentary"
      ++ LF
      ++ "- When helpful, conclude with a brief " ++ DQ ++ "Next steps" ++ DQ
      ++ " list" ++ LF
      ++ "- Keep answers approachable yet precise"
  | ChatGPT =>
      "Adopt ChatGPT's tone: friendly, practical, and well-organized."
      ++ LF ++ LF
      ++ "- Begin with a one-line summary if the answer is long" ++ LF
      ++ "- Use Markdown with lists, tables (when useful), and code blocks "
      ++ "with language labels"
      ++ LF
      ++ "- Prefer step-by-step instructions" ++ LF
      ++ "- Add brief tips, caveats, or best practices to guide the reader"
  | Qwen =>
      "Adopt Qwen's tone: crisp, technical, and example-driven." ++ LF ++ LF
      ++ "- Respond in Markdown with numbered steps and compact explanations"
      ++ LF
      ++ "- Favor code-first answers, with concise inline notes" ++ LF
      ++ "- Highlight key commands or APIs succinctly" ++ LF
      ++ "- Avoid verbosity and focus on essentials"
  end.

(** ** The typed values as JSON objects, and back

    [to_json] lists the own properties of a value of the interface, in the
    order in which the screen writes them when it makes the value, an
    optional property only when it is present; [of_json] reads a parsed
    object at the interface's types and is [None] when a property has
    another type. *)

Module View.

Definition opt_field {A : Type} (k : string) (f : A -> json) (o : option A)
  : list (string * json) :=
  match o with
  | Some a => [(k, f a)]
  | None => []
  end.

Definition Role_to_string (r : Role) : string :=
  match r with
  | system => "system"
  | user => "user"
  | assistant => "assistant"
  end.

Definition Role_of_string (s : string) : option Role :=
  if String.eqb s "system" then Some system
  else if String.eqb s "user" then Some user
  else if String.eqb s "assistant" then Some assistant
  else None.

Definition AttachmentType_to_string (t : AttachmentType) : string :=
  match t with
  | image => "image"
  | file => "file"
  end.

Definition AttachmentType_of_string (s : string) : option AttachmentType :=
  if String.eqb s "image" then Some image
  else if String.eqb s "file" then Some file
  else None.

Definition Attachment_to_json (a : Attachment.t) : json :=
  JObj ([ ("id", JStr (Attachment.id a));
          ("name", JStr (Attachment.name a));
          ("type", JStr (AttachmentType_to_string (Attachment.type a)));
          ("mime", JStr (Attachment.mime a)) ]
        ++ opt_field "dataUrl" JStr (Attachment.dataUrl a)
        ++ opt_field "textPreview" JStr (Attachment.textPreview a)
        ++ opt_field "size" (fun z => JNum z 0) (Attachment.size a))%list.

Definition Message_to_json (m : Message.t) : json :=
  JObj ([ ("id", JStr (Message.id m));
          ("role", JStr (Role_to_string (Message.role m)));
          ("content", JStr (Message.content m)) ]
        ++ opt_field "attachments"
             (fun l => JArr (List.map Attachment_to_json l))
             (Message.attachments m)
        ++ [ ("timestamp", JNum (Message.timestamp m) 0) ])%list.

(** The object [JSON.stringify(activeChat, null, 2)] writes. *)
Definition Chat_to_json (c : Chat.t) : json :=
  JObj [ ("id", JStr (Chat.id c));
         ("title", JStr (Chat.title c));
         ("messages", JArr (List.map Message_to_json (Chat.messages c))) ].

(** A required property. *)
Definition req {A : Type} (k : string) (f : json -> option A) (v : json)
  : option A :=
  match JSON.prop k v with
  | Some x => f x
  | None => None
  end.

(** An optional property: absent, or present at its type. *)
Definition opt {A : Type} (k : string) (f : json -> option A) (v : json)
  : option (option A) :=
  match JSON.prop k v with
  | Some x => option_map Some (f x)
  | None => Some None
  end.

Definition as_string (v : json) : option string :=
  match v with
  | JStr s => Some s
  | _ => None
  end.

(** An integral number. *)
Definition as_integer (v : json) : option Z :=
  match v with
  | JNum m e =>
      if (0 <=? e)%Z then Some (m * 10 ^ e)%Z
      else if (m mod 10 ^ (- e) =? 0)%Z then Some (m / 10 ^ (- e))%Z
      else None
  | _ => None
  end.

Fixpoint all_some {A B : Type} (f : A -> option B) (l : list A)
  : option (list B) :=
  match l with
  | [] => Some []
  | x :: r =>
      match f x, all_some f r with
      | Some y, Some ys => Some (y :: ys)
      | _, _ => None
      end
  end.

Definition as_array {A : Type} (f : json -> option A) (v : json)
  : option (list A) :=
  match v with
  | JArr items => all_some f items
  | _ => None
  end.

Definition as_Role (v : json) : option Role :=
  match v with
  | JStr s => Role_of_string s
  | _ => None
  end.

Definition as_AttachmentType (v : json) : option AttachmentType :=
  match v with
  | JStr s => AttachmentType_of_string s
  | _ => None
  end.

Definition Attachment_of_json (v : json) : option Attachment.t :=
  match req "id" as_string v, req "name" as_string v,
        req "type" as_AttachmentType v, req "mime" as_string v,
        opt "dataUrl" as_string v, opt "textPreview" as_string v,
        opt "size" as_integer v with
  | Some i, Some n, Some t, Some mi, Some d, Some p, Some z =>
      Some (Attachment.mk i n t mi d p z)
  | _, _, _, _, _, _, _ => None
  end.

Definition Message_of_json (v : json) : option Message.t :=
  match req "id" as_string v, req "role" as_Role v,
        req "content" as_string v, req "timestamp" as_integer v,
        opt "attachments" (as_array Attachment_of_json) v with
  | Some i, Some r, Some c, Some t, Some a => Some (Message.mk i r c t a)
  | _, _, _, _, _ => None
  end.

Definition Chat_of_json (v : json) : option Chat.t :=
  match req "id" as_string v, req "title" as_string v,
        req "messages" (as_array Message_of_json) v with
  | Some i, Some t, Some m => Some (Chat.mk i t m)
  | _, _, _ => None
  end.

(** The object [JSON.stringify(modelConfig)] writes. *)
Definition ModelConfig_to_json (c : ModelConfig.t) : json :=
  JObj ([ ("apiKey", JStr (ModelConfig.apiKey c));
          ("selectedModel", JStr (ModelConfig.selectedModel c));
          ("baseUrl", JStr (ModelConfig.baseUrl c));
          ("temperature",
           JNum (fst (ModelConfig.temperature c))
             (snd (ModelConfig.temperature c))) ]
        ++ opt_field "maxTokens" (fun z => JNum z 0)
             (ModelConfig.maxTokens c))%list.

Definition as_number (v : json) : option number :=
  match v with
  | JNum m e => Some (m, e)
  | _ => None
  end.

Definition ModelConfig_of_json (v : json) : option ModelConfig.t :=
  match req "apiKey" as_string v, req "selectedModel" as_string v,
        req "baseUrl" as_string v, req "temperature" as_number v,
        opt "maxTokens" as_integer v with
  | Some k, Some m, Some u, Some t, Some x => Some (ModelConfig.mk k m u t x)
  | _, _, _, _, _ => None
  end.

(** The array [JSON.stringify(chats)] writes. *)
Definition chats_to_json (l : list Chat.t) : json :=
  JArr (List.map Chat_to_json l).

End View.

(** ** The request body *)

Inductive ContentPart : Type :=
| TextPart (text : string)               (* { type: "text", text } *)
| ImageUrlPart (image_url : string).     (* { type: "image_url", image_url } *)

Inductive Content : Type :=
| PlainContent (text : string)
| PartsContent (parts : list ContentPart).

Module PayloadMessage.
Record t : Type := mk {
  role : Role;
  content : Content
}.
End PayloadMessage.

Module Payload.
Record t : Type := mk {
  model : string;
  messages : list PayloadMessage.t;
  temperature : number;
  max_tokens : option Z;
  stream : bool
}.
End Payload.

(** ** The world of the pro screen *)

(** A thrown value: an [Error] with its name and message. *)
Module Err.
Record t : Type := mk { name : string; message : string }.

Definition Error (msg : string) : t := mk "Error" msg.

(** [String(err)]. *)
Definition to_string (e : t) : string :=
  if Str.is_empty (message e) then name e
  else if Str.is_empty (name e) then message e
  else name e ++ ": " ++ message e.
End Err.

(** A call of [fetch]: the [signal] is the [AbortController] made for it,
    named by its position in the list of calls. *)
Module Request.
Record t : Type := mk {
  url : string;
  authorization : string;
  body : Payload.t;
  signal : nat
}.
End Request.

(** How the body of a response ends: the reader reports [done]; or the user
    presses Stop while a read is pending, so that [stopStreaming] runs and the
    read rejects with the abort error; or the read rejects by itself. *)
Inductive StreamEnd : Type :=
| EndDone
| EndStopped (e : Err.t)
| EndFailed (e : Err.t).

(** What [fetch] gives: a rejection, or a response.  [text] is what
    [res.text()] gives ([""] when it rejects); [chunks] are the texts the
    decoder gives for the successive reads of the body. *)
Module Response.
Record t : Type := mk {
  ok : bool;
  has_body : bool;
  status : nat;
  statusText : string;
  text : string;
  chunks : list string;
  ending : StreamEnd
}.
End Response.

Inductive FetchResult : Type :=
| Rejected (e : Err.t)
| Responded (res : Response.t).

(** The state of the component ([useState], [useRef]) and the effects it
    leaves outside: the calls of [fetch], the calls whose [streamChat] has
    settled, the controllers aborted, the console and the alerts. *)
Record State : Type := mkState {
  chats : list Chat.t;
  activeChatId : option string;
  assistantStyle : AssistantStyle;
  customSystemPrompt : string;
  modelConfig : ModelConfig.t;
  isStreaming : bool;
  abortRef : option nat;
  inputMessage : string;
  attachments : list Attachment.t;
  requests : list Request.t;
  settled : list nat;
  aborted : list nat;
  console : list string;
  alerts : list string
}.

Definition set_chats (f : list Chat.t -> list Chat.t) (s : State) : State :=
  mkState (f (chats s)) (activeChatId s) (assistantStyle s)
    (customSystemPrompt s) (modelConfig s) (isStreaming s) (abortRef s)
    (inputMessage s) (attachments s) (requests s) (settled s) (aborted s)
    (console s) (alerts s).

Definition set_activeChatId (v : option string) (s : State) : State :=
  mkState (chats s) v (assistantStyle s)
    (customSystemPrompt s) (modelConfig s) (isStreaming s) (abortRef s)
    (inputMessage s) (attachments s) (requests s) (settled s) (aborted s)
    (console s) (alerts s).

Definition set_isStreaming (v : bool) (s : State) : State :=
  mkState (chats s) (activeChatId s) (assistantStyle s)
    (customSystemPrompt s) (modelConfig s) v (abortRef s)
    (inputMessage s) (attachments s) (requests s) (settled s) (aborted s)
    (console s) (alerts s).

Definition set_abortRef (v : option nat) (s : State) : State :=
  mkState (chats s) (activeChatId s) (assistantStyle s)
    (customSystemPrompt s) (modelConfig s) (isStreaming s) v
    (inputMessage s) (attachments s) (requests s) (settled s) (aborted s)
    (console s) (alerts s).

Definition set_inputMessage (v : string) (s : State) : State :=
  mkState (chats s) (activeChatId s) (assistantStyle s)
    (customSystemPrompt s) (modelConfig s) (isStreaming s) (abortRef s)
    v (attachments s) (requests s) (settled s) (aborted s)
    (console s) (alerts s).

Definition set_attachments (v : list Attachment.t) (s : State) : State :=
  mkState (chats s) (activeChatId s) (assistantStyle s)
    (customSystemPrompt s) (modelConfig s) (isStreaming s) (abortRef s)
    (inputMessage s) v (requests s) (settled s) (aborted s)
    (console s) (alerts s).

Definition add_request (r : Request.t) (s : State) : State :=
  mkState (chats s) (activeChatId s) (assistantStyle s)
    (customSystemPrompt s) (modelConfig s) (isStreaming s) (abortRef s)
    (inputMessage s) (attachments s) (requests s ++ [r])%list (settled s)
    (aborted s) (console s) (alerts s).

Definition add_settled (n : nat) (s : State) : State :=
  mkState (chats s) (activeChatId s) (assistantStyle s)
    (customSystemPrompt s) (modelConfig s) (isStreaming s) (abortRef s)
    (inputMessage s) (attachments s) (requests s) (settled s ++ [n])%list
    (aborted s) (console s) (alerts s).

Definition add_aborted (n : nat) (s : State) : State :=
  mkState (chats s) (activeChatId s) (assistantStyle s)
    (customSystemPrompt s) (modelConfig s) (isStreaming s) (abortRef s)
    (inputMessage s) (attachments s) (requests s) (settled s)
    (aborted s ++ [n])%list (console s) (alerts s).

Definition add_console (line : string) (s : State) : State :=
  mkState (chats s) (activeChatId s) (assistantStyle s)
    (customSystemPrompt s) (modelConfig s) (isStreaming s) (abortRef s)
    (inputMessage s) (attachments s) (requests s) (settled s) (aborted s)
    (console s ++ [line])%list (alerts s).

Definition add_alert (msg : string) (s : State) : State :=
  mkState (chats s) (activeChatId s) (assistantStyle s)
    (customSystemPrompt s) (modelConfig s) (isStreaming s) (abortRef s)
    (inputMessage s) (attachments s) (requests s) (settled s) (aborted s)
    (console s) (alerts s ++ [msg])%list.

(** The calls of [fetch] that are in flight: issued, and the [streamChat]
    that issued them has neither returned nor thrown. *)
Definition in_flight (s : State) : list Request.t :=
  List.filter
    (fun r => negb (List.existsb (Nat.eqb (Request.signal r)) (settled s)))
    (requests s).

(** ** Handlers: state and exceptions *)

Inductive Result (A : Type) : Type :=
| Ok (a : A)
| Throw (e : Err.t).
Arguments Ok {A} a.
Arguments Throw {A} e.

(** A handler over the state [St] with a result in [A]. *)
Definition M (St A : Type) : Type := St -> Result A * St.

Section Handler.
Context {St : Type}.

Definition ret {A : Type} (a : A) : M St A := fun s => (Ok a, s).

Definition bind {A B : Type} (m : M St A) (k : A -> M St B) : M St B :=
  fun s =>
    match m s with
    | (Ok a, s') => k a s'
    | (Throw e, s') => (Throw e, s')
    end.

Definition throw {A : Type} (e : Err.t) : M St A := fun s => (Throw e, s).

Definition get : M St St := fun s => (Ok s, s).

Definition modify (f : St -> St) : M St unit := fun s => (Ok tt, f s).

(** [try { body } catch (err) { handler }]. *)
Definition try_catch {A : Type} (body : M St A) (handler : Err.t -> M St A)
  : M St A :=
  fun s =>
    match body s with
    | (Ok a, s') => (Ok a, s')
    | (Throw e, s') => handler e s'
    end.

(** [try { body } finally { cleanup }], for a [cleanup] that does not
    throw. *)
Definition try_finally {A : Type} (body : M St A) (cleanup : M St unit)
  : M St A :=
  fun s =>
    match body s with
    | (r, s') => (r, snd (cleanup s'))
    end.

(** The state a handler leaves. *)
Definition exec {A : Type} (m : M St A) (s : St) : St := snd (m s).
End Handler.

Declare Scope handler_scope.
Delimit Scope handler_scope with handler.
Notation "x <- m ;; k" := (bind m (fun x => k))
  (at level 61, m at next level, right associativity) : handler_scope.
Notation "m ;; k" := (bind m (fun _ => k))
  (at level 61, right associativity) : handler_scope.
Open Scope handler_scope.

(** ** The pro screen (ProChat.tsx) *)

Module ProChat.

(** [chats.find(c => c.id === activeChatId)]; [None] is [undefined]. *)
Definition activeChat (s : State) : option Chat.t :=
  List.find (fun c => same_id (Chat.id c) (activeChatId s)) (chats s).

(** [{ ...c, messages: msgs }]. *)
Definition with_messages (c : Chat.t) (msgs : list Message.t) : Chat.t :=
  Chat.mk (Chat.id c) (Chat.title c) msgs.

(** [{ ...c, title: t }]. *)
Definition with_title (c : Chat.t) (t : string) : Chat.t :=
  Chat.mk (Chat.id c) t (Chat.messages c).

(** *** The conversations across reloads *)

Definition LS_KEY_CHATS : string := "prochat.chats.v1".

Definition LS_KEY_SETTINGS : string := "prochat.settings.v1".

(** [localStorage]: the text stored under a key, [None] for [null]. *)
Definition Storage : Type := string -> option string.

Definition setItem (k v : string) (st : Storage) : Storage :=
  fun k' => if String.eqb k' k then Some v else st k'.

(** The two effects that persist, each after the first render and after
    every render in which its value changed. *)
Definition persist_chats (s : State) (st : Storage) : Storage :=
  setItem LS_KEY_CHATS (JSON.stringify 0 (View.chats_to_json (chats s))) st.

Definition persist_settings (s : State) (st : Storage) : Storage :=
  setItem LS_KEY_SETTINGS
    (JSON.stringify 0 (View.ModelConfig_to_json (modelConfig s))) st.

(** The conversation list made when nothing usable is stored. *)
Definition seed (id : string) : list Chat.t := [Chat.mk id "New Chat" []].

(** What the first render starts from: the initial [chats], the initial
    [activeChatId], which is [chats[0]?.id], and the console. *)
Module Initial.
Record t : Type := mk {
  chats : list Chat.t;
  activeChatId : option string;
  console : list string
}.
End Initial.

Definition start (l : list Chat.t) (log : list string) : Initial.t :=
  Initial.mk l (option_map Chat.id (List.hd_error l)) log.

(** The initializer of [chats]; [id] is the [uuid()] of the seed.  The
    stored text is used when it is not empty and parses, whatever it
    parses to: the result is [None] when that value is no list of
    conversations, and the state then has no value of its type. *)
Definition initial (st : Storage) (id : string) : option Initial.t :=
  match st LS_KEY_CHATS with
  | Some raw =>
      if Str.is_empty raw then Some (start (seed id) [])
      else
        match JSON.parse raw with
        | Some v =>
            option_map (fun l => start l [])
              (View.as_array View.Chat_of_json v)
        | None => Some (start (seed id) ["Failed to load chats 181"])
        end
  | None => Some (start (seed id) [])
  end.

(** The settings of a screen that never stored any. *)
Definition default_config : ModelConfig.t :=
  ModelConfig.mk EmptyString "openai/gpt-4o-mini"
    "https://openrouter.ai/api/v1" (6, -1)%Z (Some 1024%Z).

(** The initializer of [modelConfig], with the console; [None] when the
    stored text parses to a value that is no configuration. *)
Definition initial_modelConfig (st : Storage)
  : option (ModelConfig.t * list string) :=
  match st LS_KEY_SETTINGS with
  | Some raw =>
      if Str.is_empty raw then Some (default_config, [])
      else
        match JSON.parse raw with
        | Some v =>
            option_map (fun c => (c, [])) (View.ModelConfig_of_json v)
        | None => Some (default_config, ["Failed to load settings 197"])
        end
  | None => Some (default_config, [])
  end.

(** The state of the first render. *)
Definition mount (st : Storage) (id : string) : option State :=
  match initial st id, initial_modelConfig st with
  | Some i, Some (config, log) =>
      Some (mkState (Initial.chats i) (Initial.activeChatId i) Claude
              EmptyString config false None EmptyString [] [] [] []
              (Initial.console i ++ log)%list [])
  | _, _ => None
  end.

(** *** Chat management *)

Definition newChat (id : string) : M State unit :=
  let c := Chat.mk id "New Chat" [] in
  modify (set_chats (fun prev => c :: prev)) ;;
  modify (set_activeChatId (Some (Chat.id c))) ;;
  modify (set_inputMessage EmptyString) ;;
  modify (set_attachments []).

(** The click on a conversation of the sidebar. *)
Definition selectChat (id : string) : M State unit :=
  modify (set_activeChatId (Some id)).

(** The message of the [TypeError] for a property of [undefined]; only its
    presence matters. *)
Definition TypeError (what : string) : Err.t :=
  Err.mk "TypeError"
    ("Cannot read properties of undefined (reading '" ++ what ++ "')").

(** The render of the screen, as far as it can fail: the message list is
    made from [activeChat.messages], which throws when no conversation
    has the identifier [activeChatId].  Nothing in the application
    catches the error of a render. *)
Definition render (s : State) : Result unit :=
  match activeChat s with
  | Some _ => Ok tt
  | None => Throw (TypeError "messages")
  end.

(** The storage after the screen went from a render to the state [s] with
    another list of conversations: the effect that stores the list runs
    after the render of [s], and does not run when that render throws. *)
Definition commit (s : State) (st : Storage) : Storage :=
  match render s with
  | Ok _ => persist_chats s st
  | Throw _ => st
  end.

(** The [TypeError] of a value that has no text. *)
Definition ConversionError : Err.t :=
  Err.mk "TypeError" "Cannot convert object to primitive value".

Definition deleteChat (id : string) : M State unit :=
  r <- get ;;
  modify (set_chats
            (List.filter (fun c => negb (String.eqb (Chat.id c) id)))) ;;
  if same_id id (activeChatId r) && Nat.ltb 1 (List.length (chats r))
  then
    match List.find (fun c => negb (String.eqb (Chat.id c) id)) (chats r) with
    | Some c => modify (set_activeChatId (Some (Chat.id c)))
    | None => throw (TypeError "id")
    end
  else ret tt.

(** *** Helpers *)

Definition systemPrompt (s : State) : string :=
  let base := STYLE_PROMPTS (assistantStyle s) in
  let custom := Str.trim (customSystemPrompt s) in
  if Str.is_empty custom then base else base ++ LF ++ LF ++ custom.

(** [addMessage], closed over the [activeChatId] of the render that made
    it. *)
Definition addMessage (active : option string) (msg : Message.t)
  : M State unit :=
  modify (set_chats
            (List.map (fun c =>
               if same_id (Chat.id c) active
               then with_messages c (Chat.messages c ++ [msg])%list
               else c))).

(** The loop of [updateLastAssistant]: [i] runs from [k - 1] down to 0. *)
Fixpoint update_last_assistant (updater : Message.t -> Message.t)
    (msgs : list Message.t) (k : nat) : list Message.t :=
  match k with
  | O => msgs
  | S i =>
      match List.nth_error msgs i with
      | Some m =>
          if Role_eqb (Message.role m) assistant
          then List.firstn i msgs ++ updater m :: List.skipn (S i) msgs
          else update_last_assistant updater msgs i
      | None => update_last_assistant updater msgs i
      end
  end%list.

Definition updateLastAssistant (active : option string)
    (updater : Message.t -> Message.t) : M State unit :=
  modify (set_chats
            (List.map (fun c =>
               if negb (same_id (Chat.id c) active) then c
               else with_messages c
                      (update_last_assistant updater (Chat.messages c)
                         (List.length (Chat.messages c)))))).

(** *** Build OpenRouter payload *)

(** [a.type === "image" && a.dataUrl]. *)
Definition is_image (a : Attachment.t) : bool :=
  AttachmentType_eqb (Attachment.type a) image
  && nonempty (Attachment.dataUrl a).

(** [{ type: "image_url", image_url: a.dataUrl! }]. *)
Definition image_part (a : Attachment.t) : ContentPart :=
  ImageUrlPart (match Attachment.dataUrl a with
                | Some u => u
                | None => EmptyString
                end).

Definition imageParts (l : list Attachment.t) : list ContentPart :=
  List.map image_part (List.filter is_image l).

Definition userContent (userMsg : Message.t) : Content :=
  let userHasImages :=
    List.existsb is_image (or_nil (Message.attachments userMsg)) in
  if userHasImages
  then PartsContent
         (TextPart (Message.content userMsg)
          :: imageParts (or_nil (Message.attachments userMsg)))
  else PlainContent (Message.content userMsg).

(** The content of a history message: [m.attachments?.length ? ... : ...]. *)
Definition historyContent (m : Message.t) : Content :=
  match Message.attachments m with
  | Some (a :: l) =>
      PartsContent (TextPart (Message.content m) :: imageParts (a :: l))
  | _ => PlainContent (Message.content m)
  end.

Definition buildPayload (s : State) (userMsg : Message.t)
    (history : list Message.t) : Payload.t :=
  let msgs :=
    (PayloadMessage.mk system (PlainContent (systemPrompt s))
     :: List.map (fun m =>
          PayloadMessage.mk (Message.role m) (historyContent m)) history
     ++ [PayloadMessage.mk user (userContent userMsg)])%list in
  Payload.mk (ModelConfig.selectedModel (modelConfig s)) msgs
    (ModelConfig.temperature (modelConfig s))
    (ModelConfig.maxTokens (modelConfig s)) true.

(** *** Networking (streaming) *)

(** [line.match(re)] for the regular expression of the source: the text
    [data:] at the start of the line, white space, then a group that must
    reach the end of the line; the result is the group.  The white space
    is skipped greedily and the group holds no line terminator, which the
    dot of the expression does not match. *)
Definition match_data (line : string) : option string :=
  if String.prefix "data:" line then
    let rest := Str.trimStart (substring 5 (String.length line - 5) line) in
    if Str.has_line_terminator rest then None else Some rest
  else None.

(** One step of an optional chain: [v?.f]. *)
Definition chain (f : json -> option json) (v : option json) : option json :=
  match v with
  | None | Some JNull => None
  | Some x => f x
  end.

(** [json.choices?.[0]?.delta?.content ?? ""]; [None] when [json] is
    [null] and the first property access throws. *)
Definition delta_content (j : json) : option json :=
  match j with
  | JNull => None
  | _ =>
      match chain (JSON.prop "content")
              (chain (JSON.prop "delta")
                 (chain JSON.index0 (JSON.prop "choices" j))) with
      | None | Some JNull => Some (JStr EmptyString)
      | Some v => Some v
      end
  end.

Definition parse_failure (line : string) : string :=
  "Failed to parse OpenRouter stream: " ++ line.

(** [{ ...prev, content: prev.content + delta }]. *)
Definition append_content (delta : string) (prev : Message.t) : Message.t :=
  Message.mk (Message.id prev) (Message.role prev)
    (Str.cat (Message.content prev) delta) (Message.timestamp prev)
    (Message.attachments prev).

(** The body of the [for] loop over the lines of a chunk; [full] is the
    accumulator and the result its new value.  [full += delta] turns a
    delta that is no string into its text, and throws when it has none;
    the updater of the message adds the same text. *)
Definition process_line (active : option string) (full : string)
    (line : string) : M State string :=
  match match_data line with
  | None => ret full
  | Some data =>
      if String.eqb data "[DONE]" then ret full
      else
        try_catch
          (match JSON.parse data with
           | None => throw (Err.mk "SyntaxError" "Unexpected token")
           | Some j =>
               match delta_content j with
               | None => throw (TypeError "choices")
               | Some delta =>
                   if JSON.truthy delta then
                     match JSON.to_string delta with
                     | None => throw ConversionError
                     | Some text =>
                         updateLastAssistant active (append_content text) ;;
                         ret (Str.cat full text)
                     end
                   else ret full
               end
           end)
          (fun _ => modify (add_console (parse_failure line)) ;; ret full)
  end.

Fixpoint process_lines (active : option string) (full : string)
    (lines : list string) : M State string :=
  match lines with
  | [] => ret full
  | line :: rest =>
      full' <- process_line active full line ;;
      process_lines active full' rest
  end.

Definition process_chunk (active : option string) (full : string)
    (chunk : string) : M State string :=
  process_lines active full (Str.split_lines chunk).

Definition stopStreaming : M State unit :=
  s <- get ;;
  match abortRef s with
  | Some ctl => modify (add_aborted ctl)
  | None => ret tt
  end ;;
  modify (set_abortRef None) ;;
  modify (set_isStreaming false).

(** The [while (true)] loop over the reads of the body. *)
Fixpoint read_loop (active : option string) (full : string)
    (chunks : list string) (ending : StreamEnd) : M State string :=
  match chunks with
  | chunk :: rest =>
      full' <- process_chunk active full chunk ;;
      read_loop active full' rest ending
  | [] =>
      match ending with
      | EndDone => ret full
      | EndStopped e => stopStreaming ;; throw e
      | EndFailed e => throw e
      end
  end.

(** The [finally] block of [streamChat]. *)
Definition cleanup : M State unit :=
  modify (set_isStreaming false) ;;
  modify (set_abortRef None).

Definition placeholder (asstId : string) (t : Z) : Message.t :=
  Message.mk asstId assistant EmptyString t None.

(** [streamChat] up to the call of [fetch]: the controller is stored and
    the request leaves. *)
Definition streamChat_fetch (r : State) (payload : Payload.t) : M State nat :=
  s <- get ;;
  let controller := List.length (requests s) in
  modify (set_abortRef (Some controller)) ;;
  modify (add_request
            (Request.mk
               (Str.strip_trailing_slash
                  (ModelConfig.baseUrl (modelConfig r))
                ++ "/chat/completions")
               ("Bearer " ++ ModelConfig.apiKey (modelConfig r))
               payload controller)) ;;
  ret controller.

(** [streamChat] from the point where [fetch] has settled. *)
Definition streamChat_read (r : State) (res : FetchResult)
    (asstId : string) (t : Z) : M State string :=
  match res with
  | Rejected e => throw e
  | Responded res =>
      if negb (Response.ok res) || negb (Response.has_body res) then
        throw (Err.Error
                 ("HTTP " ++ NilZero.string_of_uint
                               (Nat.to_uint (Response.status res))
                  ++ ": "
                  ++ (if Str.is_empty (Response.text res)
                      then Response.statusText res
                      else Response.text res)))
      else
        modify (set_isStreaming true) ;;
        addMessage (activeChatId r) (placeholder asstId t) ;;
        full <- try_finally
                  (read_loop (activeChatId r) EmptyString
                     (Response.chunks res) (Response.ending res))
                  cleanup ;;
        if Str.is_empty (Str.trim full)
        then throw (Err.Error "Empty response from model")
        else ret full
  end.

(** The call [controller] settles, however [streamChat] ends. *)
Definition settling {A : Type} (controller : nat) (body : M State A)
  : M State A :=
  try_finally body (modify (add_settled controller)).

(** [streamChat(payload)] with the outcome of its [fetch]. *)
Definition streamChat (r : State) (payload : Payload.t) (res : FetchResult)
    (asstId : string) (t : Z) : M State string :=
  controller <- streamChat_fetch r payload ;;
  settling controller (streamChat_read r res asstId t).

(** *** Send / Edit / Regenerate *)

Module Custom.
Record t : Type := mk {
  content : option string;
  attachments : option (list Attachment.t)
}.
End Custom.

(** A [streamChat] waiting for its [fetch], with what its caller closed
    over. *)
Module Pending.
Record t : Type := mk {
  render : State;
  controller : nat;
  content : string
}.
End Pending.

(** The content of the message the [catch] of [handleSend] adds, with
    [err?.message || String(err)] in it. *)
Definition send_error_content (err : Err.t) : string :=
  "## Error" ++ LF ++ LF
  ++ (if Str.is_empty (Err.message err) then Err.to_string err
      else Err.message err)
  ++ LF ++ LF ++ "**Tips**" ++ LF ++ "- Check API key / model" ++ LF
  ++ "- Verify base URL".

(** [handleSend] up to its [await]: [r] is the render the handler belongs
    to, [uid] and [t] are [uuid()] and [now()] for the user message,
    [errId] and [t2] those of the [catch], which runs here when the
    argument of [streamChat] cannot be evaluated. *)
Definition handleSend_begin (custom : option Custom.t) (uid : string) (t : Z)
    (errId : string) (t2 : Z) : M State (option Pending.t) :=
  r <- get ;;
  if isStreaming r then ret None
  else
    let content :=
      Str.trim (match custom with
                | Some (Custom.mk (Some c) _) => c
                | _ => inputMessage r
                end) in
    if Str.is_empty content then ret None
    else if Str.is_empty (ModelConfig.apiKey (modelConfig r))
            || Str.is_empty (ModelConfig.selectedModel (modelConfig r))
    then
      modify (add_alert
                "Please set API key and model in Settings (gear icon)") ;;
      ret None
    else
      let userMsg :=
        Message.mk uid user content t
          (Some (match custom with
                 | Some (Custom.mk _ (Some a)) => a
                 | _ => attachments r
                 end)) in
      addMessage (activeChatId r) userMsg ;;
      modify (set_inputMessage EmptyString) ;;
      modify (set_attachments []) ;;
      match activeChat r with
      | None =>
          (* [activeChat.messages] throws inside the [try] *)
          addMessage (activeChatId r)
            (Message.mk errId assistant
               (send_error_content (TypeError "messages")) t2 None) ;;
          ret None
      | Some c =>
          controller <- streamChat_fetch r
                          (buildPayload r userMsg (Chat.messages c)) ;;
          ret (Some (Pending.mk r controller content))
      end.

(** [handleSend] after its [await]: [asstId], [t1] for the placeholder and
    [errId], [t2] for the error message. *)
Definition handleSend_resume (p : Pending.t) (res : FetchResult)
    (asstId : string) (t1 : Z) (errId : string) (t2 : Z) : M State unit :=
  let r := Pending.render p in
  try_catch
    (settling (Pending.controller p) (streamChat_read r res asstId t1) ;;
     match activeChat r with
     | Some c =>
         if String.eqb (Chat.title c) "New Chat"
            && negb (Nat.eqb (String.length (Pending.content p)) 0)
         then modify (set_chats
                        (List.map (fun c =>
                           if same_id (Chat.id c) (activeChatId r)
                           then with_title c
                                  (Str.slice0 42 (Pending.content p))
                           else c)))
         else ret tt
     | None => throw (TypeError "title")
     end)
    (fun err =>
       addMessage (activeChatId r)
         (Message.mk errId assistant (send_error_content err) t2 None)).

(** [handleSend()] together with the outcome of the request it makes. *)
Definition handleSend (custom : option Custom.t) (uid : string) (t : Z)
    (res : FetchResult) (asstId : string) (t1 : Z) (errId : string)
    (t2 : Z) : M State unit :=
  p <- handleSend_begin custom uid t errId t2 ;;
  match p with
  | Some p => handleSend_resume p res asstId t1 errId t2
  | None => ret tt
  end.

Definition handleEditMessage (mid : string) : M State unit :=
  r <- get ;;
  match activeChat r with
  | None => throw (TypeError "messages")
  | Some a =>
      match List.find (fun x => String.eqb (Message.id x) mid)
              (Chat.messages a) with
      | None => ret tt
      | Some m =>
          modify (set_inputMessage (Message.content m)) ;;
          modify (set_attachments (or_nil (Message.attachments m))) ;;
          modify (set_chats
                    (List.map (fun c =>
                       if negb (same_id (Chat.id c) (activeChatId r)) then c
                       else
                         match findIndex
                                 (fun x => String.eqb (Message.id x) mid)
                                 (Chat.messages c) with
                         | None => c
                         | Some idx =>
                             with_messages c
                               (List.firstn idx (Chat.messages c))
                         end)))
      end
  end.

(** The loop of [handleRegenerate]: the greatest [i < k] whose message has
    the role [user]. *)
Fixpoint last_user (msgs : list Message.t) (k : nat)
  : option (nat * Message.t) :=
  match k with
  | O => None
  | S i =>
      match List.nth_error msgs i with
      | Some m =>
          if Role_eqb (Message.role m) user then Some (i, m)
          else last_user msgs i
      | None => last_user msgs i
      end
  end.

(** The content of the message the [catch] of [handleRegenerate] adds. *)
Definition regenerate_error_content (err : Err.t) : string :=
  "## Error" ++ LF ++ LF ++ Err.message err.

(** [handleRegenerate] up to the call of [fetch]. *)
Definition handleRegenerate_begin : M State (option Pending.t) :=
  r <- get ;;
  match activeChat r with
  | None => throw (TypeError "messages")
  | Some a =>
      let msgs := Chat.messages a in
      match last_user msgs (List.length msgs) with
      | None => ret None
      | Some (i, lastUser) =>
          modify (set_chats
                    (List.map (fun c =>
                       if same_id (Chat.id c) (activeChatId r)
                       then with_messages c (List.firstn (i + 1) msgs)
                       else c))) ;;
          controller <- streamChat_fetch r
                          (buildPayload r lastUser (List.firstn i msgs)) ;;
          ret (Some (Pending.mk r controller (Message.content lastUser)))
      end
  end.

Definition handleRegenerate_resume (p : Pending.t) (res : FetchResult)
    (asstId : string) (t1 : Z) (errId : string) (t2 : Z) : M State unit :=
  let r := Pending.render p in
  try_catch
    (settling (Pending.controller p) (streamChat_read r res asstId t1) ;;
     ret tt)
    (fun err =>
       addMessage (activeChatId r)
         (Message.mk errId assistant (regenerate_error_content err) t2 None)).

Definition handleRegenerate (res : FetchResult) (asstId : string) (t1 : Z)
    (errId : string) (t2 : Z) : M State unit :=
  p <- handleRegenerate_begin ;;
  match p with
  | Some p => handleRegenerate_resume p res asstId t1 errId t2
  | None => ret tt
  end.

(** *** Attachments *)

(** A file of the picker, with what the two readers give for it: the data
    URL and the text, or the error of the read. *)
Module Picked.
Record t : Type := mk {
  name : string;
  type : string;
  size : Z;
  dataUrl : Result string;
  text : Result string
}.
End Picked.

(** The attachment the loop of [onPickFiles] makes of one file, or the
    error of the data URL read, which nothing catches. *)
Definition attach (id : string) (f : Picked.t) : Result Attachment.t :=
  if String.prefix "image/" (Picked.type f) then
    match Picked.dataUrl f with
    | Ok dataUrl =>
        Ok (Attachment.mk id (Picked.name f) image (Picked.type f)
              (Some dataUrl) None (Some (Picked.size f)))
    | Throw e => Throw e
    end
  else
    let text :=
      match Picked.text f with
      | Ok t => t
      | Throw _ => "[binary file]"
      end in
    Ok (Attachment.mk id (Picked.name f) file
          (if Str.is_empty (Picked.type f) then "application/octet-stream"
           else Picked.type f)
          None (Some (Str.slice0 4000 text)) (Some (Picked.size f))).

(** The loop over the files; [uuid k] is what the call number [k] of
    [uuid()] gives. *)
Fixpoint pick_loop (uuid : nat -> string) (k : nat) (files : list Picked.t)
    (arr : list Attachment.t) : Result (list Attachment.t) :=
  match files with
  | [] => Ok arr
  | f :: rest =>
      match attach (uuid k) f with
      | Ok a => pick_loop uuid (S k) rest (arr ++ [a])%list
      | Throw e => Throw e
      end
  end.

(** [onPickFiles(files)]; [None] is [null]. *)
Definition onPickFiles (files : option (list Picked.t))
    (uuid : nat -> string) : M State unit :=
  match files with
  | None | Some [] => ret tt
  | Some l =>
      match pick_loop uuid 0 l [] with
      | Ok arr =>
          modify (fun s => set_attachments (attachments s ++ arr)%list s)
      | Throw e => throw e
      end
  end.

Definition removeAttachment (id : string) : M State unit :=
  modify (fun s =>
    set_attachments
      (List.filter (fun a => negb (String.eqb (Attachment.id a) id))
         (attachments s)) s).

(** *** Export / Import *)

(** The file [exportChat] offers for download: its name and its text. *)
Module File.
Record t : Type := mk { name : string; text : string }.
End File.

Definition exportChat (s : State) : option File.t :=
  match activeChat s with
  | None => None
  | Some c =>
      Some (File.mk
              ((if Str.is_empty (Chat.title c) then "chat" else Chat.title c)
               ++ ".json")
              (JSON.stringify 2 (View.Chat_to_json c)))
  end.

(** The test [obj && obj.messages && Array.isArray(obj.messages)]: the
    array when it passes. *)
Definition import_messages (obj : json) : option (list json) :=
  if JSON.truthy obj then
    match JSON.prop "messages" obj with
    | Some (JArr items) => Some items
    | _ => None
    end
  else None.

(** [obj.title || file.name.replace(/\.json$/, "")] at the type [string]:
    [None] when [obj.title] is truthy and not a string. *)
Definition import_title (obj : json) (name : string) : option string :=
  match JSON.prop "title" obj with
  | Some (JStr t) =>
      Some (if Str.is_empty t then Str.strip_suffix ".json" name else t)
  | Some v =>
      if JSON.truthy v then None else Some (Str.strip_suffix ".json" name)
  | None => Some (Str.strip_suffix ".json" name)
  end.

(** What [importChat] does with a file: an alert; or a new chat; or, for a
    document that passes the test but whose title or messages are not of
    the declared types, a chat that has no value in this state. *)
Inductive Import : Type :=
| Alerted (s' : State)
| Imported (s' : State)
| ImportedUntyped.

Definition importChat (f : File.t) (id : string) (s : State) : Import :=
  match JSON.parse (File.text f) with
  | None => Alerted (add_alert "Failed to parse JSON" s)
  | Some obj =>
      match import_messages obj with
      | None => Alerted (add_alert "Invalid chat JSON" s)
      | Some items =>
          match import_title obj (File.name f),
                View.all_some View.Message_of_json items with
          | Some title, Some msgs =>
              let c := Chat.mk id title msgs in
              Imported (set_activeChatId (Some (Chat.id c))
                          (set_chats (fun prev => c :: prev) s))
          | _, _ => ImportedUntyped
          end
      end
  end.

(** The conversations as the objects the list holds, with the selection
    and the alerts.  A conversation of the declared type is the object
    of its members; [importChat] puts what it parsed into the list as it
    is, whatever the members of the document are. *)
Module Store.
Record t : Type := mk {
  chats : list json;
  activeChatId : option string;
  alerts : list string
}.
End Store.

Definition store (s : State) : Store.t :=
  Store.mk (List.map View.Chat_to_json (chats s)) (activeChatId s)
    (alerts s).

(** [obj.title || file.name.replace(/\.json$/, "")]. *)
Definition import_title_value (obj : json) (name : string) : json :=
  match JSON.prop "title" obj with
  | Some v =>
      if JSON.truthy v then v else JStr (Str.strip_suffix ".json" name)
  | None => JStr (Str.strip_suffix ".json" name)
  end.

(** The object [c] that [importChat] makes: [{ id, title, messages }]. *)
Definition import_chat (id : string) (title : json) (items : list json)
  : json :=
  JObj [("id", JStr id); ("title", title); ("messages", JArr items)].

Definition store_alert (msg : string) (st : Store.t) : Store.t :=
  Store.mk (Store.chats st) (Store.activeChatId st)
    (Store.alerts st ++ [msg])%list.

(** [importChat] on the list as it is held. *)
Definition importChat_store (f : File.t) (id : string) (st : Store.t)
  : Store.t :=
  match JSON.parse (File.text f) with
  | None => store_alert "Failed to parse JSON" st
  | Some obj =>
      match import_messages obj with
      | None => store_alert "Invalid chat JSON" st
      | Some items =>
          let c :=
            import_chat id (import_title_value obj (File.name f)) items in
          Store.mk (c :: Store.chats st) (Some id) (Store.alerts st)
      end
  end.

(** *** Slash commands *)

(** The own properties of the object [map]. *)
Definition slash_map : list (string * string) :=
  [ ("/clear", EmptyString);
    ("/system", "(opens system prompt editor)");
    ("/summarize", "Summarize the conversation so far in bullet points.");
    ("/tests", "Write unit tests for the code above.") ].

(** The names [map] inherits from [Object.prototype]; each of them holds a
    function or an object. *)
Definition Object_prototype : list string :=
  [ "constructor"; "__defineGetter__"; "__defineSetter__";
    "hasOwnProperty"; "__lookupGetter__"; "__lookupSetter__";
    "isPrototypeOf"; "propertyIsEnumerable"; "toString"; "valueOf";
    "__proto__"; "toLocaleString" ].

(** [map[cmd]]. *)
Inductive Lookup : Type :=
| Own (v : string)
| Inherited
| Absent.

Fixpoint own (cmd : string) (l : list (string * string)) : option string :=
  match l with
  | [] => None
  | (k, v) :: r => if String.eqb cmd k then Some v else own cmd r
  end.

Definition lookup (cmd : string) : Lookup :=
  match own cmd slash_map with
  | Some v => Own v
  | None =>
      if List.existsb (String.eqb cmd) Object_prototype then Inherited
      else Absent
  end.

(** What [handleSlash] does: it returns [handled] and leaves the state
    [s'], having scrolled the element [scrolled] into view when there is
    one; or it hands an inherited member of [map] to [setInputMessage],
    and the state then has no value of its type. *)
Inductive Slash : Type :=
| Slashed (handled : bool) (s' : State) (scrolled : option string)
| SlashUntyped.

Definition handleSlash (cmd : string) (s : State) : Slash :=
  if String.eqb cmd "/clear" then
    Slashed true
      (set_chats
         (List.map (fun c =>
            if same_id (Chat.id c) (activeChatId s)
            then with_messages c [] else c)) s)
      None
  else if String.eqb cmd "/system" then
    Slashed true s (Some "systemPromptBox")
  else
    match lookup cmd with
    | Own v =>
        if Str.is_empty v then Slashed false s None
        else Slashed true (set_inputMessage v s) None
    | Inherited => SlashUntyped
    | Absent => Slashed false s None
    end.

(** The [onChange] of the composer, for the text [v] it then holds. *)
Definition onInputChange (v : string) (s : State) : Slash :=
  let s1 := set_inputMessage v s in
  if String.prefix "/" v then handleSlash (Str.trim v) s1
  else Slashed false s1 None.

End ProChat.

(** ** The simple screen (HuggingFaceChatApp.tsx) *)

Module HuggingFaceChatApp.

(** A message of this screen; [content] is the value the code stores, a
    string for what the user types and whatever the response carries for
    an answer. *)
Module Message.
Record t : Type := mk {
  id : string;
  role : Role;
  content : json;
  timestamp : Z
}.
End Message.

Module ModelConfig.
Record t : Type := mk {
  apiKey : string;
  selectedModel : string;
  baseUrl : string
}.
End ModelConfig.

(** The body of a request: [{ model, messages }]. *)
Module Request.
Record t : Type := mk {
  url : string;
  authorization : string;
  model : string;
  messages : list (Role * json)
}.
End Request.

(** What [fetch] gives: [data] is what [response.json()] resolves to,
    [None] when it rejects. *)
Module Response.
Record t : Type := mk {
  ok : bool;
  status : nat;
  statusText : string;
  data : option json
}.
End Response.

Inductive FetchResult : Type :=
| Rejected (e : Err.t)
| Responded (res : Response.t).

Record State : Type := mkState {
  messages : list Message.t;
  inputMessage : string;
  isLoading : bool;
  modelConfig : ModelConfig.t;
  assistantStyle : AssistantStyle;
  requests : list Request.t;
  settled : list nat;
  console : list string
}.

Definition set_messages (f : list Message.t -> list Message.t) (s : State)
  : State :=
  mkState (f (messages s)) (inputMessage s) (isLoading s) (modelConfig s)
    (assistantStyle s) (requests s) (settled s) (console s).

Definition set_inputMessage (v : string) (s : State) : State :=
  mkState (messages s) v (isLoading s) (modelConfig s)
    (assistantStyle s) (requests s) (settled s) (console s).

Definition set_isLoading (v : bool) (s : State) : State :=
  mkState (messages s) (inputMessage s) v (modelConfig s)
    (assistantStyle s) (requests s) (settled s) (console s).

Definition add_request (r : Request.t) (s : State) : State :=
  mkState (messages s) (inputMessage s) (isLoading s) (modelConfig s)
    (assistantStyle s) (requests s ++ [r])%list (settled s) (console s).

Definition add_settled (n : nat) (s : State) : State :=
  mkState (messages s) (inputMessage s) (isLoading s) (modelConfig s)
    (assistantStyle s) (requests s) (settled s ++ [n])%list (console s).

Definition add_console (line : string) (s : State) : State :=
  mkState (messages s) (inputMessage s) (isLoading s) (modelConfig s)
    (assistantStyle s) (requests s) (settled s) (console s ++ [line])%list.

(** The positions of the calls of [fetch] that have not settled. *)
Definition in_flight (s : State) : list nat :=
  List.filter (fun i => negb (List.existsb (Nat.eqb i) (settled s)))
    (List.seq 0 (List.length (requests s))).

Definition buildPayloadMessages (s : State) (userMessage : Message.t)
  : list (Role * json) :=
  let history :=
    List.map (fun m => (Message.role m, Message.content m))
      (messages s ++ [userMessage])%list in
  (system, JStr (STYLE_PROMPTS (assistantStyle s))) :: history.

(** [sendMessage] up to its [await fetch]: [now] is [Date.now()].  The
    result is the position of the call it makes. *)
Definition sendMessage_begin (now : Z) : M State (option (State * nat)) :=
  r <- get ;;
  if Str.is_empty (Str.trim (inputMessage r)) || isLoading r then ret None
  else
    let userMessage :=
      Message.mk (JSON.decimal now) user
        (JStr (Str.trim (inputMessage r))) now in
    modify (set_messages (fun prev => prev ++ [userMessage])%list) ;;
    modify (set_inputMessage EmptyString) ;;
    modify (set_isLoading true) ;;
    s <- get ;;
    let n := List.length (requests s) in
    modify (add_request
              (Request.mk
                 (Str.strip_trailing_slash
                    (ModelConfig.baseUrl (modelConfig r))
                  ++ "/chat/completions")
                 ("Bearer " ++ ModelConfig.apiKey (modelConfig r))
                 (ModelConfig.selectedModel (modelConfig r))
                 (buildPayloadMessages r userMessage))) ;;
    ret (Some (r, n)).

Definition TypeError_null (what : string) : Err.t :=
  Err.mk "TypeError"
    ("Cannot read properties of null (reading '" ++ what ++ "')").

(** [errorData.error?.message || response.statusText] in the template. *)
Definition error_detail (res : Response.t) : M State string :=
  let errorData :=
    match Response.data res with
    | Some d => d
    | None => JObj []
    end in
  match errorData with
  | JNull => throw (TypeError_null "error")
  | _ =>
      match ProChat.chain (JSON.prop "message")
              (JSON.prop "error" errorData) with
      | Some v =>
          if JSON.truthy v then
            match JSON.to_string v with
            | Some text => ret text
            | None => throw ProChat.ConversionError
            end
          else ret (Response.statusText res)
      | None => ret (Response.statusText res)
      end
  end.

Definition error_notice (msg : string) : string :=
  "## Uh‑oh!" ++ LF ++ LF ++ "I hit an error: **" ++ msg ++ "**." ++ LF ++ LF
  ++ "**Try**" ++ LF ++ "- Re-check your API key" ++ LF
  ++ "- Confirm the model ID" ++ LF ++ "- Ensure your base URL is correct".

(** [sendMessage] after its [await fetch]: [now] is [Date.now()] at the
    message it appends. *)
Definition sendMessage_resume (n : nat) (res : FetchResult) (now : Z)
  : M State unit :=
  try_finally
    (try_catch
       (match res with
        | Rejected e => throw e
        | Responded res =>
            if negb (Response.ok res) then
              detail <- error_detail res ;;
              throw (Err.Error
                       ("API Error "
                        ++ NilZero.string_of_uint
                             (Nat.to_uint (Response.status res))
                        ++ ": " ++ detail))
            else
              match Response.data res with
              | None => throw (Err.mk "SyntaxError" "Unexpected token")
              | Some data =>
                  match ProChat.chain (JSON.prop "content")
                          (ProChat.chain (JSON.prop "message")
                             (ProChat.chain JSON.index0
                                (ProChat.chain (JSON.prop "choices")
                                   (Some data)))) with
                  | Some content =>
                      if JSON.truthy content then
                        modify (set_messages (fun prev =>
                          prev ++ [Message.mk (JSON.decimal (now + 1))
                                     assistant content now])%list)
                      else
                        throw (Err.Error
                          "Invalid response format from OpenRouter API")
                  | None =>
                      throw (Err.Error
                        "Invalid response format from OpenRouter API")
                  end
              end
        end)
       (fun error =>
          modify (add_console
                    ("Error sending message: " ++ Err.to_string error)) ;;
          modify (set_messages (fun prev =>
            prev ++ [Message.mk (JSON.decimal (now + 1)) assistant
                       (JStr (error_notice (Err.message error))) now])%list)))
    (modify (set_isLoading false) ;; modify (add_settled n)).

(** The events of the screen that matter to sending: the user types, the
    user sends, the oldest call in flight is answered. *)
Inductive Event : Type :=
| Type_ (v : string)
| Send (now : Z)
| Answer (res : FetchResult) (now : Z).

Definition step (s : State) (e : Event) : State :=
  match e with
  | Type_ v => set_inputMessage v s
  | Send now => exec (sendMessage_begin now) s
  | Answer res now =>
      match in_flight s with
      | n :: _ => exec (sendMessage_resume n res now) s
      | [] => s
      end
  end.

Definition run (s : State) (es : list Event) : State :=
  List.fold_left step es s.

(** The screen when the chat view opens. *)
Definition initial (cfg : ModelConfig.t) (style : AssistantStyle)
    (msgs : list Message.t) : State :=
  mkState msgs EmptyString false cfg style [] [] [].

(** *** The setup view *)

Definition AVAILABLE_MODELS : list (string * string) :=
  [ ("qwen/qwen-2.5-coder-32b-instruct:free", "Qwen2.5 Coder 32B Instruct");
    ("qwen/qwen-2-7b-instruct:free", "Qwen2 7B Instruct");
    ("meta-llama/llama-3.2-3b-instruct:free", "Llama 3.2 3B Instruct");
    ("meta-llama/llama-3.2-1b-instruct:free", "Llama 3.2 1B Instruct");
    ("huggingface/zephyr-7b-beta:free", "Zephyr 7B Beta");
    ("google/gemma-2-9b-it:free", "Gemma 2 9B IT");
    ("microsoft/phi-3-mini-128k-instruct:free", "Phi-3 Mini 128K Instruct");
    ("nousresearch/nous-capybara-7b:free", "Nous Capybara 7B");
    ("openai/gpt-oss-20b:free", "Sample code and API for gpt-oss-20b") ].

Inductive CurrentView : Type := setup | chat.

Module ConnectionStatus.
Inductive t : Type := idle | success | error.
End ConnectionStatus.

(** The callback [handleConnect] hands to [setTimeout], by what it closed
    over: the name of the model and the persona. *)
Module Timer.
Record t : Type := mk { modelName : string; style : AssistantStyle }.
End Timer.

(** The whole screen: the state of the chat view, the state of the setup
    view, the alerts and the timers that wait. *)
Module Screen.
Record t : Type := mk {
  state : State;
  currentView : CurrentView;
  isCustomModel : bool;
  customModelId : string;
  isConnecting : bool;
  connectionStatus : ConnectionStatus.t;
  alerts : list string;
  timers : list Timer.t
}.
End Screen.

Definition set_state (f : State -> State) (sc : Screen.t) : Screen.t :=
  Screen.mk (f (Screen.state sc)) (Screen.currentView sc)
    (Screen.isCustomModel sc) (Screen.customModelId sc)
    (Screen.isConnecting sc) (Screen.connectionStatus sc)
    (Screen.alerts sc) (Screen.timers sc).

Definition set_currentView (v : CurrentView) (sc : Screen.t) : Screen.t :=
  Screen.mk (Screen.state sc) v
    (Screen.isCustomModel sc) (Screen.customModelId sc)
    (Screen.isConnecting sc) (Screen.connectionStatus sc)
    (Screen.alerts sc) (Screen.timers sc).

Definition set_isConnecting (v : bool) (sc : Screen.t) : Screen.t :=
  Screen.mk (Screen.state sc) (Screen.currentView sc)
    (Screen.isCustomModel sc) (Screen.customModelId sc)
    v (Screen.connectionStatus sc)
    (Screen.alerts sc) (Screen.timers sc).

Definition set_connectionStatus (v : ConnectionStatus.t) (sc : Screen.t)
  : Screen.t :=
  Screen.mk (Screen.state sc) (Screen.currentView sc)
    (Screen.isCustomModel sc) (Screen.customModelId sc)
    (Screen.isConnecting sc) v
    (Screen.alerts sc) (Screen.timers sc).

Definition add_alert (msg : string) (sc : Screen.t) : Screen.t :=
  Screen.mk (Screen.state sc) (Screen.currentView sc)
    (Screen.isCustomModel sc) (Screen.customModelId sc)
    (Screen.isConnecting sc) (Screen.connectionStatus sc)
    (Screen.alerts sc ++ [msg])%list (Screen.timers sc).

Definition set_timers (f : list Timer.t -> list Timer.t) (sc : Screen.t)
  : Screen.t :=
  Screen.mk (Screen.state sc) (Screen.currentView sc)
    (Screen.isCustomModel sc) (Screen.customModelId sc)
    (Screen.isConnecting sc) (Screen.connectionStatus sc)
    (Screen.alerts sc) (f (Screen.timers sc)).

(** [{ ...prev, selectedModel: model }]. *)
Definition set_selectedModel (model : string) (s : State) : State :=
  mkState (messages s) (inputMessage s) (isLoading s)
    (ModelConfig.mk (ModelConfig.apiKey (modelConfig s)) model
       (ModelConfig.baseUrl (modelConfig s)))
    (assistantStyle s) (requests s) (settled s) (console s).

(** A handler of the chat state, run on the screen. *)
Definition lift {A : Type} (m : M State A) : M Screen.t A :=
  fun sc =>
    match m (Screen.state sc) with
    | (r, s') => (r, set_state (fun _ => s') sc)
    end.

(** [testConnection(config)] up to its [await fetch]; the result is the
    position of the call. *)
Definition testConnection_fetch (config : ModelConfig.t) : M State nat :=
  s <- get ;;
  let n := List.length (requests s) in
  modify (add_request
            (Request.mk
               (Str.strip_trailing_slash (ModelConfig.baseUrl config)
                ++ "/chat/completions")
               ("Bearer " ++ ModelConfig.apiKey config)
               (ModelConfig.selectedModel config)
               [ (system, JStr (STYLE_PROMPTS (assistantStyle s)));
                 (user,
                  JStr "Reply with exactly: Connection successful") ])) ;;
  ret n.

(** [data?.choices?.[0]?.message?.content?.trim?.()]: the trimmed text
    when the content is a string, [None] for [undefined]. *)
Definition reply_text (data : json) : option string :=
  match ProChat.chain (JSON.prop "content")
          (ProChat.chain (JSON.prop "message")
             (ProChat.chain JSON.index0
                (ProChat.chain (JSON.prop "choices") (Some data)))) with
  | Some (JStr c) => Some (Str.trim c)
  | _ => None
  end.

(** [testConnection] after its [await fetch]; the result is the truth
    value of what it returns. *)
Definition testConnection_resume (n : nat) (res : FetchResult)
  : M State bool :=
  try_finally
    (try_catch
       (match res with
        | Rejected e => throw e
        | Responded res =>
            if negb (Response.ok res) then
              detail <- error_detail res ;;
              throw (Err.Error
                       ("HTTP "
                        ++ NilZero.string_of_uint
                             (Nat.to_uint (Response.status res))
                        ++ ": " ++ detail))
            else
              match Response.data res with
              | None => throw (Err.mk "SyntaxError" "Unexpected token")
              | Some data =>
                  match reply_text data with
                  | Some text =>
                      ret (negb (Str.is_empty text)
                           && Str.includes_ci "Connection successful" text)
                  | None => ret false
                  end
              end
        end)
       (fun error =>
          modify (add_console
                    ("Connection test failed: " ++ Err.to_string error)) ;;
          ret false))
    (modify (add_settled n)).

(** The model [handleConnect] connects to. *)
Definition modelToUse (sc : Screen.t) : string :=
  if Screen.isCustomModel sc then Screen.customModelId sc
  else ModelConfig.selectedModel (modelConfig (Screen.state sc)).

(** The name the greeting gives the model. *)
Definition modelName (sc : Screen.t) : string :=
  if Screen.isCustomModel sc then Screen.customModelId sc
  else
    match List.find (fun m => String.eqb (fst m) (modelToUse sc))
            AVAILABLE_MODELS with
    | Some m => if Str.is_empty (snd m) then modelToUse sc else snd m
    | None => modelToUse sc
    end.

(** [handleConnect] up to the [await] of the connection test; the result
    is the render it belongs to and the position of the call made. *)
Definition handleConnect_begin : M Screen.t (option (Screen.t * nat)) :=
  r <- get ;;
  if Str.is_empty (ModelConfig.apiKey (modelConfig (Screen.state r)))
     || Str.is_empty (modelToUse r)
  then
    modify (add_alert "Please fill in all required fields") ;; ret None
  else
    modify (set_isConnecting true) ;;
    modify (set_connectionStatus ConnectionStatus.idle) ;;
    let configToTest :=
      ModelConfig.mk (ModelConfig.apiKey (modelConfig (Screen.state r)))
        (modelToUse r) (ModelConfig.baseUrl (modelConfig (Screen.state r)))
    in
    n <- lift (testConnection_fetch configToTest) ;;
    ret (Some (r, n)).

(** [handleConnect] once the request of the test is answered. *)
Definition handleConnect_resume (r : Screen.t) (n : nat) (res : FetchResult)
  : M Screen.t unit :=
  isConnected <- lift (testConnection_resume n res) ;;
  (if isConnected then
     modify (set_state (set_selectedModel (modelToUse r))) ;;
     modify (set_connectionStatus ConnectionStatus.success) ;;
     modify (set_timers (fun l =>
               l ++ [Timer.mk (modelName r)
                       (assistantStyle (Screen.state r))])%list)
   else modify (set_connectionStatus ConnectionStatus.error)) ;;
  modify (set_isConnecting false).

(** [handleConnect()] together with the answer to its test. *)
Definition handleConnect (res : FetchResult) : M Screen.t unit :=
  p <- handleConnect_begin ;;
  match p with
  | Some (r, n) => handleConnect_resume r n res
  | None => ret tt
  end.

Definition style_name (style : AssistantStyle) : string :=
  match style with
  | Default => "Default"
  | Claude => "Claude"
  | ChatGPT => "ChatGPT"
  | Qwen => "Qwen"
  end.

Definition greeting (modelName : string) (style : AssistantStyle) : string :=
  "## Connected" ++ LF ++ LF
  ++ "You're good to go. I'm running on **" ++ modelName
  ++ "** with the **" ++ style_name style ++ "** persona." ++ LF ++ LF
  ++ "> Tip: Ask a question and I'll answer in clean, structured Markdown.".

(** The callback of the timer, 600 ms after a successful test; [now] is
    the time of [new Date()]. *)
Definition connected (t : Timer.t) (now : Z) : M Screen.t unit :=
  modify (set_currentView chat) ;;
  modify (set_state (set_messages (fun _ =>
            [Message.mk "1" assistant
               (JStr (greeting (Timer.modelName t) (Timer.style t)))
               now]))).

(** The oldest timer that waits fires. *)
Definition timer_fires (now : Z) : M Screen.t unit :=
  sc <- get ;;
  match Screen.timers sc with
  | [] => ret tt
  | t :: rest => modify (set_timers (fun _ => rest)) ;; connected t now
  end.

End HuggingFaceChatApp.

(** ** Reading the stream as a whole *)

(** The text one line of a chunk adds to the accumulator: the first-choice
    delta content of a [data:] frame, when there is one. *)
Definition line_delta (line : string) : string :=
  match ProChat.match_data line with
  | None => EmptyString
  | Some data =>
      if String.eqb data "[DONE]" then EmptyString
      else
        match JSON.parse data with
        | None => EmptyString
        | Some j =>
            match ProChat.delta_content j with
            | Some delta =>
                if JSON.truthy delta then
                  match JSON.to_string delta with
                  | Some text => text
                  | None => EmptyString
                  end
                else EmptyString
            | None => EmptyString
            end
        end
  end.

(** The accumulator [full] after the lines of a chunk. *)
Definition lines_text (full : string) (lines : list string) : string :=
  List.fold_left (fun acc line => Str.cat acc (line_delta line)) lines full.

(** The accumulator [full] after the chunks of a body. *)
Definition stream_from (full : string) (chunks : list string) : string :=
  List.fold_left (fun acc chunk => lines_text acc (Str.split_lines chunk))
    chunks full.

(** The text the chunks of a body add up to. *)
Definition stream_text (chunks : list string) : string :=
  stream_from EmptyString chunks.

(** The conversation a handler made by a render with [active] writes to. *)
Definition chat_of (active : option string) (s : State) : option Chat.t :=
  List.find (fun c => same_id (Chat.id c) active) (chats s).

(** ** The grammar side of the JSON text *)

(** The tokens of the text [JSON.stringify] writes for a value. *)
Fixpoint tokens (v : json) : list JSON.token :=
  match v with
  | JNull => [JSON.TNull]
  | JBool true => [JSON.TTrue]
  | JBool false => [JSON.TFalse]
  | JNum m e => [JSON.TNum m e]
  | JStr s => [JSON.TStr s]
  | JArr [] => [JSON.TLBracket; JSON.TRBracket]
  | JArr (x :: rest) =>
      (JSON.TLBracket :: tokens x
       ++ List.flat_map (fun y => JSON.TComma :: tokens y) rest
       ++ [JSON.TRBracket])%list
  | JObj [] => [JSON.TLBrace; JSON.TRBrace]
  | JObj (kv :: rest) =>
      (JSON.TLBrace :: JSON.TStr (fst kv) :: JSON.TColon :: tokens (snd kv)
       ++ List.flat_map
            (fun kv' =>
               JSON.TComma :: JSON.TStr (fst kv') :: JSON.TColon
               :: tokens (snd kv')) rest
       ++ [JSON.TRBrace])%list
  end.

(** The values all of whose numbers are integers. *)
Fixpoint integral (v : json) : bool :=
  match v with
  | JNum _ e => (e =? 0)%Z
  | JArr items => List.forallb integral items
  | JObj fields => List.forallb (fun kv => integral (snd kv)) fields
  | _ => true
  end.

(** A text before which a number literal ends: it is empty or starts with a
    character that continues no number. *)
Definition stops (r : string) : bool :=
  match r with
  | EmptyString => true
  | String c _ =>
      negb (Str.is_digit c || Ascii.eqb c "." || JSON.is_e c)
  end.

(** ** Vocabulary of the properties, and the values of the examples *)

(** A configuration with which a send goes through. *)
Definition sole_config : ModelConfig.t :=
  ModelConfig.mk "sk-or-v1-0" "openai/gpt-4o-mini"
    "https://openrouter.ai/api/v1" (6, -1)%Z (Some 1024%Z).

(** The screen as it opens: one empty conversation, active. *)
Definition sole_state : State :=
  mkState [Chat.mk "c1" "New Chat" []] (Some "c1") Claude EmptyString
    sole_config false None EmptyString [] [] [] [] [] [].

(** A conversation of four messages, the third with a text file. *)
Definition edit_chat : Chat.t :=
  Chat.mk "c1" "hi"
    [ Message.mk "u1" user "hi" 1%Z (Some []);
      Message.mk "a1" assistant "hello" 2%Z None;
      Message.mk "u2" user "more" 3%Z
        (Some [Attachment.mk "f1" "notes.txt" file "text/plain" None
                 (Some "abc") (Some 3%Z)]);
      Message.mk "a2" assistant "sure" 4%Z None ].

(** The screen showing [edit_chat]. *)
Definition edit_state : State :=
  mkState [edit_chat] (Some "c1") Claude EmptyString sole_config false None
    EmptyString [] [] [] [] [] [].

(** The conversation [user hi, assistant hello] of the specification. *)
Definition regenerate_state : State :=
  mkState
    [Chat.mk "c1" "hi"
       [ Message.mk "u1" user "hi" 1%Z (Some []);
         Message.mk "a1" assistant "hello" 2%Z None ]]
    (Some "c1") Claude EmptyString sole_config false None EmptyString []
    [] [] [] [] [].

(** A conversation in which a stream is live: the one the handler writes to
    exists and ends with the assistant message [p] after [base]. *)
Definition live (active : option string) (base : list Message.t)
    (p : Message.t) (s : State) : Prop :=
  exists c, chat_of active s = Some c
            /\ Chat.messages c = (base ++ [p])%list.

(** The message [p] with the content [c]. *)
Definition set_content (c : string) (p : Message.t) : Message.t :=
  Message.mk (Message.id p) (Message.role p) c (Message.timestamp p)
    (Message.attachments p).

(** What the handlers of the stream leave alone. *)
Definition same_shell (s s' : State) : Prop :=
  activeChatId s' = activeChatId s
  /\ isStreaming s' = isStreaming s
  /\ abortRef s' = abortRef s
  /\ inputMessage s' = inputMessage s
  /\ attachments s' = attachments s
  /\ requests s' = requests s
  /\ settled s' = settled s
  /\ aborted s' = aborted s
  /\ alerts s' = alerts s.

(** The frame of the stream whose first choice has the delta content [d]
    (a text without quote or backslash). *)
Definition frame_text (d : string) : string :=
  "data: {" ++ DQ ++ "choices" ++ DQ ++ ":[{" ++ DQ ++ "delta" ++ DQ ++ ":{"
  ++ DQ ++ "content" ++ DQ ++ ":" ++ DQ ++ d ++ DQ ++ "}}]}".

(** The frame whose first choice has the delta content written [c]. *)
Definition frame_with (c : string) : string :=
  "data: {" ++ DQ ++ "choices" ++ DQ ++ ":[{" ++ DQ ++ "delta" ++ DQ ++ ":{"
  ++ DQ ++ "content" ++ DQ ++ ":" ++ c ++ "}}]}".

(** A response that brings two frames in one chunk, after which the user
    stops the stream. *)
Definition stopped_response : Response.t :=
  Response.mk true true 200 "OK" EmptyString
    [frame_text "Hel" ++ LF ++ LF ++ frame_text "lo" ++ LF]
    (EndStopped (Err.mk "AbortError" "The user aborted a request.")).

(** The screen after the user sent [hi], while the request is out. *)
Definition streaming_state : State :=
  snd (ProChat.handleSend_begin None "u1" 1%Z "e1" 3%Z
         (set_inputMessage "hi" sole_state)).

(** The text [handleSend] sends: the trimmed text of the composer, or of
    the argument. *)
Definition sent_content (custom : option ProChat.Custom.t) (s : State)
  : string :=
  Str.trim (match custom with
            | Some (ProChat.Custom.mk (Some c) _) => c
            | _ => inputMessage s
            end).

(** The user message [handleSend] makes. *)
Definition sent_message (custom : option ProChat.Custom.t) (uid : string)
    (t : Z) (s : State) : Message.t :=
  Message.mk uid user (sent_content custom s) t
    (Some (match custom with
           | Some (ProChat.Custom.mk _ (Some a)) => a
           | _ => attachments s
           end)).

(** A response that brings no text and ends: a comment line, frames whose
    contents are the empty string, [null] and a number whose double is
    zero, and the terminator. *)
Definition empty_response : Response.t :=
  Response.mk true true 200 "OK" EmptyString
    [": keep-alive" ++ LF
     ++ "data: {" ++ DQ ++ "choices" ++ DQ ++ ":[{" ++ DQ ++ "delta" ++ DQ
     ++ ":{" ++ DQ ++ "content" ++ DQ ++ ":" ++ DQ ++ DQ ++ "}}]}" ++ LF;
     "data: {" ++ DQ ++ "choices" ++ DQ ++ ":[{" ++ DQ ++ "delta" ++ DQ
     ++ ":{" ++ DQ ++ "content" ++ DQ ++ ":null}}]}" ++ LF
     ++ "data: {" ++ DQ ++ "choices" ++ DQ ++ ":[{" ++ DQ ++ "delta" ++ DQ
     ++ ":{" ++ DQ ++ "content" ++ DQ ++ ":1e-400}}]}" ++ LF
     ++ "data: [DONE]" ++ LF] EndDone.

(** The screen in the middle of a stream: the placeholder holds [Hel]. *)
Definition live_state : State :=
  mkState
    [Chat.mk "c1" "New Chat"
       [ Message.mk "u1" user "hi" 1%Z (Some []);
         Message.mk "a1" assistant "Hel" 2%Z None ]]
    (Some "c1") Claude EmptyString sole_config true (Some 0) EmptyString []
    [] [] [] [] [].

(** A user message whose only attachment is a text file. *)
Definition notes_message : Message.t :=
  Message.mk "u1" user "see my notes" 1%Z
    (Some [Attachment.mk "f1" "notes.txt" file "text/plain" None
             (Some "abc") (Some 3%Z)]).

(** A number literal with other integer digits. *)
Definition with_ipart (n : JSON.numlit) (i : string) : JSON.numlit :=
  JSON.mkNum (JSON.neg n) i (JSON.fpart n) (JSON.eneg n) (JSON.epart n).

(** The state of the lexer before the digits of a number, after its sign
    when it has one. *)
Definition after_sign (sign : bool) : JSON.lstate :=
  if sign then JSON.LNum JSON.NMinus (JSON.start_number true EmptyString)
  else JSON.LDefault.

(** The parser goes on from the state it reached, when it reached one. *)
Definition continue_with (o : option JSON.pstate) (ts : list JSON.token)
  : option JSON.pstate :=
  match o with
  | Some st => JSON.prun st ts
  | None => None
  end.

(** The modes in which the parser expects a value. *)
Definition takes_value (m : JSON.mode) : Prop :=
  m = JSON.MValue \/ m = JSON.MArrStart.

(** The state [importChat] leaves when it makes the chat [c]. *)
Definition imported (c : Chat.t) (s : State) : State :=
  set_activeChatId (Some (Chat.id c)) (set_chats (fun prev => c :: prev) s).

(** The title a conversation comes back with: its own, or [chat], the name
    [exportChat] gives the file of a conversation without title. *)
Definition reimported_title (c : Chat.t) : string :=
  if Str.is_empty (Chat.title c) then "chat" else Chat.title c.

(** A conversation whose title is the empty string. *)
Definition untitled_chat : Chat.t :=
  Chat.mk "c1" EmptyString [Message.mk "u1" user "hi" 1%Z (Some [])].

(** The screen showing [untitled_chat]. *)
Definition untitled_state : State :=
  mkState [untitled_chat] (Some "c1") Claude EmptyString sole_config false
    None EmptyString [] [] [] [] [] [].

(** A document holds a message array when it is an object whose member
    [messages] is an array, of any length. *)
Definition has_message_array (obj : json) (items : list json) : Prop :=
  exists fields,
    obj = JObj fields /\ JSON.field "messages" fields = Some (JArr items).

(** The document of the specification: a title and no messages. *)
Definition titled_document : string :=
  "{" ++ DQ ++ "title" ++ DQ ++ ":" ++ DQ ++ "T" ++ DQ ++ "}".

(** A document with a title and an empty message array. *)
Definition empty_messages_document : string :=
  "{" ++ DQ ++ "title" ++ DQ ++ ":" ++ DQ ++ "T" ++ DQ ++ ","
  ++ DQ ++ "messages" ++ DQ ++ ":[]}".

(** A document whose only message has neither identifier nor time. *)
Definition bare_messages_document : string :=
  "{" ++ DQ ++ "messages" ++ DQ ++ ":[{" ++ DQ ++ "role" ++ DQ ++ ":" ++ DQ
  ++ "user" ++ DQ ++ "," ++ DQ ++ "content" ++ DQ ++ ":" ++ DQ ++ "hi" ++ DQ
  ++ "}]}".

(** A document whose message has a member the interface does not
    declare. *)
Definition starred_message : json :=
  JObj [("id", JStr "m1"); ("role", JStr "user"); ("content", JStr "hi");
        ("timestamp", JNum 1 0); ("starred", JBool true)].

Definition starred_document : string :=
  JSON.stringify 2
    (JObj [("title", JStr "T"); ("messages", JArr [starred_message])]).

(** The simple screen raises [isLoading] before it calls [fetch]: in every
    state the events lead to, a request in flight means the flag is set. *)
Definition simple_invariant (s : HuggingFaceChatApp.State) : Prop :=
  List.Forall (fun i => i < List.length (HuggingFaceChatApp.requests s))
    (HuggingFaceChatApp.settled s)
  /\ ((HuggingFaceChatApp.isLoading s = false
       /\ HuggingFaceChatApp.in_flight s = [])
      \/ (HuggingFaceChatApp.isLoading s = true
          /\ exists n, HuggingFaceChatApp.in_flight s = [n])).

(** ** Vocabulary of the further properties *)

(** The carriage return. *)
Definition CR : string := String "013" EmptyString.

(** A response whose frames end with a carriage return and a line feed, as
    the lines of an event stream may. *)
Definition crlf_response : Response.t :=
  Response.mk true true 200 "OK" EmptyString
    [frame_text "Hi" ++ CR ++ LF ++ CR ++ LF] EndDone.

(** A conversation in which a user message follows the last answer. *)
Definition pending_chat : Chat.t :=
  Chat.mk "c1" "hi"
    [ Message.mk "u1" user "hi" 1%Z (Some []);
      Message.mk "a1" assistant "hello" 2%Z None;
      Message.mk "u2" user "more" 3%Z (Some []) ].

(** The screen showing [pending_chat]. *)
Definition pending_state : State :=
  mkState [pending_chat] (Some "c1") Claude EmptyString sole_config false
    None EmptyString [] [] [] [] [] [].

(** A live stream into the conversation [c]: the handler writes to a
    conversation with the identifier and the title of [c], whose messages
    are [base] and then the assistant message [p]. *)
Definition streams_into (c : Chat.t) (active : option string)
    (base : list Message.t) (p : Message.t) (s : State) : Prop :=
  chat_of active s = Some (ProChat.with_messages c (base ++ [p])%list).

(** The strings of 7-bit characters, on which the bytes of a text are its
    UTF-16 code units. *)
Definition is_ascii (s : string) : bool :=
  List.forallb (fun c => (Str.code c <? 128)%N) (list_ascii_of_string s).

(** The call of [fetch] a send makes in the state [s] for the user message
    [m] after the history [history]. *)
Definition sent_request (s : State) (m : Message.t)
    (history : list Message.t) : Request.t :=
  Request.mk
    (Str.strip_trailing_slash (ModelConfig.baseUrl (modelConfig s))
     ++ "/chat/completions")
    ("Bearer " ++ ModelConfig.apiKey (modelConfig s))
    (ProChat.buildPayload s m history) (List.length (requests s)).

(** The assistant message by which [handleSend] reports the error [e]. *)
Definition send_notice (errId : string) (t2 : Z) (e : Err.t) : Message.t :=
  Message.mk errId assistant (ProChat.send_error_content e) t2 None.

(** The error [streamChat] throws for a response that is not [ok] or has no
    body. *)
Definition http_error (res : Response.t) : Err.t :=
  Err.Error
    ("HTTP " ++ NilZero.string_of_uint (Nat.to_uint (Response.status res))
     ++ ": "
     ++ (if Str.is_empty (Response.text res) then Response.statusText res
         else Response.text res)).

(** A send goes through its guards in the state [s]: no stream is shown,
    there is a text to send, and the key and the model are set. *)
Definition sendable (custom : option ProChat.Custom.t) (s : State) : Prop :=
  isStreaming s = false
  /\ Str.is_empty (sent_content custom s) = false
  /\ Str.is_empty (ModelConfig.apiKey (modelConfig s)) = false
  /\ Str.is_empty (ModelConfig.selectedModel (modelConfig s)) = false.

(** A response that is refused by the server. *)
Definition unauthorized_response : Response.t :=
  Response.mk false true 401 "Unauthorized" "No auth credentials found" []
    EndDone.

(** A response that brings the two frames [Hel] and [lo] and ends. *)
Definition hello_response : Response.t :=
  Response.mk true true 200 "OK" EmptyString
    [frame_text "Hel" ++ LF ++ LF ++ frame_text "lo" ++ LF ++ LF
     ++ "data: [DONE]" ++ LF] EndDone.

(** A response that brings the frame [Hel] and frames whose contents are
    the numbers 0 and 12, after which the read fails. *)
Definition broken_response : Response.t :=
  Response.mk true true 200 "OK" EmptyString
    [frame_text "Hel" ++ LF ++ frame_with "0" ++ LF ++ frame_with "12" ++ LF]
    (EndFailed (Err.mk "TypeError" "network error")).

(** A response that brings, in three chunks, the text [Hel], the numbers
    0 and 12, an object without text, the two halves of a surrogate pair
    and the terminator. *)
Definition mixed_response : Response.t :=
  Response.mk true true 200 "OK" EmptyString
    [ frame_text "Hel" ++ LF ++ LF ++ frame_with "0" ++ LF
      ++ frame_with "12" ++ LF;
      frame_with ("{" ++ DQ ++ "toString" ++ DQ ++ ":1}") ++ LF
      ++ frame_with (DQ ++ "\ud83d" ++ DQ) ++ LF;
      frame_with (DQ ++ "\ude00" ++ DQ) ++ LF ++ "data: [DONE]" ++ LF ]
    EndDone.

(** A response whose only frame has a number too small for a double. *)
Definition zero_response : Response.t :=
  Response.mk true true 200 "OK" EmptyString
    [frame_with "1e-400" ++ LF ++ "data: [DONE]" ++ LF] EndDone.

(** The message [m] with its image attachments only. *)
Definition only_images (m : Message.t) : Message.t :=
  Message.mk (Message.id m) (Message.role m) (Message.content m)
    (Message.timestamp m)
    (Some (List.filter ProChat.is_image (or_nil (Message.attachments m)))).

(** The kind of an attachment determines which of its data it carries: an
    image its data URL, a file its text preview. *)
Definition well_kinded (a : Attachment.t) : Prop :=
  match Attachment.type a with
  | image => Attachment.dataUrl a <> None /\ Attachment.textPreview a = None
  | file => Attachment.dataUrl a = None /\ Attachment.textPreview a <> None
  end.

(** A picture and a text file as the picker hands them over, and a picture
    whose read fails. *)
Definition picked_photo : ProChat.Picked.t :=
  ProChat.Picked.mk "cat.png" "image/png" 2048%Z
    (Ok "data:image/png;base64,AAAA") (Ok "PNG").

Definition picked_notes : ProChat.Picked.t :=
  ProChat.Picked.mk "notes.txt" "text/plain" 3%Z
    (Ok "data:text/plain;base64,YWJj") (Ok "abc").

Definition picked_unreadable : ProChat.Picked.t :=
  ProChat.Picked.mk "dog.png" "image/png" 4096%Z
    (Throw (Err.mk "NotReadableError" "The file could not be read"))
    (Ok "PNG").

(** A configuration of the simple screen, and the screen after the user
    typed [hi] and sent it. *)
Definition simple_config : HuggingFaceChatApp.ModelConfig.t :=
  HuggingFaceChatApp.ModelConfig.mk "sk-or-v1-0"
    "google/gemma-2-9b-it:free" "https://openrouter.ai/api/v1".

Definition simple_sent : HuggingFaceChatApp.State :=
  HuggingFaceChatApp.run
    (HuggingFaceChatApp.initial simple_config Claude [])
    [HuggingFaceChatApp.Type_ "hi"; HuggingFaceChatApp.Send 1%Z].

(** The body of a completion whose first choice has the message content
    [c]. *)
Definition completion (c : json) : json :=
  JObj [("choices", JArr [JObj [("message", JObj [("content", c)])]])].

(** The first-choice message content of a completion, as the optional chain
    of the source reads it. *)
Definition first_choice_content (data : json) : option json :=
  ProChat.chain (JSON.prop "content")
    (ProChat.chain (JSON.prop "message")
       (ProChat.chain JSON.index0
          (ProChat.chain (JSON.prop "choices") (Some data)))).

(** An answer to the connection test that carries the expected phrase, and
    the setup view filled in for it over an earlier conversation. *)
Definition connected_response : HuggingFaceChatApp.FetchResult :=
  HuggingFaceChatApp.Responded
    (HuggingFaceChatApp.Response.mk true 200 "OK"
       (Some (completion (JStr " connection SUCCESSFUL. ")))).

Definition setup_screen : HuggingFaceChatApp.Screen.t :=
  HuggingFaceChatApp.Screen.mk
    (HuggingFaceChatApp.initial simple_config Claude
       [HuggingFaceChatApp.Message.mk "17" user (JStr "earlier") 17%Z])
    HuggingFaceChatApp.setup false EmptyString false
    HuggingFaceChatApp.ConnectionStatus.idle [] [].

(** What a handler leaves of the conversations when it writes to none but
    the one its render showed, [active]: the identifiers of all of them, in
    their order, and every conversation with another identifier. *)
Definition others_kept (active : option string) (s s' : State) : Prop :=
  List.map Chat.id (chats s') = List.map Chat.id (chats s)
  /\ List.filter (fun c => negb (same_id (Chat.id c) active)) (chats s')
     = List.filter (fun c => negb (same_id (Chat.id c) active)) (chats s).

(** Two conversations, the first one active, with [hi] in the composer. *)
Definition two_chats_state : State :=
  mkState [Chat.mk "c1" "New Chat" []; Chat.mk "c2" "Notes" []] (Some "c1")
    Claude EmptyString sole_config false None "hi" [] [] [] [] [] [].

(** A text of more than 42 characters. *)
Definition long_question : string :=
  "Please explain how the streaming parser of this screen works".

(** A response of the simple screen that the server refuses with a message
    of its own. *)
Definition simple_refused : HuggingFaceChatApp.Response.t :=
  HuggingFaceChatApp.Response.mk false 401 "Unauthorized"
    (Some (JObj [("error", JObj [("message", JStr "No auth credentials")])])).

(** The object of a frame of the stream: its first choice has the delta
    content [c], and [others] are the choices after it. *)
Definition delta_frame (c : json) (others : list json) : json :=
  JObj [("choices",
         JArr (JObj [("delta", JObj [("content", c)])] :: others))].

(** The line of the stream that carries the object [v]. *)
Definition frame_line (v : json) : string := "data: " ++ JSON.stringify 0 v.

(** A text without line feed. *)
Definition one_line (l : string) : bool :=
  negb (List.existsb (fun c => Ascii.eqb c "010") (list_ascii_of_string l)).

(** A chunk of five lines: a comment, the terminator, a payload that is not
    JSON, a frame of two choices and the empty line after the last line
    feed. *)
Definition mixed_chunk : string :=
  ": keep-alive" ++ LF ++ "data: [DONE]" ++ LF ++ "data: {bad" ++ LF
  ++ frame_line (delta_frame (JStr "lo")
                   [JObj [("delta", JObj [("content", JStr "XX")])]])
  ++ LF.

(** * Properties *)

(** Running a handler: the operations of the monad unfold and the results
    of the steps that are known are matched. *)
Ltac run_handler :=
  cbv beta iota zeta
      delta [bind get modify ret throw try_catch try_finally exec fst snd].

Ltac refold_snd :=
  repeat match goal with
         | |- context [let (_, y) := ?m in y] =>
             change (let (_, y) := m in y) with (snd m)
         end.

(** ** The active conversation under the updates of the handlers *)

Lemma string_eqb_refl (x : string) : String.eqb x x = true.
Proof. apply String.eqb_refl. Qed.

(** Every update of [chats] by the handlers maps over the list and leaves
    the identifiers in place; the active conversation follows it. *)
Lemma find_map_same_id (f : Chat.t -> Chat.t) (a : option string)
    (l : list Chat.t) :
  (forall c, Chat.id (f c) = Chat.id c) ->
  List.find (fun c => same_id (Chat.id c) a) (List.map f l)
  = option_map f (List.find (fun c => same_id (Chat.id c) a) l).
Proof.
  intros Hid. induction l as [|c l IH]; simpl; [reflexivity|].
  rewrite Hid. destruct (same_id (Chat.id c) a); [reflexivity | exact IH].
Qed.

Lemma activeChat_set_chats_map (f : Chat.t -> Chat.t) (s : State) :
  (forall c, Chat.id (f c) = Chat.id c) ->
  ProChat.activeChat (set_chats (List.map f) s)
  = option_map f (ProChat.activeChat s).
Proof.
  intros Hid. unfold ProChat.activeChat. simpl.
  now apply find_map_same_id.
Qed.

Lemma activeChat_same_id (s : State) (c : Chat.t) :
  ProChat.activeChat s = Some c -> same_id (Chat.id c) (activeChatId s) = true.
Proof.
  unfold ProChat.activeChat. intros H.
  apply List.find_some in H. tauto.
Qed.

(** ** C10: deleting the only conversation *)

(** C10.  When the conversation list holds one conversation and it is the
    active one, [deleteChat] of it returns normally, leaves the list empty and
    leaves [activeChatId] at the deleted conversation: nothing replaces it,
    and the lookup of the active conversation then finds nothing. *)
Theorem deleteChat_sole_conversation (s : State) (c : Chat.t) :
  chats s = [c] ->
  activeChatId s = Some (Chat.id c) ->
  let out := ProChat.deleteChat (Chat.id c) s in
  fst out = Ok tt
  /\ chats (snd out) = []
  /\ activeChatId (snd out) = Some (Chat.id c)
  /\ ProChat.activeChat (snd out) = None.
Proof.
  intros Hc Ha out. subst out.
  unfold ProChat.deleteChat, ProChat.activeChat, bind, get, modify, ret.
  simpl. rewrite Ha, Hc. simpl. rewrite string_eqb_refl. simpl.
  rewrite Ha, Hc. simpl. rewrite string_eqb_refl. simpl. auto.
Qed.

Lemma deleteChat_sole_conversation_witness :
  let out := ProChat.deleteChat "c1" sole_state in
  fst out = Ok tt
  /\ chats (snd out) = []
  /\ activeChatId (snd out) = Some "c1"
  /\ ProChat.activeChat (snd out) = None.
Proof.
  exact (deleteChat_sole_conversation sole_state (Chat.mk "c1" "New Chat" [])
           eq_refl eq_refl).
Defined.

(** ** C7: editing a message *)

Section ByKey.
Context {A : Type} (key : A -> string).

Lemma find_by_key (l : list A) (k : nat) (m : A) :
  List.NoDup (List.map key l) ->
  List.nth_error l k = Some m ->
  List.find (fun x => String.eqb (key x) (key m)) l = Some m.
Proof.
  revert k. induction l as [|x l IH]; intros k Hnd Hk.
  - destruct k; discriminate.
  - simpl in Hnd. inversion Hnd as [|? ? Hx Hl]; subst.
    destruct k as [|k]; simpl in *.
    + injection Hk as ->. now rewrite String.eqb_refl.
    + destruct (String.eqb_spec (key x) (key m)) as [E|_].
      * exfalso. apply Hx. rewrite E. apply List.in_map.
        eapply List.nth_error_In; eassumption.
      * eapply IH; eassumption.
Qed.

Lemma findIndex_by_key (l : list A) (k : nat) (m : A) :
  List.NoDup (List.map key l) ->
  List.nth_error l k = Some m ->
  findIndex (fun x => String.eqb (key x) (key m)) l = Some k.
Proof.
  revert k. induction l as [|x l IH]; intros k Hnd Hk.
  - destruct k; discriminate.
  - simpl in Hnd. inversion Hnd as [|? ? Hx Hl]; subst.
    destruct k as [|k]; simpl in *.
    + injection Hk as ->. now rewrite String.eqb_refl.
    + destruct (String.eqb_spec (key x) (key m)) as [E|_].
      * exfalso. apply Hx. rewrite E. apply List.in_map.
        eapply List.nth_error_In; eassumption.
      * now rewrite (IH k Hl Hk).
Qed.
End ByKey.

(** C7.  In a conversation whose messages have distinct identifiers (the
    invariant of the data model), editing the message at index [k] leaves
    exactly the first [k] messages of the active conversation, and puts the
    text and the attachments of that message into the composer. *)
Theorem handleEditMessage_keeps_first_k
    (s : State) (a : Chat.t) (k : nat) (m : Message.t) :
  ProChat.activeChat s = Some a ->
  List.NoDup (List.map Message.id (Chat.messages a)) ->
  List.nth_error (Chat.messages a) k = Some m ->
  let out := ProChat.handleEditMessage (Message.id m) s in
  fst out = Ok tt
  /\ option_map Chat.messages (ProChat.activeChat (snd out))
     = Some (List.firstn k (Chat.messages a))
  /\ List.length (List.firstn k (Chat.messages a)) = k
  /\ inputMessage (snd out) = Message.content m
  /\ attachments (snd out) = or_nil (Message.attachments m).
Proof.
  intros Ha Hnd Hk out. subst out.
  unfold ProChat.handleEditMessage. run_handler.
  rewrite Ha. run_handler.
  rewrite (find_by_key Message.id _ k m Hnd Hk). run_handler.
  repeat split.
  - change (option_map Chat.messages
              (ProChat.activeChat
                 (set_chats
                    (List.map (fun c =>
                       if negb (same_id (Chat.id c) (activeChatId s)) then c
                       else
                         match findIndex
                                 (fun x => String.eqb (Message.id x)
                                             (Message.id m))
                                 (Chat.messages c) with
                         | None => c
                         | Some idx =>
                             ProChat.with_messages c
                               (List.firstn idx (Chat.messages c))
                         end))
                    (set_attachments (or_nil (Message.attachments m))
                       (set_inputMessage (Message.content m) s))))
            = Some (List.firstn k (Chat.messages a))).
    rewrite activeChat_set_chats_map.
    + change (ProChat.activeChat
                (set_attachments (or_nil (Message.attachments m))
                   (set_inputMessage (Message.content m) s)))
        with (ProChat.activeChat s).
      rewrite Ha. cbn [option_map].
      change (activeChatId _) with (activeChatId s).
      rewrite (activeChat_same_id s a Ha). cbn [negb].
      now rewrite (findIndex_by_key Message.id _ k m Hnd Hk).
    + intros c. destruct (negb _); [reflexivity|].
      now destruct (findIndex _ _).
  - apply List.firstn_length_le. apply Nat.lt_le_incl.
    apply List.nth_error_Some. congruence.
Qed.

Lemma handleEditMessage_keeps_first_k_witness :
  let out := ProChat.handleEditMessage "u2" edit_state in
  fst out = Ok tt
  /\ option_map Chat.messages (ProChat.activeChat (snd out))
     = Some [ Message.mk "u1" user "hi" 1%Z (Some []);
              Message.mk "a1" assistant "hello" 2%Z None ]
  /\ List.length [ Message.mk "u1" user "hi" 1%Z (Some []);
                   Message.mk "a1" assistant "hello" 2%Z None ] = 2
  /\ inputMessage (snd out) = "more"
  /\ attachments (snd out)
     = [Attachment.mk "f1" "notes.txt" file "text/plain" None
          (Some "abc") (Some 3%Z)].
Proof.
  refine (handleEditMessage_keeps_first_k edit_state edit_chat 2
            (Message.mk "u2" user "more" 3%Z _) eq_refl _ eq_refl).
  simpl. repeat constructor; simpl; intuition discriminate.
Defined.

(** ** C8: regenerate *)

Lemma Role_eqb_eq (a b : Role) : Role_eqb a b = true <-> a = b.
Proof. destruct a, b; simpl; split; congruence. Qed.

(** The loop of [handleRegenerate] stops at the greatest index below [k]
    that holds a user message. *)
Lemma last_user_sound (msgs : list Message.t) (k i : nat) (m : Message.t) :
  ProChat.last_user msgs k = Some (i, m) ->
  i < k
  /\ List.nth_error msgs i = Some m
  /\ Message.role m = user
  /\ forall j m', i < j < k -> List.nth_error msgs j = Some m' ->
                  Message.role m' <> user.
Proof.
  induction k as [|k IH]; simpl; [discriminate|].
  destruct (List.nth_error msgs k) as [x|] eqn:Hx.
  - destruct (Role_eqb (Message.role x) user) eqn:Hr.
    + intros [= <- <-]. apply Role_eqb_eq in Hr.
      repeat split; auto. intros j m' Hj. lia.
    + intros H. destruct (IH H) as (Hlt & Hn & Hu & Hmax).
      repeat split; auto. intros j m' Hj Hm'.
      destruct (Nat.eq_dec j k) as [->|Hne].
      * rewrite Hx in Hm'. injection Hm' as <-.
        intros E. apply Role_eqb_eq in E. congruence.
      * apply (Hmax j m'); [lia | exact Hm'].
  - intros H. destruct (IH H) as (Hlt & Hn & Hu & Hmax).
    repeat split; auto. intros j m' Hj Hm'.
    destruct (Nat.eq_dec j k) as [->|Hne].
    + congruence.
    + apply (Hmax j m'); [lia | exact Hm'].
Qed.

Lemma last_user_complete (msgs : list Message.t) (k j : nat) (m : Message.t) :
  j < k -> List.nth_error msgs j = Some m -> Message.role m = user ->
  exists i m', ProChat.last_user msgs k = Some (i, m').
Proof.
  induction k as [|k IH]; intros Hj Hm Hu; [lia|]. simpl.
  destruct (List.nth_error msgs k) as [x|] eqn:Hx.
  - destruct (Role_eqb (Message.role x) user) eqn:Hr; [eauto|].
    destruct (Nat.eq_dec j k) as [->|Hne].
    + rewrite Hx in Hm. injection Hm as ->.
      apply Role_eqb_eq in Hu. congruence.
    + apply IH; auto. lia.
  - destruct (Nat.eq_dec j k) as [->|Hne]; [congruence|].
    apply IH; auto. lia.
Qed.

Lemma firstn_succ_nth {A : Type} (l : list A) (i : nat) (x : A) :
  List.nth_error l i = Some x ->
  List.firstn (i + 1) l = (List.firstn i l ++ [x])%list.
Proof.
  revert i. induction l as [|y l IH]; intros [|i] H; try discriminate.
  - simpl in *. congruence.
  - simpl in *. f_equal. now apply IH.
Qed.

(** C8.  When the active conversation holds a user message, regenerate finds
    the last one, at index [i]: the conversation becomes its first [i]
    messages followed by that message, and the request that leaves is built
    from that message as the new user message and the first [i] messages as
    the history, after the system message. *)
Theorem handleRegenerate_from_last_user
    (s : State) (a : Chat.t) (j : nat) (u : Message.t) :
  ProChat.activeChat s = Some a ->
  List.nth_error (Chat.messages a) j = Some u ->
  Message.role u = user ->
  exists (i : nat) (lastUser : Message.t),
    let msgs := Chat.messages a in
    let out := ProChat.handleRegenerate_begin s in
    (* the most recent user message *)
    List.nth_error msgs i = Some lastUser
    /\ Message.role lastUser = user
    /\ (forall k m, i < k -> List.nth_error msgs k = Some m ->
                    Message.role m <> user)
    (* the conversation ends at it *)
    /\ option_map Chat.messages (ProChat.activeChat (snd out))
       = Some (List.firstn i msgs ++ [lastUser])%list
    (* one request leaves, built from it and the messages before it *)
    /\ (exists url auth,
          requests (snd out)
          = (requests s
             ++ [Request.mk url auth
                   (ProChat.buildPayload s lastUser (List.firstn i msgs))
                   (List.length (requests s))])%list)
    /\ Payload.messages (ProChat.buildPayload s lastUser (List.firstn i msgs))
       = (PayloadMessage.mk system (PlainContent (ProChat.systemPrompt s))
          :: List.map (fun m => PayloadMessage.mk (Message.role m)
                                  (ProChat.historyContent m))
               (List.firstn i msgs)
          ++ [PayloadMessage.mk user (ProChat.userContent lastUser)])%list.
Proof.
  intros Ha Hj Hu.
  assert (Hlen : j < List.length (Chat.messages a))
    by (apply List.nth_error_Some; congruence).
  destruct (last_user_complete _ _ j u Hlen Hj Hu) as (i & lastUser & Hl).
  destruct (last_user_sound _ _ _ _ Hl) as (Hi & Hn & Hr & Hmax).
  exists i, lastUser. cbv zeta.
  unfold ProChat.handleRegenerate_begin, ProChat.streamChat_fetch.
  run_handler. rewrite Ha. run_handler. rewrite Hl. run_handler.
  repeat split; auto.
  - intros k m Hk Hm. apply (Hmax k m); [|exact Hm].
    split; [exact Hk|]. apply List.nth_error_Some. congruence.
  - unfold ProChat.activeChat. cbn [chats activeChatId add_request
      set_abortRef set_chats].
    rewrite find_map_same_id.
    + fold (ProChat.activeChat s). rewrite Ha. cbn [option_map].
      rewrite (activeChat_same_id s a Ha). cbn [ProChat.with_messages
        Chat.messages]. now rewrite (firstn_succ_nth _ _ _ Hn).
    + intros c. now destruct (same_id _ _).
  - eexists _, _. reflexivity.
Qed.

Lemma handleRegenerate_from_last_user_witness :
  exists (i : nat) (lastUser : Message.t),
    let msgs := [ Message.mk "u1" user "hi" 1%Z (Some []);
                  Message.mk "a1" assistant "hello" 2%Z None ] in
    let out := ProChat.handleRegenerate_begin regenerate_state in
    List.nth_error msgs i = Some lastUser
    /\ Message.role lastUser = user
    /\ (forall k m, i < k -> List.nth_error msgs k = Some m ->
                    Message.role m <> user)
    /\ option_map Chat.messages (ProChat.activeChat (snd out))
       = Some (List.firstn i msgs ++ [lastUser])%list
    /\ (exists url auth,
          requests (snd out)
          = (requests regenerate_state
             ++ [Request.mk url auth
                   (ProChat.buildPayload regenerate_state lastUser
                      (List.firstn i msgs))
                   (List.length (requests regenerate_state))])%list)
    /\ Payload.messages
         (ProChat.buildPayload regenerate_state lastUser (List.firstn i msgs))
       = (PayloadMessage.mk system
            (PlainContent (ProChat.systemPrompt regenerate_state))
          :: List.map (fun m => PayloadMessage.mk (Message.role m)
                                  (ProChat.historyContent m))
               (List.firstn i msgs)
          ++ [PayloadMessage.mk user (ProChat.userContent lastUser)])%list.
Proof.
  exact (handleRegenerate_from_last_user regenerate_state
           (Chat.mk "c1" "hi"
              [ Message.mk "u1" user "hi" 1%Z (Some []);
                Message.mk "a1" assistant "hello" 2%Z None ])
           0 (Message.mk "u1" user "hi" 1%Z (Some []))
           eq_refl eq_refl eq_refl).
Defined.

(** The example of the specification: [user "hi", assistant "hello"]
    becomes [user "hi"], and the request carries the system message and
    "hi", with no history between them. *)
Example handleRegenerate_hi_hello :
  let out := ProChat.handleRegenerate_begin regenerate_state in
  option_map Chat.messages (ProChat.activeChat (snd out))
  = Some [Message.mk "u1" user "hi" 1%Z (Some [])]
  /\ List.map (fun r => Payload.messages (Request.body r)) (requests (snd out))
     = [[ PayloadMessage.mk system
            (PlainContent (STYLE_PROMPTS Claude));
          PayloadMessage.mk user (PlainContent "hi") ]].
Proof. split; reflexivity. Qed.

(** ** The streaming transport *)

Lemma append_nil_r (s : string) : s ++ EmptyString = s.
Proof. induction s; simpl; congruence. Qed.

Lemma append_assoc (a b c : string) : (a ++ b) ++ c = a ++ (b ++ c).
Proof. induction a; simpl; congruence. Qed.

Lemma concat_nil_cons (x : string) (l : list string) :
  String.concat EmptyString (x :: l) = x ++ String.concat EmptyString l.
Proof.
  destruct l as [|y l]; simpl; [now rewrite append_nil_r | reflexivity].
Qed.

(** Nothing joins the empty string. *)
Lemma cat_nil_r (s : string) : Str.cat s EmptyString = s.
Proof. apply append_nil_r. Qed.

Lemma cat_nil_l (s : string) : Str.cat EmptyString s = s.
Proof. unfold Str.cat. now destruct (Str.starts_low s) as [[lo r]|]. Qed.

Lemma append_content_nil (m : Message.t) :
  ProChat.append_content EmptyString m = m.
Proof.
  destruct m. unfold ProChat.append_content. simpl. now rewrite cat_nil_r.
Qed.

Lemma set_content_same (m : Message.t) :
  set_content (Message.content m) m = m.
Proof. now destruct m. Qed.

Lemma activeChat_chat_of (s : State) :
  ProChat.activeChat s = chat_of (activeChatId s) s.
Proof. reflexivity. Qed.

(** The loop of [updateLastAssistant] on a list that ends with an assistant
    message updates that message. *)
Lemma update_last_assistant_live (f : Message.t -> Message.t)
    (base : list Message.t) (p : Message.t) :
  Message.role p = assistant ->
  ProChat.update_last_assistant f (base ++ [p])%list
    (List.length (base ++ [p])%list)
  = (base ++ [f p])%list.
Proof.
  intros Hp.
  assert (Hn : List.nth_error (base ++ [p])%list (List.length base) = Some p).
  { rewrite List.nth_error_app2, Nat.sub_diag by lia. reflexivity. }
  assert (Hf : List.firstn (List.length base) (base ++ [p])%list = base).
  { rewrite List.firstn_app, Nat.sub_diag, List.firstn_all. simpl.
    apply List.app_nil_r. }
  assert (Hs : List.skipn (S (List.length base)) (base ++ [p])%list = []).
  { apply List.skipn_all2. rewrite List.length_app. simpl. lia. }
  rewrite List.length_app. simpl List.length. rewrite Nat.add_1_r.
  cbn [ProChat.update_last_assistant]. rewrite Hn, Hp. cbn [Role_eqb].
  now rewrite Hf, Hs.
Qed.

Lemma chat_of_same_id (active : option string) (s : State) (c : Chat.t) :
  chat_of active s = Some c -> same_id (Chat.id c) active = true.
Proof.
  unfold chat_of. intros H. apply List.find_some in H. tauto.
Qed.

Lemma chat_of_set_chats_map (f : Chat.t -> Chat.t) (active : option string)
    (s : State) :
  (forall c, Chat.id (f c) = Chat.id c) ->
  chat_of active (set_chats (List.map f) s)
  = option_map f (chat_of active s).
Proof.
  intros Hid. unfold chat_of. simpl. now apply find_map_same_id.
Qed.

Lemma live_updateLastAssistant (active : option string)
    (base : list Message.t) (p : Message.t) (d : string) (s : State) :
  Message.role p = assistant ->
  live active base p s ->
  live active base (ProChat.append_content d p)
    (exec (ProChat.updateLastAssistant active (ProChat.append_content d)) s).
Proof.
  intros Hp (c & Hc & Hm).
  unfold ProChat.updateLastAssistant. run_handler.
  unfold live. rewrite chat_of_set_chats_map.
  - rewrite Hc. cbn [option_map]. eexists. split; [reflexivity|].
    rewrite (chat_of_same_id _ _ _ Hc). cbn [negb ProChat.with_messages
      Chat.messages]. rewrite Hm. now apply update_last_assistant_live.
  - intros c'. now destruct (negb _).
Qed.

Lemma live_add_console (active : option string) (base : list Message.t)
    (p : Message.t) (line : string) (s : State) :
  live active base p s -> live active base p (add_console line s).
Proof. exact (fun H => H). Qed.

(** One line: the handler never throws, the accumulator grows by the delta
    of the line, and so does the live assistant message. *)
Lemma process_line_result (active : option string) (full line : string)
    (s : State) :
  fst (ProChat.process_line active full line s)
  = Ok (Str.cat full (line_delta line)).
Proof.
  unfold ProChat.process_line, line_delta.
  destruct (ProChat.match_data line) as [data|];
    [|run_handler; now rewrite cat_nil_r].
  destruct (String.eqb data "[DONE]");
    [run_handler; now rewrite cat_nil_r|].
  run_handler.
  destruct (JSON.parse data) as [j|]; [|now rewrite cat_nil_r].
  destruct (ProChat.delta_content j) as [delta|];
    [|now rewrite cat_nil_r].
  destruct (JSON.truthy delta); [|now rewrite cat_nil_r].
  destruct (JSON.to_string delta) as [text|]; [reflexivity|].
  now rewrite cat_nil_r.
Qed.

Lemma process_line_live (active : option string) (full line : string)
    (base : list Message.t) (p : Message.t) (s : State) :
  Message.role p = assistant ->
  live active base p s ->
  live active base (ProChat.append_content (line_delta line) p)
    (snd (ProChat.process_line active full line s)).
Proof.
  intros Hp Hl.
  unfold ProChat.process_line, line_delta.
  destruct (ProChat.match_data line) as [data|];
    [|run_handler; now rewrite append_content_nil].
  destruct (String.eqb data "[DONE]");
    [run_handler; now rewrite append_content_nil|].
  run_handler.
  destruct (JSON.parse data) as [j|];
    [|rewrite append_content_nil; now apply live_add_console].
  destruct (ProChat.delta_content j) as [delta|];
    [|rewrite append_content_nil; now apply live_add_console].
  destruct (JSON.truthy delta); [|now rewrite append_content_nil].
  destruct (JSON.to_string delta) as [text|];
    [|rewrite append_content_nil; now apply live_add_console].
  now apply live_updateLastAssistant.
Qed.

Lemma bind_run {St A B : Type} (m : M St A) (k : A -> M St B) (s : St) (a : A) :
  fst (m s) = Ok a -> bind m k s = k a (snd (m s)).
Proof.
  unfold bind. destruct (m s) as [r s']. simpl. now intros ->.
Qed.

Lemma process_lines_result (active : option string) (lines : list string)
    (full : string) (s : State) :
  fst (ProChat.process_lines active full lines s)
  = Ok (lines_text full lines).
Proof.
  revert full s. induction lines as [|line rest IH]; intros full s.
  - reflexivity.
  - cbn [ProChat.process_lines].
    rewrite (bind_run _ _ _ _ (process_line_result active full line s)).
    now rewrite IH.
Qed.

(** The live message gathers the text of the lines as the accumulator
    does, each from what it held. *)
Lemma process_lines_live (active : option string) (lines : list string)
    (full : string) (base : list Message.t) (p : Message.t) (s : State) :
  Message.role p = assistant ->
  live active base p s ->
  live active base (set_content (lines_text (Message.content p) lines) p)
    (snd (ProChat.process_lines active full lines s)).
Proof.
  intros Hp. revert full p s Hp.
  induction lines as [|line rest IH]; intros full p s Hp Hl.
  - cbn [lines_text List.fold_left ProChat.process_lines ret snd].
    now rewrite set_content_same.
  - cbn [ProChat.process_lines].
    rewrite (bind_run _ _ _ _ (process_line_result active full line s)).
    exact (IH _ (ProChat.append_content (line_delta line) p) _ Hp
             (process_line_live active full line base p s Hp Hl)).
Qed.

Lemma same_shell_refl (s : State) : same_shell s s.
Proof. repeat split. Qed.

Lemma same_shell_trans (a b c : State) :
  same_shell a b -> same_shell b c -> same_shell a c.
Proof. unfold same_shell. intuition congruence. Qed.

Lemma process_line_shell (active : option string) (full line : string)
    (s : State) :
  same_shell s (snd (ProChat.process_line active full line s)).
Proof.
  unfold ProChat.process_line.
  destruct (ProChat.match_data line) as [data|];
    [|apply same_shell_refl].
  destruct (String.eqb data "[DONE]"); [apply same_shell_refl|].
  run_handler.
  destruct (JSON.parse data) as [j|]; [|repeat split].
  destruct (ProChat.delta_content j) as [delta|]; [|repeat split].
  destruct (JSON.truthy delta); [|repeat split].
  destruct (JSON.to_string delta); repeat split.
Qed.

Lemma process_lines_shell (active : option string) (lines : list string)
    (full : string) (s : State) :
  same_shell s (snd (ProChat.process_lines active full lines s)).
Proof.
  revert full s. induction lines as [|line rest IH]; intros full s.
  - apply same_shell_refl.
  - cbn [ProChat.process_lines].
    rewrite (bind_run _ _ _ _ (process_line_result active full line s)).
    eapply same_shell_trans; [apply process_line_shell | apply IH].
Qed.

(** The read loop. *)
Lemma read_loop_done (active : option string) (chunks : list string)
    (full : string) (s : State) :
  fst (ProChat.read_loop active full chunks EndDone s)
  = Ok (stream_from full chunks).
Proof.
  revert full s. induction chunks as [|chunk rest IH]; intros full s.
  - reflexivity.
  - cbn [ProChat.read_loop]. unfold ProChat.process_chunk.
    rewrite (bind_run _ _ _ _ (process_lines_result active _ full s)).
    now rewrite IH.
Qed.

Lemma read_loop_rejected (active : option string) (chunks : list string)
    (full : string) (ending : StreamEnd) (e : Err.t) (s : State) :
  ending = EndStopped e \/ ending = EndFailed e ->
  fst (ProChat.read_loop active full chunks ending s) = Throw e.
Proof.
  intros He. revert full s.
  induction chunks as [|chunk rest IH]; intros full s.
  - destruct He as [-> | ->]; [|reflexivity].
    cbn [ProChat.read_loop]. unfold ProChat.stopStreaming. run_handler.
    destruct (abortRef s); reflexivity.
  - cbn [ProChat.read_loop]. unfold ProChat.process_chunk.
    rewrite (bind_run _ _ _ _ (process_lines_result active _ full s)).
    apply IH.
Qed.

Lemma read_loop_live (active : option string) (chunks : list string)
    (full : string) (ending : StreamEnd) (base : list Message.t)
    (p : Message.t) (s : State) :
  Message.role p = assistant ->
  live active base p s ->
  live active base (set_content (stream_from (Message.content p) chunks) p)
    (snd (ProChat.read_loop active full chunks ending s)).
Proof.
  intros Hp. revert full p s Hp.
  induction chunks as [|chunk rest IH]; intros full p s Hp Hl.
  - cbn [ProChat.read_loop stream_from List.fold_left].
    rewrite set_content_same.
    destruct ending; try exact Hl.
    unfold ProChat.stopStreaming. run_handler.
    destruct (abortRef s); exact Hl.
  - cbn [ProChat.read_loop]. unfold ProChat.process_chunk.
    rewrite (bind_run _ _ _ _ (process_lines_result active _ full s)).
    exact (IH _ (set_content
                   (lines_text (Message.content p) (Str.split_lines chunk)) p)
             _ Hp (process_lines_live active _ full base p s Hp Hl)).
Qed.

Lemma read_loop_activeChatId (active : option string) (chunks : list string)
    (full : string) (ending : StreamEnd) (s : State) :
  activeChatId (snd (ProChat.read_loop active full chunks ending s))
  = activeChatId s.
Proof.
  revert full s. induction chunks as [|chunk rest IH]; intros full s.
  - cbn [ProChat.read_loop]. destruct ending; try reflexivity.
    unfold ProChat.stopStreaming. run_handler.
    destruct (abortRef s); reflexivity.
  - cbn [ProChat.read_loop]. unfold ProChat.process_chunk.
    rewrite (bind_run _ _ _ _ (process_lines_result active _ full s)).
    rewrite IH. apply (process_lines_shell active _ full s).
Qed.

(** ** C2: the cleanup of [streamChat] *)

Lemma stopStreaming_clears (s : State) :
  fst (ProChat.stopStreaming s) = Ok tt
  /\ isStreaming (snd (ProChat.stopStreaming s)) = false
  /\ abortRef (snd (ProChat.stopStreaming s)) = None.
Proof.
  unfold ProChat.stopStreaming. run_handler.
  destruct (abortRef s); repeat split.
Qed.

(** C2.  Once the response has arrived with a body, however the read loop
    ends (the reader is done, with or without text; the user stops the
    stream; a read fails), [streamChat] leaves [isStreaming] false and
    [abortRef] null, whatever the chunks brought. *)
Theorem streamChat_cleanup (r : State) (res : Response.t) (asstId : string)
    (t : Z) (s : State) :
  Response.ok res = true ->
  Response.has_body res = true ->
  let out := ProChat.streamChat_read r (Responded res) asstId t s in
  isStreaming (snd out) = false /\ abortRef (snd out) = None.
Proof.
  intros Hok Hbody out. subst out.
  unfold ProChat.streamChat_read. rewrite Hok, Hbody. cbn [negb orb].
  unfold ProChat.addMessage, ProChat.cleanup. run_handler.
  destruct (ProChat.read_loop _ _ _ _ _) as [[full|e] s'].
  - destruct (Str.is_empty (Str.trim full)); split; reflexivity.
  - split; reflexivity.
Qed.

Lemma streamChat_cleanup_witness :
  let out :=
    ProChat.streamChat_read (set_inputMessage "hi" sole_state)
      (Responded stopped_response) "a1" 2%Z streaming_state in
  isStreaming (snd out) = false /\ abortRef (snd out) = None.
Proof.
  exact (streamChat_cleanup (set_inputMessage "hi" sole_state)
           stopped_response "a1" 2%Z streaming_state eq_refl eq_refl).
Defined.

(** The flags stay cleared to the end of [handleSend], whether it ends in
    the title update or in the error message. *)
Lemma handleSend_resume_cleanup (p : ProChat.Pending.t) (res : Response.t)
    (asstId : string) (t1 : Z) (errId : string) (t2 : Z) (s : State) :
  Response.ok res = true ->
  Response.has_body res = true ->
  let out :=
    ProChat.handleSend_resume p (Responded res) asstId t1 errId t2 s in
  fst out = Ok tt
  /\ isStreaming (snd out) = false /\ abortRef (snd out) = None.
Proof.
  intros Hok Hbody out. subst out.
  unfold ProChat.handleSend_resume, ProChat.settling,
    ProChat.streamChat_read.
  rewrite Hok, Hbody. cbn [negb orb].
  unfold ProChat.addMessage, ProChat.cleanup. run_handler.
  destruct (ProChat.read_loop _ _ _ _ _) as [[full|e] s1];
    [destruct (Str.is_empty (Str.trim full))|]; cbn; try tauto.
  destruct (ProChat.activeChat (ProChat.Pending.render p)) as [c|];
    [|cbn; tauto].
  destruct (_ && _); cbn; tauto.
Qed.

(** The three exits, on the example: stopped after "Hello" the message keeps
    its text and the flags are cleared. *)
Example streamChat_stopped_example :
  let out :=
    ProChat.streamChat_read (set_inputMessage "hi" sole_state)
      (Responded stopped_response) "a1" 2%Z streaming_state in
  fst out = Throw (Err.mk "AbortError" "The user aborted a request.")
  /\ option_map Chat.messages (ProChat.activeChat (snd out))
     = Some [ Message.mk "u1" user "hi" 1%Z (Some []);
              Message.mk "a1" assistant "Hello" 2%Z None ]
  /\ isStreaming (snd out) = false
  /\ abortRef (snd out) = None
  /\ aborted (snd out) = [0].
Proof. vm_compute. repeat split. Qed.

(** ** C3: the empty response *)

Lemma addMessage_chat_of (active : option string) (msg : Message.t)
    (s : State) (c : Chat.t) :
  chat_of active s = Some c ->
  chat_of active (exec (ProChat.addMessage active msg) s)
  = Some (ProChat.with_messages c (Chat.messages c ++ [msg])%list).
Proof.
  intros Hc. unfold ProChat.addMessage. run_handler.
  rewrite chat_of_set_chats_map.
  - rewrite Hc. cbn [option_map].
    now rewrite (chat_of_same_id _ _ _ Hc).
  - intros c'. now destruct (same_id _ _).
Qed.

(** C3.  A send whose response streams to the end without adding any text to
    the accumulator fails inside [streamChat] with the error "Empty response
    from model"; [handleSend] catches it, and the conversation then holds,
    after the user message, the empty assistant placeholder followed by the
    assistant message that shows the error: the heading, the message of the
    error and the tips. *)
Theorem handleSend_empty_response
    (s : State) (c : Chat.t) (custom : option ProChat.Custom.t)
    (uid : string) (t : Z) (res : Response.t)
    (asstId : string) (t1 : Z) (errId : string) (t2 : Z) :
  ProChat.activeChat s = Some c ->
  isStreaming s = false ->
  Str.is_empty (sent_content custom s) = false ->
  Str.is_empty (ModelConfig.apiKey (modelConfig s)) = false ->
  Str.is_empty (ModelConfig.selectedModel (modelConfig s)) = false ->
  Response.ok res = true ->
  Response.has_body res = true ->
  Response.ending res = EndDone ->
  stream_text (Response.chunks res) = EmptyString ->
  let begun := ProChat.handleSend_begin custom uid t errId t2 s in
  let out :=
    ProChat.handleSend custom uid t (Responded res) asstId t1 errId t2 s in
  fst (ProChat.streamChat_read s (Responded res) asstId t1 (snd begun))
  = Throw (Err.mk "Error" "Empty response from model")
  /\ fst out = Ok tt
  /\ option_map Chat.messages (ProChat.activeChat (snd out))
     = Some (Chat.messages c
             ++ [ Message.mk uid user (sent_content custom s) t
                    (Some (match custom with
                           | Some (ProChat.Custom.mk _ (Some a)) => a
                           | _ => attachments s
                           end));
                  Message.mk asstId assistant EmptyString t1 None;
                  Message.mk errId assistant
                    ("## Error" ++ LF ++ LF ++ "Empty response from model"
                    ++ LF ++ LF ++ "**Tips**" ++ LF
                    ++ "- Check API key / model" ++ LF
                    ++ "- Verify base URL")
                    t2 None ])%list.
Proof.
  intros Ha Hs Hc Hk Hm Hok Hbody Hend Htext begun out.
  (* the synchronous part *)
  assert (Hbegun :
    exists s1, begun = (Ok (Some (ProChat.Pending.mk s
                                    (List.length (requests s))
                                    (sent_content custom s))), s1)
               /\ activeChatId s1 = activeChatId s
               /\ chat_of (activeChatId s) s1
                  = Some (ProChat.with_messages c
                            (Chat.messages c
                             ++ [sent_message custom uid t s])%list)).
  { subst begun. unfold ProChat.handleSend_begin. run_handler.
    rewrite Hs. fold (sent_content custom s). rewrite Hc, Hk, Hm.
    cbn [orb]. run_handler. rewrite Ha.
    unfold ProChat.streamChat_fetch. run_handler.
    eexists. split; [reflexivity|]. split; [reflexivity|].
    exact (addMessage_chat_of (activeChatId s) (sent_message custom uid t s)
             s c Ha). }
  destruct Hbegun as (s1 & Hb & Hid1 & Hchat1). subst begun.
  (* the stream *)
  assert (Hread :
    exists s2,
      ProChat.streamChat_read s (Responded res) asstId t1 s1
      = (Throw (Err.Error "Empty response from model"), s2)
      /\ activeChatId s2 = activeChatId s
      /\ live (activeChatId s)
           (Chat.messages c ++ [sent_message custom uid t s])%list
           (ProChat.placeholder asstId t1) s2).
  { unfold ProChat.streamChat_read. rewrite Hok, Hbody, Hend.
    cbn [negb orb]. unfold ProChat.cleanup, ProChat.addMessage. run_handler.
    match goal with
    | |- context [ProChat.read_loop _ _ _ _ ?x] => set (s1' := x)
    end.
    assert (Hlive : live (activeChatId s)
                      (Chat.messages c ++ [sent_message custom uid t s])%list
                      (ProChat.placeholder asstId t1) s1').
    { eexists. split.
      - exact (addMessage_chat_of (activeChatId s)
                 (ProChat.placeholder asstId t1) (set_isStreaming true s1)
                 _ Hchat1).
      - reflexivity. }
    pose proof (read_loop_done (activeChatId s) (Response.chunks res)
                  EmptyString s1') as Hfull.
    pose proof (read_loop_live (activeChatId s) (Response.chunks res)
                  EmptyString EndDone _ (ProChat.placeholder asstId t1) s1'
                  eq_refl Hlive) as Hl.
    pose proof (read_loop_activeChatId (activeChatId s) (Response.chunks res)
                  EmptyString EndDone s1') as Hid.
    unfold stream_text in Htext.
    cbn [ProChat.placeholder Message.content] in Hl.
    rewrite Htext in Hfull, Hl.
    destruct (ProChat.read_loop (activeChatId s) EmptyString
                (Response.chunks res) EndDone s1') as [rfull s2].
    cbn [fst snd] in Hfull, Hl, Hid. rewrite Hfull.
    cbn [String.append Str.trim Str.trimStart Str.trimEnd Str.rev
           Str.trimStart_rev Str.is_empty].
    eexists. split; [reflexivity|]. split.
    - cbn [activeChatId set_abortRef set_isStreaming]. rewrite Hid.
      exact Hid1.
    - exact Hl. }
  destruct Hread as (s2 & Hr & Hid2 & (c2 & Hc2 & Hm2)).
  split; [rewrite Hb; cbn [snd]; now rewrite Hr|].
  (* the catch *)
  subst out. unfold ProChat.handleSend.
  rewrite (bind_run _ _ _ _ (f_equal fst Hb)).
  rewrite Hb. cbn [snd]. unfold ProChat.handleSend_resume, ProChat.settling.
  cbn [ProChat.Pending.render ProChat.Pending.controller].
  run_handler. rewrite Hr. cbn [fst snd].
  split; [reflexivity|].
  rewrite activeChat_chat_of. refold_snd.
  match goal with
  | |- context [activeChatId (snd (ProChat.addMessage ?a ?e ?x))] =>
      change (activeChatId (snd (ProChat.addMessage a e x)))
        with (activeChatId s2)
  end.
  rewrite Hid2.
  pose proof (addMessage_chat_of (activeChatId s)
                (Message.mk errId assistant
                   (ProChat.send_error_content
                      (Err.Error "Empty response from model")) t2 None)
                (add_settled (List.length (requests s)) s2) c2 Hc2) as Hfin.
  unfold exec in Hfin. rewrite Hfin. cbn [option_map ProChat.with_messages
    Chat.messages]. rewrite Hm2, <- !List.app_assoc. reflexivity.
Qed.

(** The text that arrived stays in the placeholder however the stream ends,
    and it is the text [streamChat] returns when the reader is done. *)
Lemma streamChat_read_keeps_text (r : State) (res : Response.t)
    (asstId : string) (t : Z) (s : State) (c : Chat.t) :
  chat_of (activeChatId r) s = Some c ->
  Response.ok res = true ->
  Response.has_body res = true ->
  let out := ProChat.streamChat_read r (Responded res) asstId t s in
  live (activeChatId r) (Chat.messages c)
    (Message.mk asstId assistant (stream_text (Response.chunks res)) t None)
    (snd out)
  /\ (Response.ending res = EndDone ->
      Str.is_empty (Str.trim (stream_text (Response.chunks res))) = false ->
      fst out = Ok (stream_text (Response.chunks res))).
Proof.
  intros Hc Hok Hbody out. subst out.
  unfold ProChat.streamChat_read. rewrite Hok, Hbody. cbn [negb orb].
  unfold ProChat.cleanup, ProChat.addMessage. run_handler.
  match goal with
  | |- context [ProChat.read_loop _ _ _ _ ?x] => set (s1 := x)
  end.
  assert (Hlive : live (activeChatId r) (Chat.messages c)
                    (ProChat.placeholder asstId t) s1).
  { eexists. split.
    - exact (addMessage_chat_of (activeChatId r)
               (ProChat.placeholder asstId t) (set_isStreaming true s) c Hc).
    - reflexivity. }
  pose proof (read_loop_live (activeChatId r) (Response.chunks res)
                EmptyString (Response.ending res) _
                (ProChat.placeholder asstId t) s1 eq_refl Hlive) as Hl.
  pose proof (read_loop_done (activeChatId r) (Response.chunks res)
                EmptyString s1) as Hfull.
  fold (stream_text (Response.chunks res)) in Hfull.
  cbn [ProChat.placeholder Message.content] in Hl.
  fold (stream_text (Response.chunks res)) in Hl.
  split.
  - destruct (ProChat.read_loop (activeChatId r) EmptyString
                (Response.chunks res) (Response.ending res) s1)
      as [[full|e] s2]; cbn [snd] in Hl;
      [destruct (Str.is_empty (Str.trim full))|]; exact Hl.
  - intros Hend Htext. rewrite Hend.
    destruct (ProChat.read_loop (activeChatId r) EmptyString
                (Response.chunks res) EndDone s1) as [rfull s2].
    cbn [fst] in Hfull. rewrite Hfull. cbn [fst]. now rewrite Htext.
Qed.
Lemma handleSend_empty_response_witness :
  let s := set_inputMessage "hi" sole_state in
  let begun := ProChat.handleSend_begin None "u1" 1%Z "e1" 3%Z s in
  let out :=
    ProChat.handleSend None "u1" 1%Z (Responded empty_response)
      "a1" 2%Z "e1" 3%Z s in
  fst (ProChat.streamChat_read s (Responded empty_response) "a1" 2%Z
         (snd begun))
  = Throw (Err.mk "Error" "Empty response from model")
  /\ fst out = Ok tt
  /\ option_map Chat.messages (ProChat.activeChat (snd out))
     = Some [ Message.mk "u1" user "hi" 1%Z (Some []);
              Message.mk "a1" assistant EmptyString 2%Z None;
              Message.mk "e1" assistant
                ("## Error" ++ LF ++ LF ++ "Empty response from model"
                 ++ LF ++ LF ++ "**Tips**" ++ LF
                 ++ "- Check API key / model" ++ LF
                 ++ "- Verify base URL") 3%Z None ].
Proof.
  exact (handleSend_empty_response (set_inputMessage "hi" sole_state)
           (Chat.mk "c1" "New Chat" []) None "u1" 1%Z empty_response
           "a1" 2%Z "e1" 3%Z
           eq_refl eq_refl eq_refl eq_refl eq_refl eq_refl eq_refl eq_refl
           eq_refl).
Defined.

(** ** C4: the content of the messages of a request *)

(** The message array: the system message, the history in order, the new
    user message. *)
Lemma buildPayload_order (s : State) (userMsg : Message.t)
    (history : list Message.t) :
  Payload.messages (ProChat.buildPayload s userMsg history)
  = (PayloadMessage.mk system (PlainContent (ProChat.systemPrompt s))
     :: List.map (fun m => PayloadMessage.mk (Message.role m)
                             (ProChat.historyContent m)) history
     ++ [PayloadMessage.mk user (ProChat.userContent userMsg)])%list.
Proof. reflexivity. Qed.

(** The new user message: one text part and one image reference for each
    image attachment when there is an image attachment, the plain text when
    there is none. *)
Lemma userContent_cases (userMsg : Message.t) :
  let atts := or_nil (Message.attachments userMsg) in
  (List.existsb ProChat.is_image atts = true ->
   ProChat.userContent userMsg
   = PartsContent
       (TextPart (Message.content userMsg)
        :: List.map ProChat.image_part (List.filter ProChat.is_image atts)))
  /\ (List.existsb ProChat.is_image atts = false ->
      ProChat.userContent userMsg = PlainContent (Message.content userMsg)).
Proof.
  unfold ProChat.userContent. cbv zeta.
  split; intros ->; reflexivity.
Qed.

(** A history message: the same list of parts when it has an image
    attachment, the plain text when it has no attachment at all. *)
Lemma historyContent_cases (m : Message.t) :
  let atts := or_nil (Message.attachments m) in
  (List.existsb ProChat.is_image atts = true ->
   ProChat.historyContent m
   = PartsContent
       (TextPart (Message.content m)
        :: List.map ProChat.image_part (List.filter ProChat.is_image atts)))
  /\ (atts = [] ->
      ProChat.historyContent m = PlainContent (Message.content m)).
Proof.
  unfold ProChat.historyContent. cbv zeta.
  destruct (Message.attachments m) as [[|a l]|]; simpl;
    split; intros H; try reflexivity; discriminate.
Qed.

(** C4.  A message whose only attachment is a text file carries no image.
    As the new user message its content is the plain string; once it is part
    of the history, the request gives it a list holding one text part. *)
Theorem buildPayload_history_file_attachment :
  List.existsb ProChat.is_image (or_nil (Message.attachments notes_message))
  = false
  /\ List.map PayloadMessage.content
       (Payload.messages (ProChat.buildPayload sole_state notes_message []))
     = [ PlainContent (ProChat.systemPrompt sole_state);
         PlainContent "see my notes" ]
  /\ List.map PayloadMessage.content
       (Payload.messages
          (ProChat.buildPayload sole_state
             (Message.mk "u2" user "and now?" 3%Z (Some []))
             [ notes_message;
               Message.mk "a1" assistant "I cannot see them" 2%Z None ]))
     = [ PlainContent (ProChat.systemPrompt sole_state);
         PartsContent [TextPart "see my notes"];
         PlainContent "I cannot see them";
         PlainContent "and now?" ].
Proof. repeat split. Qed.

(** ** C9: a second send while a request is in flight *)

(** Once [isStreaming] is set, a send changes nothing and makes no
    request. *)
Lemma handleSend_begin_while_streaming (custom : option ProChat.Custom.t)
    (uid : string) (t : Z) (errId : string) (t2 : Z) (s : State) :
  isStreaming s = true ->
  ProChat.handleSend_begin custom uid t errId t2 s = (Ok None, s).
Proof.
  intros H. unfold ProChat.handleSend_begin. run_handler. now rewrite H.
Qed.

Lemma handleSend_while_streaming (custom : option ProChat.Custom.t)
    (uid : string) (t : Z) (res : FetchResult) (asstId : string) (t1 : Z)
    (errId : string) (t2 : Z) (s : State) :
  isStreaming s = true ->
  ProChat.handleSend custom uid t res asstId t1 errId t2 s = (Ok tt, s).
Proof.
  intros H. unfold ProChat.handleSend.
  rewrite (bind_run _ _ _ None); rewrite handleSend_begin_while_streaming;
    auto.
Qed.

(** The flag is raised only when the response has arrived: between the call
    of [fetch] and its answer a request is in flight and [isStreaming] is
    still false. *)
Lemma handleSend_begin_in_flight (custom : option ProChat.Custom.t)
    (uid : string) (t : Z) (errId : string) (t2 : Z) (s : State)
    (p : ProChat.Pending.t) :
  let begun := ProChat.handleSend_begin custom uid t errId t2 s in
  fst begun = Ok (Some p) ->
  isStreaming (snd begun) = false
  /\ List.length (requests (snd begun)) = S (List.length (requests s)).
Proof.
  intros begun. subst begun.
  unfold ProChat.handleSend_begin, ProChat.addMessage,
    ProChat.streamChat_fetch. run_handler.
  destruct (isStreaming s) eqn:Hs; [discriminate|].
  destruct (Str.is_empty _); [discriminate|].
  destruct (_ || _); [discriminate|]. run_handler.
  destruct (ProChat.activeChat s); [|discriminate].
  run_handler. intros _.
  cbn [isStreaming requests add_request set_abortRef set_attachments
       set_inputMessage set_chats].
  split; [exact Hs|]. rewrite List.length_app. simpl. lia.
Qed.

(** C9.  On the pro screen: after a first send has called [fetch] and
    before the response arrives, one request is in flight and [isStreaming]
    is false; the user types again and sends, and the second send adds its
    message to the conversation and puts a second request in flight. *)
Theorem handleSend_twice_before_response :
  let s1 := snd (ProChat.handleSend_begin None "u1" 1%Z "e1" 3%Z
                   (set_inputMessage "first" sole_state)) in
  let s2 := snd (ProChat.handleSend_begin None "u2" 2%Z "e2" 4%Z
                   (set_inputMessage "second" s1)) in
  List.map Request.signal (in_flight s1) = [0]
  /\ isStreaming s1 = false
  /\ option_map Chat.messages (ProChat.activeChat s1)
     = Some [Message.mk "u1" user "first" 1%Z (Some [])]
  /\ List.map Request.signal (in_flight s2) = [0; 1]
  /\ option_map Chat.messages (ProChat.activeChat s2)
     = Some [ Message.mk "u1" user "first" 1%Z (Some []);
              Message.mk "u2" user "second" 2%Z (Some []) ]
  /\ abortRef s2 = Some 1.
Proof. vm_compute. repeat split. Qed.

(** Regenerate makes its request whatever [isStreaming] is. *)
Example handleRegenerate_while_streaming :
  let s1 :=
    snd (ProChat.streamChat_read (set_inputMessage "hi" sole_state)
           (Responded (Response.mk true true 200 "OK" EmptyString [] EndDone))
           "a1" 2%Z streaming_state) in
  let streaming := set_isStreaming true (set_abortRef (Some 0) s1) in
  List.length
    (requests (snd (ProChat.handleRegenerate_begin streaming)))
  = 2.
Proof. reflexivity. Qed.

(** ** [JSON.parse] reads back what [JSON.stringify] writes *)

(** Induction on a value with the hypothesis for the elements of an array
    and the members of an object. *)
Fixpoint json_nested_ind (P : json -> Prop)
    (Hnull : P JNull) (Hbool : forall b, P (JBool b))
    (Hnum : forall m e, P (JNum m e)) (Hstr : forall s, P (JStr s))
    (Harr : forall items, List.Forall P items -> P (JArr items))
    (Hobj : forall fields,
        List.Forall (fun kv => P (snd kv)) fields -> P (JObj fields))
    (v : json) {struct v} : P v :=
  match v with
  | JNull => Hnull
  | JBool b => Hbool b
  | JNum m e => Hnum m e
  | JStr s => Hstr s
  | JArr items =>
      Harr items
        ((fix go (l : list json) : List.Forall P l :=
            match l with
            | [] => List.Forall_nil P
            | x :: r =>
                List.Forall_cons x
                  (json_nested_ind P Hnull Hbool Hnum Hstr Harr Hobj x) (go r)
            end) items)
  | JObj fields =>
      Hobj fields
        ((fix go (l : list (string * json))
            : List.Forall (fun kv => P (snd kv)) l :=
            match l with
            | [] => List.Forall_nil _
            | kv :: r =>
                List.Forall_cons kv
                  (json_nested_ind P Hnull Hbool Hnum Hstr Harr Hobj (snd kv))
                  (go r)
            end) fields)
  end.

Import JSON (emit).
Arguments emit : simpl never.

Lemma emit_nil (o : option (list JSON.token)) : emit [] o = o.
Proof. unfold emit. destruct o; reflexivity. Qed.

Lemma emit_emit (a b : list JSON.token) (o : option (list JSON.token)) :
  emit a (emit b o) = emit (a ++ b)%list o.
Proof.
  unfold emit. destruct o; simpl; [now rewrite List.app_assoc | reflexivity].
Qed.

Lemma lex_from_cons (st : JSON.lstate) (c : ascii) (r : string) :
  JSON.lex_from st (String c r)
  = match JSON.step st c with
    | Some (ts, st') => emit ts (JSON.lex_from st' r)
    | None => None
    end.
Proof. reflexivity. Qed.

(** *** White space and punctuation *)

Lemma lex_spaces (n : nat) (r : string) :
  JSON.lex_from JSON.LDefault (Str.repeat " " n ++ r)
  = JSON.lex_from JSON.LDefault r.
Proof.
  induction n as [|n IH]; [reflexivity|].
  cbn [Str.repeat String.append]. rewrite lex_from_cons.
  cbn. rewrite emit_nil. exact IH.
Qed.

Lemma lex_newline (gap ind : nat) (r : string) :
  JSON.lex_from JSON.LDefault (JSON.newline gap ind ++ r)
  = JSON.lex_from JSON.LDefault r.
Proof.
  unfold JSON.newline. destruct gap; [reflexivity|].
  cbn [String.append]. rewrite lex_from_cons. cbn. rewrite emit_nil.
  apply lex_spaces.
Qed.

Lemma lex_colon (gap : nat) (r : string) :
  JSON.lex_from JSON.LDefault (JSON.colon gap ++ r)
  = emit [JSON.TColon] (JSON.lex_from JSON.LDefault r).
Proof.
  unfold JSON.colon. destruct gap; cbn [String.append];
    rewrite !lex_from_cons; cbn; [reflexivity|].
  now rewrite emit_nil.
Qed.

(** *** Strings *)

Lemma lex_escape_char (c : ascii) (acc r : string) :
  JSON.lex_from (JSON.LStr acc) (JSON.escape_char c ++ r)
  = JSON.lex_from (JSON.LStr (JSON.snoc acc c)) r.
Proof.
  destruct c as [[] [] [] [] [] [] [] []]; cbn; rewrite ?emit_nil;
    reflexivity.
Qed.

Lemma lex_escape (s acc r : string) :
  JSON.lex_from (JSON.LStr acc)
    (JSON.escape s ++ String Str.dquote r)
  = emit [JSON.TStr (acc ++ s)] (JSON.lex_from JSON.LDefault r).
Proof.
  revert acc. induction s as [|c s IH]; intros acc.
  - cbn [JSON.escape String.append]. rewrite lex_from_cons. cbn.
    now rewrite append_nil_r.
  - cbn [JSON.escape]. rewrite append_assoc, lex_escape_char, IH.
    unfold JSON.snoc. now rewrite append_assoc.
Qed.

Lemma lex_quote (s r : string) :
  JSON.lex_from JSON.LDefault (JSON.quote s ++ r)
  = emit [JSON.TStr s] (JSON.lex_from JSON.LDefault r).
Proof.
  unfold JSON.quote. cbn [String.append]. rewrite lex_from_cons. cbn.
  rewrite emit_nil, append_assoc. cbn [String.append].
  apply lex_escape.
Qed.

(** *** Numbers *)

(** The digits of a positive number start with a digit that is not zero. *)
Lemma unorm_head (d : Decimal.uint) :
  match Decimal.unorm d with
  | Decimal.Nil => False
  | Decimal.D0 Decimal.Nil => True
  | Decimal.D0 _ => False
  | _ => True
  end.
Proof.
  induction d; simpl; auto.
Qed.

Lemma to_uint_head (p : positive) :
  match Pos.to_uint p with
  | Decimal.Nil | Decimal.D0 _ => False
  | _ => True
  end.
Proof.
  pose proof (DecimalPos.Unsigned.to_of (Pos.to_uint p)) as H.
  rewrite DecimalPos.Unsigned.of_to in H. simpl in H.
  pose proof (unorm_head (Pos.to_uint p)) as Hu. rewrite <- H in Hu.
  pose proof (DecimalPos.Unsigned.to_uint_nonzero p) as Hz.
  destruct (Pos.to_uint p) as [|d|d|d|d|d|d|d|d|d|d]; auto.
  destruct d; auto.
Qed.

Lemma lex_digits (d : Decimal.uint) (n : JSON.numlit) (r : string) :
  JSON.lex_from (JSON.LNum JSON.NInt n) (NilEmpty.string_of_uint d ++ r)
  = JSON.lex_from
      (JSON.LNum JSON.NInt
         (with_ipart n (JSON.ipart n ++ NilEmpty.string_of_uint d))) r.
Proof.
  revert n. induction d; intros n; cbn [NilEmpty.string_of_uint String.append];
    try (rewrite lex_from_cons; cbn; rewrite emit_nil, IHd;
         unfold with_ipart, JSON.snoc; cbn;
         now rewrite append_assoc).
  unfold with_ipart. rewrite append_nil_r. now destruct n.
Qed.

(** A complete integer literal before a text that continues no number. *)
Lemma lex_number_end (ph : JSON.nphase) (n : JSON.numlit) (t : JSON.token)
    (r : string) :
  ph = JSON.NZero \/ ph = JSON.NInt ->
  JSON.num_token n = Some t ->
  stops r = true ->
  JSON.lex_from (JSON.LNum ph n) r
  = emit [t] (JSON.lex_from JSON.LDefault r).
Proof.
  intros Hph Ht Hr. destruct r as [|c r].
  - destruct Hph as [-> | ->]; cbn; now rewrite Ht.
  - rewrite !lex_from_cons. cbn [stops] in Hr.
    apply negb_true_iff in Hr. apply orb_false_iff in Hr.
    destruct Hr as [Hr He]. apply orb_false_iff in Hr.
    destruct Hr as [Hd Hdot].
    assert (Hstep : JSON.step (JSON.LNum ph n) c = JSON.end_number n c).
    { destruct Hph as [-> | ->]; cbn [JSON.step JSON.step_number];
        now rewrite ?Hd, Hdot, He. }
    rewrite Hstep. unfold JSON.end_number. rewrite Ht.
    cbn [JSON.step]. destruct (JSON.step_default c) as [[ts st]|];
      [|reflexivity].
    now rewrite emit_emit.
Qed.

Lemma uint_value_digits (p : positive) :
  JSON.uint_value (NilEmpty.string_of_uint (Pos.to_uint p))
  = Some (Zpos p).
Proof.
  unfold JSON.uint_value. rewrite NilEmpty.usu. cbn [option_map].
  unfold N.of_uint. now rewrite DecimalPos.Unsigned.of_to.
Qed.

Lemma num_token_digits (sign : bool) (p : positive) :
  JSON.num_token
    (JSON.mkNum sign (NilEmpty.string_of_uint (Pos.to_uint p)) EmptyString
       false EmptyString)
  = Some (JSON.TNum (if sign then Zneg p else Zpos p) 0).
Proof.
  unfold JSON.num_token. cbn [JSON.ipart JSON.fpart JSON.epart JSON.neg
    JSON.eneg]. rewrite append_nil_r, uint_value_digits.
  destruct sign; reflexivity.
Qed.

Lemma lex_positive (sign : bool) (p : positive) (r : string) :
  stops r = true ->
  JSON.lex_from (after_sign sign)
    (NilEmpty.string_of_uint (Pos.to_uint p) ++ r)
  = emit [JSON.TNum (if sign then Zneg p else Zpos p) 0]
      (JSON.lex_from JSON.LDefault r).
Proof.
  intros Hr. pose proof (to_uint_head p) as Hh.
  pose proof (num_token_digits sign p) as Ht.
  destruct (Pos.to_uint p) as [|d|d|d|d|d|d|d|d|d|d]; try contradiction;
    cbn [NilEmpty.string_of_uint String.append] in *;
    rewrite lex_from_cons; destruct sign; cbn;
    rewrite emit_nil, lex_digits;
    (apply lex_number_end; [now right | exact Ht | exact Hr]).
Qed.

Lemma lex_number (z : Z) (r : string) :
  stops r = true ->
  JSON.lex_from JSON.LDefault (JSON.number_text z 0 ++ r)
  = emit [JSON.TNum z 0] (JSON.lex_from JSON.LDefault r).
Proof.
  intros Hr. unfold JSON.number_text. destruct z as [|p|p]; cbn [Z.eqb].
  - cbn [String.append]. rewrite lex_from_cons. cbn. rewrite emit_nil.
    apply lex_number_end; [now left | reflexivity | exact Hr].
  - exact (lex_positive false p r Hr).
  - cbn [JSON.decimal String.append]. rewrite lex_from_cons. cbn.
    rewrite emit_nil. exact (lex_positive true p r Hr).
Qed.

(** *** Values *)

Lemma join_cons (sep x : string) (rest : list string) :
  Str.join sep (x :: rest)
  = x ++ String.concat EmptyString (List.map (String.append sep) rest).
Proof.
  revert x. induction rest as [|y l IH]; intros x.
  - simpl. now rewrite append_nil_r.
  - change (Str.join sep (x :: y :: l))
      with (x ++ sep ++ Str.join sep (y :: l)).
    rewrite IH. cbn [List.map]. rewrite concat_nil_cons.
    now rewrite !append_assoc.
Qed.

Lemma stringify_at_array (gap ind : nat) (x : json) (rest : list json) :
  JSON.stringify_at gap ind (JArr (x :: rest))
  = "[" ++ JSON.newline gap (ind + gap)
    ++ Str.join ("," ++ JSON.newline gap (ind + gap))
         (List.map (JSON.stringify_at gap (ind + gap)) (x :: rest))
    ++ JSON.newline gap ind ++ "]".
Proof. reflexivity. Qed.

Lemma stringify_at_object (gap ind : nat) (kv : string * json)
    (rest : list (string * json)) :
  JSON.stringify_at gap ind (JObj (kv :: rest))
  = "{" ++ JSON.newline gap (ind + gap)
    ++ Str.join ("," ++ JSON.newline gap (ind + gap))
         (List.map (fun kv : string * json =>
                      JSON.quote (fst kv) ++ JSON.colon gap
                      ++ JSON.stringify_at gap (ind + gap) (snd kv))
            (kv :: rest))
    ++ JSON.newline gap ind ++ "}".
Proof. reflexivity. Qed.

Lemma stops_newline (gap ind : nat) (c : ascii) (r : string) :
  stops (String c r) = true ->
  stops (JSON.newline gap ind ++ String c r) = true.
Proof. unfold JSON.newline. now destruct gap. Qed.

Lemma stops_separated (gap ind : nat) (l : list string) (c : ascii)
    (r : string) :
  stops (String c r) = true ->
  stops (String.concat EmptyString
           (List.map (String.append ("," ++ JSON.newline gap ind)) l)
         ++ String c r) = true.
Proof.
  destruct l as [|y l]; [easy|]. cbn [List.map]. now rewrite concat_nil_cons.
Qed.

Ltac lex_prefix :=
  cbn [String.append]; rewrite lex_from_cons; cbn [JSON.step];
  match goal with
  | |- context [JSON.step_default ?c] =>
      let v := eval cbv in (JSON.step_default c) in
      change (JSON.step_default c) with v
  end; cbv beta iota.

Lemma lex_comma_newline (gap ind : nat) (r : string) :
  JSON.lex_from JSON.LDefault (("," ++ JSON.newline gap ind) ++ r)
  = emit [JSON.TComma] (JSON.lex_from JSON.LDefault r).
Proof.
  rewrite append_assoc. lex_prefix. now rewrite lex_newline.
Qed.

Section Lexing.
Variable gap : nat.

(** The items of an array, or the members of an object, after the first:
    each follows a comma and the indentation. *)
Lemma lex_separated {A : Type} (text : A -> string)
    (toks : A -> list JSON.token) (sep tail : string) (l : list A) :
  (forall r, JSON.lex_from JSON.LDefault (sep ++ r)
             = emit [JSON.TComma] (JSON.lex_from JSON.LDefault r)) ->
  (forall l' : list A,
      stops (String.concat EmptyString
               (List.map (String.append sep) (List.map text l')) ++ tail)
      = true) ->
  List.Forall (fun y => forall r, stops r = true ->
                 JSON.lex_from JSON.LDefault (text y ++ r)
                 = emit (toks y) (JSON.lex_from JSON.LDefault r)) l ->
  JSON.lex_from JSON.LDefault
    (String.concat EmptyString
       (List.map (String.append sep) (List.map text l))
     ++ tail)
  = emit (List.flat_map (fun y => JSON.TComma :: toks y) l)
      (JSON.lex_from JSON.LDefault tail).
Proof.
  intros Hsep Hstops. induction 1 as [|y l Hy Hl IH].
  - cbn. now rewrite emit_nil.
  - cbn [List.map List.flat_map]. rewrite concat_nil_cons.
    rewrite !append_assoc, Hsep.
    rewrite Hy by apply (Hstops l). rewrite IH.
    now rewrite !emit_emit.
Qed.

Lemma lex_stringify (v : json) :
  forall (ind : nat) (r : string),
    integral v = true -> stops r = true ->
    JSON.lex_from JSON.LDefault (JSON.stringify_at gap ind v ++ r)
    = emit (tokens v) (JSON.lex_from JSON.LDefault r).
Proof.
  induction v as [|b|m e|s|items IH|fields IH] using json_nested_ind;
    intros ind r Hint Hr.
  - cbn. now rewrite !emit_nil.
  - destruct b; cbn; now rewrite !emit_nil.
  - cbn [integral] in Hint. apply Z.eqb_eq in Hint. subst e.
    now apply lex_number.
  - apply lex_quote.
  - destruct items as [|x rest].
    + cbn. now rewrite emit_emit.
    + rewrite stringify_at_array. cbn [List.map]. rewrite join_cons.
      set (sep := "," ++ JSON.newline gap (ind + gap)).
      cbn [integral List.forallb] in Hint.
      apply andb_true_iff in Hint. destruct Hint as [Hx Hrest].
      inversion IH as [|? ? IHx IHrest]; subst.
      rewrite !append_assoc. lex_prefix. rewrite lex_newline.
      assert (Htail : stops (JSON.newline gap ind ++ "]" ++ r) = true)
        by now apply stops_newline.
      assert (Hstops : forall l' : list json,
                 stops (String.concat EmptyString
                          (List.map (String.append sep)
                             (List.map (JSON.stringify_at gap (ind + gap))
                                l'))
                        ++ JSON.newline gap ind ++ "]" ++ r) = true).
      { intros l'. destruct l' as [|y l']; [exact Htail|].
        cbn [List.map]. now rewrite concat_nil_cons. }
      rewrite IHx; [|exact Hx|apply Hstops].
      rewrite (lex_separated (JSON.stringify_at gap (ind + gap)) tokens).
      * rewrite lex_newline. lex_prefix.
        rewrite !emit_emit. f_equal. cbn [tokens List.app].
        now rewrite <- ?List.app_assoc.
      * apply lex_comma_newline.
      * exact Hstops.
      * rewrite List.forallb_forall in Hrest.
        rewrite List.Forall_forall in IHrest |- *.
        intros y Hy r' Hr'. apply IHrest; auto.
  - destruct fields as [|kv rest].
    + cbn. now rewrite emit_emit.
    + rewrite stringify_at_object. cbn [List.map]. rewrite join_cons.
      set (sep := "," ++ JSON.newline gap (ind + gap)).
      set (member := fun kv : string * json =>
                       JSON.quote (fst kv) ++ JSON.colon gap
                       ++ JSON.stringify_at gap (ind + gap) (snd kv)).
      cbn [integral List.forallb] in Hint.
      apply andb_true_iff in Hint. destruct Hint as [Hx Hrest].
      inversion IH as [|? ? IHx IHrest]; subst.
      rewrite !append_assoc. lex_prefix. rewrite lex_newline.
      assert (Htail : stops (JSON.newline gap ind ++ "}" ++ r) = true)
        by now apply stops_newline.
      assert (Hstops : forall l' : list (string * json),
                 stops (String.concat EmptyString
                          (List.map (String.append sep)
                             (List.map member l'))
                        ++ JSON.newline gap ind ++ "}" ++ r) = true).
      { intros l'. destruct l' as [|y l']; [exact Htail|].
        cbn [List.map]. now rewrite concat_nil_cons. }
      rewrite lex_quote, lex_colon.
      rewrite IHx; [|exact Hx|apply Hstops].
      rewrite (lex_separated member
                 (fun kv => JSON.TStr (fst kv) :: JSON.TColon
                            :: tokens (snd kv))).
      * rewrite lex_newline. lex_prefix.
        rewrite !emit_emit. f_equal. cbn [tokens List.app].
        now rewrite <- ?List.app_assoc.
      * apply lex_comma_newline.
      * exact Hstops.
      * rewrite List.forallb_forall in Hrest.
        rewrite List.Forall_forall in IHrest |- *.
        intros y Hy r' Hr'. unfold member. cbv beta.
        rewrite !append_assoc.
        rewrite lex_quote, lex_colon, (IHrest y Hy); auto.
        now rewrite !emit_emit.
Qed.
End Lexing.

(** *** The parser on the tokens of a value *)

Lemma prun_cons (st : JSON.pstate) (t : JSON.token) (ts : list JSON.token) :
  JSON.prun st (t :: ts) = continue_with (JSON.pstep st t) ts.
Proof. reflexivity. Qed.

Lemma prun_items (stk : list JSON.ctx) (ts : list JSON.token)
    (rest : list json) :
  List.Forall (fun y => forall stk m ts, takes_value m ->
                 JSON.prun (stk, m) (tokens y ++ ts)%list
                 = continue_with (JSON.deliver y stk) ts) rest ->
  forall done,
    JSON.prun (JSON.CArr done :: stk, JSON.MAfter)
      (List.flat_map (fun y => JSON.TComma :: tokens y) rest
       ++ JSON.TRBracket :: ts)%list
    = continue_with (JSON.deliver (JArr (List.rev done ++ rest)%list) stk) ts.
Proof.
  induction 1 as [|y l Hy Hl IH]; intros done.
  - cbn [List.flat_map List.app]. rewrite prun_cons. cbn [JSON.pstep].
    now rewrite List.app_nil_r.
  - cbn [List.flat_map]. rewrite <- !List.app_assoc, <- List.app_comm_cons.
    rewrite prun_cons. cbn [JSON.pstep continue_with].
    rewrite Hy by now left. cbn [JSON.deliver continue_with].
    rewrite IH. cbn [List.rev]. now rewrite <- List.app_assoc.
Qed.

Lemma prun_members (stk : list JSON.ctx) (ts : list JSON.token)
    (rest : list (string * json)) :
  List.Forall (fun kv => forall stk m ts, takes_value m ->
                 JSON.prun (stk, m) (tokens (snd kv) ++ ts)%list
                 = continue_with (JSON.deliver (snd kv) stk) ts) rest ->
  forall done,
    JSON.prun (JSON.CObj done :: stk, JSON.MAfter)
      (List.flat_map
         (fun kv => JSON.TComma :: JSON.TStr (fst kv) :: JSON.TColon
                    :: tokens (snd kv)) rest
       ++ JSON.TRBrace :: ts)%list
    = continue_with (JSON.deliver (JObj (List.rev done ++ rest)%list) stk) ts.
Proof.
  induction 1 as [|[k v] l Hy Hl IH]; intros done.
  - cbn [List.flat_map List.app]. rewrite prun_cons. cbn [JSON.pstep].
    now rewrite List.app_nil_r.
  - cbn [List.flat_map fst snd]. cbn [fst snd] in Hy.
    rewrite <- !List.app_assoc, <- !List.app_comm_cons.
    rewrite !prun_cons. cbn [JSON.pstep continue_with].
    rewrite prun_cons. cbn [JSON.pstep continue_with].
    rewrite prun_cons. cbn [JSON.pstep continue_with].
    rewrite Hy by now left. cbn [JSON.deliver continue_with].
    rewrite IH. cbn [List.rev]. now rewrite <- List.app_assoc.
Qed.

Lemma prun_tokens (v : json) :
  forall (stk : list JSON.ctx) (m : JSON.mode) (ts : list JSON.token),
    takes_value m ->
    JSON.prun (stk, m) (tokens v ++ ts)%list
    = continue_with (JSON.deliver v stk) ts.
Proof.
  induction v as [|b|n e|s|items IH|fields IH] using json_nested_ind;
    intros stk m ts Hm.
  - destruct Hm as [-> | ->]; reflexivity.
  - destruct Hm as [-> | ->]; destruct b; reflexivity.
  - destruct Hm as [-> | ->]; reflexivity.
  - destruct Hm as [-> | ->]; reflexivity.
  - destruct items as [|x rest].
    + destruct Hm as [-> | ->]; reflexivity.
    + inversion IH as [|? ? IHx IHrest]; subst.
      cbn [tokens]. rewrite <- List.app_comm_cons, prun_cons.
      assert (Hopen : JSON.pstep (stk, m) JSON.TLBracket
                      = Some (JSON.CArr [] :: stk, JSON.MArrStart))
        by (destruct Hm as [-> | ->]; reflexivity).
      rewrite Hopen. cbn [continue_with].
      rewrite <- !List.app_assoc. rewrite IHx by now right.
      cbn [JSON.deliver continue_with List.app].
      now rewrite (prun_items stk ts rest IHrest [x]).
  - destruct fields as [|[k v] rest].
    + destruct Hm as [-> | ->]; reflexivity.
    + inversion IH as [|? ? IHx IHrest]; subst. cbn [snd] in IHx.
      cbn [tokens fst snd]. rewrite <- !List.app_comm_cons, prun_cons.
      assert (Hopen : JSON.pstep (stk, m) JSON.TLBrace
                      = Some (JSON.CObj [] :: stk, JSON.MObjStart))
        by (destruct Hm as [-> | ->]; reflexivity).
      rewrite Hopen. cbn [continue_with].
      rewrite prun_cons. cbn [JSON.pstep continue_with].
      rewrite prun_cons. cbn [JSON.pstep continue_with].
      rewrite <- !List.app_assoc. rewrite IHx by now left.
      cbn [JSON.deliver continue_with List.app].
      now rewrite (prun_members stk ts rest IHrest [(k, v)]).
Qed.

(** [JSON.parse(JSON.stringify(v, null, gap))] is [v], for a value whose
    numbers are integers. *)
Lemma parse_stringify (gap : nat) (v : json) :
  integral v = true -> JSON.parse (JSON.stringify gap v) = Some v.
Proof.
  intros Hv. unfold JSON.parse, JSON.lex, JSON.stringify.
  rewrite <- (append_nil_r (JSON.stringify_at gap 0 v)).
  rewrite (lex_stringify gap v 0 EmptyString Hv eq_refl).
  cbn [JSON.lex_from JSON.finish]. unfold emit. cbn [option_map].
  unfold JSON.parse_tokens.
  rewrite (prun_tokens v [] JSON.MValue [] (or_introl eq_refl)).
  reflexivity.
Qed.

(** ** The typed values through JSON *)

Lemma all_some_map {A B : Type} (f : B -> option A) (g : A -> B)
    (l : list A) :
  (forall x, f (g x) = Some x) ->
  View.all_some f (List.map g l) = Some l.
Proof.
  intros H. induction l as [|x l IH]; [reflexivity|].
  cbn [List.map View.all_some]. now rewrite H, IH.
Qed.

Lemma as_integer_integer (z : Z) : View.as_integer (JNum z 0) = Some z.
Proof. cbn. now rewrite Z.mul_1_r. Qed.

Lemma Attachment_of_to_json (a : Attachment.t) :
  View.Attachment_of_json (View.Attachment_to_json a) = Some a.
Proof.
  destruct a as [i n t mi d p z].
  unfold View.Attachment_of_json, View.Attachment_to_json, View.req, View.opt.
  destruct t, d, p, z; cbn; rewrite ?Z.mul_1_r; reflexivity.
Qed.

Lemma Message_of_to_json (m : Message.t) :
  View.Message_of_json (View.Message_to_json m) = Some m.
Proof.
  destruct m as [i r c t a].
  unfold View.Message_of_json, View.Message_to_json, View.req, View.opt.
  destruct r, a as [l|]; cbn; rewrite ?Z.mul_1_r;
    try rewrite (all_some_map _ _ l Attachment_of_to_json); reflexivity.
Qed.

Lemma forallb_map_true {A B : Type} (p : B -> bool) (g : A -> B)
    (l : list A) :
  (forall x, p (g x) = true) -> List.forallb p (List.map g l) = true.
Proof.
  intros H. induction l as [|x l IH]; [reflexivity|].
  cbn. now rewrite H, IH.
Qed.

Lemma integral_Attachment (a : Attachment.t) :
  integral (View.Attachment_to_json a) = true.
Proof.
  destruct a as [i n t mi d p z]. destruct d, p, z; reflexivity.
Qed.

Lemma integral_Message (m : Message.t) :
  integral (View.Message_to_json m) = true.
Proof.
  destruct m as [i r c t a]. destruct a as [l|]; cbn; [|reflexivity].
  now rewrite (forallb_map_true integral _ l integral_Attachment).
Qed.

Lemma integral_Chat (c : Chat.t) : integral (View.Chat_to_json c) = true.
Proof.
  cbn. now rewrite (forallb_map_true integral _ _ integral_Message).
Qed.

(** ** C5: export, then import *)

Lemma length_append (a b : string) :
  String.length (a ++ b) = String.length a + String.length b.
Proof. induction a; simpl; auto. Qed.

Lemma substring_tail (a b : string) :
  substring (String.length a) (String.length b) (a ++ b) = b.
Proof.
  induction a; simpl; auto.
  induction b; simpl; [reflexivity | now f_equal].
Qed.

Lemma substring_head (a b : string) :
  substring 0 (String.length a) (a ++ b) = a.
Proof.
  induction a; simpl; [now destruct b | now f_equal].
Qed.

Lemma strip_suffix_append (t : string) :
  Str.strip_suffix ".json" (t ++ ".json") = t.
Proof.
  unfold Str.strip_suffix. rewrite length_append.
  change (String.length ".json") with 5.
  replace (5 <=? String.length t + 5)%nat with true
    by (symmetry; apply Nat.leb_le; lia).
  replace (String.length t + 5 - 5) with (String.length t) by lia.
  pose proof (substring_tail t ".json") as Htail.
  cbn [String.length] in Htail. rewrite Htail.
  now rewrite (substring_head t ".json").
Qed.

Lemma export_then_import (s : State) (c : Chat.t) :
  ProChat.activeChat s = Some c ->
  exists f,
    ProChat.exportChat s = Some f
    /\ forall (id : string) (s' : State),
         ProChat.importChat f id s'
         = ProChat.Imported
             (imported (Chat.mk id (reimported_title c) (Chat.messages c)) s').
Proof.
  intros Ha. unfold ProChat.exportChat. rewrite Ha.
  eexists. split; [reflexivity|]. intros id s'.
  unfold ProChat.importChat. cbn [ProChat.File.text ProChat.File.name].
  rewrite (parse_stringify 2 _ (integral_Chat c)).
  cbn [ProChat.import_messages View.Chat_to_json JSON.truthy JSON.prop
       JSON.field String.eqb Ascii.eqb Bool.eqb].
  cbn [ProChat.import_title View.Chat_to_json JSON.prop JSON.field
       String.eqb Ascii.eqb Bool.eqb].
  rewrite (all_some_map _ _ _ Message_of_to_json).
  unfold reimported_title.
  destruct (Chat.title c) as [|a t] eqn:E; [|reflexivity].
  cbn [Str.is_empty]. now rewrite (strip_suffix_append "chat").
Qed.

Lemma activeChat_imported (c : Chat.t) (s : State) :
  ProChat.activeChat (imported c s) = Some c.
Proof.
  unfold ProChat.activeChat, imported. cbn. now rewrite String.eqb_refl.
Qed.

(** C5, amended.  For a conversation whose title is not empty, the file
    [exportChat] writes is accepted by [importChat], and the conversation it
    makes (under the fresh identifier [id], first in the list and active)
    has the title and the messages of the exported one. *)
Theorem export_import_roundtrip (s : State) (c : Chat.t) :
  ProChat.activeChat s = Some c ->
  Chat.title c <> EmptyString ->
  exists f,
    ProChat.exportChat s = Some f
    /\ forall (id : string) (s' : State),
         ProChat.importChat f id s'
         = ProChat.Imported
             (imported (Chat.mk id (Chat.title c) (Chat.messages c)) s')
         /\ ProChat.activeChat
              (imported (Chat.mk id (Chat.title c) (Chat.messages c)) s')
            = Some (Chat.mk id (Chat.title c) (Chat.messages c)).
Proof.
  intros Ha Ht. destruct (export_then_import s c Ha) as (f & Hf & Hi).
  exists f. split; [exact Hf|]. intros id s'.
  split; [|apply activeChat_imported].
  rewrite Hi. unfold reimported_title.
  destruct (Chat.title c); [contradiction | reflexivity].
Qed.

Lemma export_import_roundtrip_witness :
  exists f,
    ProChat.exportChat edit_state = Some f
    /\ forall (id : string) (s' : State),
         ProChat.importChat f id s'
         = ProChat.Imported
             (imported (Chat.mk id "hi" (Chat.messages edit_chat)) s')
         /\ ProChat.activeChat
              (imported (Chat.mk id "hi" (Chat.messages edit_chat)) s')
            = Some (Chat.mk id "hi" (Chat.messages edit_chat)).
Proof.
  refine (export_import_roundtrip edit_state edit_chat eq_refl _).
  discriminate.
Defined.

(** C5 as stated fails for a conversation without title: the file is named
    [chat.json], the title in it is empty, and the import takes the file
    name, so the conversation comes back titled [chat]. *)
Lemma export_import_changes_empty_title :
  exists f s',
    ProChat.exportChat untitled_state = Some f
    /\ ProChat.File.name f = "chat.json"
    /\ ProChat.importChat f "c2" untitled_state = ProChat.Imported s'
    /\ option_map Chat.title (ProChat.activeChat s') = Some "chat"
    /\ option_map Chat.title (ProChat.activeChat s')
       <> Some (Chat.title untitled_chat)
    /\ option_map Chat.messages (ProChat.activeChat s')
       = Some (Chat.messages untitled_chat).
Proof.
  eexists. eexists.
  split; [reflexivity|]. split; [reflexivity|].
  split; [vm_compute; reflexivity|].
  split; [reflexivity|]. split; [discriminate | reflexivity].
Qed.

(** ** C6: what [importChat] accepts *)

Lemma import_messages_iff (obj : json) (items : list json) :
  ProChat.import_messages obj = Some items <-> has_message_array obj items.
Proof.
  unfold ProChat.import_messages, has_message_array. split.
  - destruct obj as [|b|m e|s|l|fields]; cbn [JSON.prop];
      try (destruct (JSON.truthy _); discriminate).
    cbn [JSON.truthy].
    destruct (JSON.field "messages" fields) as [[| | | |l|]|] eqn:E;
      try discriminate.
    intros [= <-]. now exists fields.
  - intros (fields & -> & H). cbn. now rewrite H.
Qed.

(** C6 as stated fails for an empty message array: the document
    [{"title":"T","messages":[]}] is accepted without an alert, and a new
    conversation, titled [T] and empty, is put first and made active. *)
Lemma importChat_accepts_empty_messages :
  ProChat.importChat
    (ProChat.File.mk "saved.json" empty_messages_document) "c2" sole_state
  = ProChat.Imported (imported (Chat.mk "c2" "T" []) sole_state)
  /\ List.map Chat.id (chats (imported (Chat.mk "c2" "T" []) sole_state))
     = ["c2"; "c1"]
  /\ alerts (imported (Chat.mk "c2" "T" []) sole_state) = [].
Proof. vm_compute. repeat split. Qed.

(** The conversation [importChat] makes, read at the declared types. *)
Lemma import_chat_typed (id : string) (obj : json) (name : string)
    (items : list json) :
  View.Chat_of_json
    (ProChat.import_chat id (ProChat.import_title_value obj name) items)
  = match ProChat.import_title obj name,
          View.all_some View.Message_of_json items with
    | Some title, Some msgs => Some (Chat.mk id title msgs)
    | _, _ => None
    end.
Proof.
  unfold ProChat.import_chat, View.Chat_of_json, View.req.
  cbn [JSON.prop JSON.field String.eqb Ascii.eqb Bool.eqb View.as_string
         View.as_array].
  unfold ProChat.import_title_value, ProChat.import_title.
  destruct (JSON.prop "title" obj) as [[|b|m e|t|l|fields]|];
    cbn [JSON.truthy]; try destruct b;
    try destruct (negb (JSON.Number.is_zero (JSON.Number.of_decimal m e)));
    try (destruct t as [|a t]; cbn [Str.is_empty negb]);
    destruct (View.all_some View.Message_of_json items); reflexivity.
Qed.

(** C6, amended.  [importChat] accepts a document exactly when it parses as
    JSON and holds a message array, empty or not.  Otherwise it reports a
    format error and leaves the conversations and the active one as they
    were.  When it accepts a document, it makes a conversation of the fresh
    identifier, of the title of the document, or of the name of the file
    without its [.json] suffix when the title is absent, and of the message
    array as it was parsed; it puts this conversation first in the list and
    makes it the active one, without an alert.  In the state of the
    declared types that is the conversation read at those types, first and
    active. *)
Theorem importChat_accepts_message_array
    (f : ProChat.File.t) (id : string) (s : State) :
  let st' := ProChat.importChat_store f id (ProChat.store s) in
  (* rejection *)
  ((forall obj items, JSON.parse (ProChat.File.text f) = Some obj ->
                      ~ has_message_array obj items) ->
   exists msg,
     (msg = "Failed to parse JSON" \/ msg = "Invalid chat JSON")
     /\ ProChat.Store.chats st' = List.map View.Chat_to_json (chats s)
     /\ ProChat.Store.activeChatId st' = activeChatId s
     /\ ProChat.Store.alerts st' = (alerts s ++ [msg])%list
     /\ ProChat.importChat f id s = ProChat.Alerted (add_alert msg s)
     /\ chats (add_alert msg s) = chats s
     /\ activeChatId (add_alert msg s) = activeChatId s
     /\ alerts (add_alert msg s) = (alerts s ++ [msg])%list)
  (* acceptance *)
  /\ (forall fields items,
        JSON.parse (ProChat.File.text f) = Some (JObj fields) ->
        JSON.field "messages" fields = Some (JArr items) ->
        exists title,
          ProChat.Store.chats st'
          = JObj [("id", JStr id); ("title", title);
                  ("messages", JArr items)]
            :: List.map View.Chat_to_json (chats s)
          /\ ProChat.Store.activeChatId st' = Some id
          /\ ProChat.Store.alerts st' = alerts s
          (* the title *)
          /\ (JSON.field "title" fields = None ->
              title = JStr (Str.strip_suffix ".json" (ProChat.File.name f)))
          /\ (forall t,
                JSON.field "title" fields = Some (JStr t) ->
                t <> EmptyString -> title = JStr t)
          (* in the state of the declared types *)
          /\ (forall s', ProChat.importChat f id s <> ProChat.Alerted s')
          /\ (forall c,
                View.Chat_of_json
                  (JObj [("id", JStr id); ("title", title);
                         ("messages", JArr items)]) = Some c ->
                ProChat.importChat f id s = ProChat.Imported (imported c s)
                /\ chats (imported c s) = c :: chats s
                /\ ProChat.activeChat (imported c s) = Some c
                /\ alerts (imported c s) = alerts s)
          /\ (View.Chat_of_json
                (JObj [("id", JStr id); ("title", title);
                       ("messages", JArr items)]) = None ->
              ProChat.importChat f id s = ProChat.ImportedUntyped)).
Proof.
  cbv zeta. split.
  - intros Hno. unfold ProChat.importChat_store, ProChat.importChat.
    destruct (JSON.parse (ProChat.File.text f)) as [obj|];
      [|eexists; split; [now left | repeat split]].
    destruct (ProChat.import_messages obj) as [items|] eqn:E;
      [|eexists; split; [now right | repeat split]].
    exfalso. apply (Hno obj items eq_refl). now apply import_messages_iff.
  - intros fields items Hp Hf.
    assert (Hm : ProChat.import_messages (JObj fields) = Some items).
    { apply import_messages_iff. now exists fields. }
    unfold ProChat.importChat_store, ProChat.importChat.
    rewrite Hp, Hm.
    exists (ProChat.import_title_value (JObj fields) (ProChat.File.name f)).
    split; [reflexivity|]. split; [reflexivity|]. split; [reflexivity|].
    split.
    { intros Ht. unfold ProChat.import_title_value, JSON.prop.
      now rewrite Ht. }
    split.
    { intros t Ht Hne. unfold ProChat.import_title_value, JSON.prop.
      rewrite Ht. destruct t; [contradiction | reflexivity]. }
    split.
    { intros s'.
      destruct (ProChat.import_title _ _),
        (View.all_some View.Message_of_json items); discriminate. }
    change (JObj [("id", JStr id);
                  ("title",
                   ProChat.import_title_value (JObj fields)
                     (ProChat.File.name f));
                  ("messages", JArr items)])
      with (ProChat.import_chat id
              (ProChat.import_title_value (JObj fields)
                 (ProChat.File.name f)) items).
    rewrite import_chat_typed.
    destruct (ProChat.import_title _ _) as [title|];
      [destruct (View.all_some View.Message_of_json items) as [msgs|]|];
      (split; [intros c Hc | intros Hc]); try discriminate;
      try reflexivity.
    injection Hc as <-.
    split; [reflexivity|]. split; [reflexivity|].
    split; [apply activeChat_imported | reflexivity].
Qed.

Lemma importChat_accepts_message_array_witness :
  (* a title and no messages: the alert, nothing else *)
  (exists msg,
     (msg = "Failed to parse JSON" \/ msg = "Invalid chat JSON")
     /\ ProChat.Store.chats
          (ProChat.importChat_store
             (ProChat.File.mk "saved.json" titled_document) "c2"
             (ProChat.store sole_state))
        = [JObj [("id", JStr "c1"); ("title", JStr "New Chat");
                 ("messages", JArr [])]]
     /\ ProChat.Store.activeChatId
          (ProChat.importChat_store
             (ProChat.File.mk "saved.json" titled_document) "c2"
             (ProChat.store sole_state))
        = Some "c1"
     /\ ProChat.Store.alerts
          (ProChat.importChat_store
             (ProChat.File.mk "saved.json" titled_document) "c2"
             (ProChat.store sole_state))
        = [msg])
  (* a message without identifier and time, and no title *)
  /\ ProChat.Store.chats
       (ProChat.importChat_store
          (ProChat.File.mk "saved.json" bare_messages_document) "c2"
          (ProChat.store sole_state))
     = [ JObj [("id", JStr "c2"); ("title", JStr "saved");
               ("messages",
                JArr [JObj [("role", JStr "user");
                            ("content", JStr "hi")]])];
         JObj [("id", JStr "c1"); ("title", JStr "New Chat");
               ("messages", JArr [])] ]
  /\ ProChat.Store.activeChatId
       (ProChat.importChat_store
          (ProChat.File.mk "saved.json" bare_messages_document) "c2"
          (ProChat.store sole_state))
     = Some "c2"
  /\ ProChat.Store.alerts
       (ProChat.importChat_store
          (ProChat.File.mk "saved.json" bare_messages_document) "c2"
          (ProChat.store sole_state))
     = [].
Proof.
  split.
  - destruct (proj1 (importChat_accepts_message_array
                       (ProChat.File.mk "saved.json" titled_document) "c2"
                       sole_state))
      as (msg & Hmsg & Hc & Ha & Hal & _).
    + intros obj items Hp (fields & -> & Hf).
      vm_compute in Hp. injection Hp as <-. vm_compute in Hf. discriminate.
    + exists msg. exact (conj Hmsg (conj Hc (conj Ha Hal))).
  - destruct (proj2 (importChat_accepts_message_array
                       (ProChat.File.mk "saved.json" bare_messages_document)
                       "c2" sole_state)
                [("messages",
                  JArr [JObj [("role", JStr "user");
                              ("content", JStr "hi")]])]
                [JObj [("role", JStr "user"); ("content", JStr "hi")]]
                eq_refl eq_refl)
      as (title & Hc & Ha & Hal & Ht & _).
    rewrite (Ht eq_refl) in Hc.
    exact (conj Hc (conj Ha Hal)).
Defined.

(** The example of the specification: a document with a title and no
    [messages] member is rejected with the alert [Invalid chat JSON], and no
    conversation is made. *)
Example importChat_rejects_title_only :
  ProChat.importChat (ProChat.File.mk "saved.json" titled_document) "c2"
    sole_state
  = ProChat.Alerted (add_alert "Invalid chat JSON" sole_state)
  /\ chats (add_alert "Invalid chat JSON" sole_state) = chats sole_state.
Proof. vm_compute. split; reflexivity. Qed.

(** The list holds the messages of an accepted document as they were
    parsed, with the members the interface does not declare; the state of
    the declared types shows the declared members of them. *)
Example importChat_keeps_members :
  ProChat.Store.chats
    (ProChat.importChat_store
       (ProChat.File.mk "saved.json" starred_document) "c2"
       (ProChat.store sole_state))
  = [ JObj [("id", JStr "c2"); ("title", JStr "T");
            ("messages", JArr [starred_message])];
      JObj [("id", JStr "c1"); ("title", JStr "New Chat");
            ("messages", JArr [])] ]
  /\ ProChat.importChat (ProChat.File.mk "saved.json" starred_document)
       "c2" sole_state
     = ProChat.Imported
         (imported
            (Chat.mk "c2" "T" [Message.mk "m1" user "hi" 1%Z None])
            sole_state).
Proof. vm_compute. split; reflexivity. Qed.

(** ** The simple screen: one request at a time *)

Lemma existsb_eqb_bound (n : nat) (l : list nat) :
  List.Forall (fun i => i < n) l -> List.existsb (Nat.eqb n) l = false.
Proof.
  induction 1 as [|i l Hi Hl IH]; [reflexivity|]. cbn. rewrite IH.
  rewrite orb_false_r. apply Nat.eqb_neq. lia.
Qed.

Lemma in_flight_add_request (r : HuggingFaceChatApp.Request.t)
    (s : HuggingFaceChatApp.State) :
  List.Forall (fun i => i < List.length (HuggingFaceChatApp.requests s))
    (HuggingFaceChatApp.settled s) ->
  HuggingFaceChatApp.in_flight (HuggingFaceChatApp.add_request r s)
  = (HuggingFaceChatApp.in_flight s
     ++ [List.length (HuggingFaceChatApp.requests s)])%list.
Proof.
  intros Hb. unfold HuggingFaceChatApp.in_flight. cbn.
  rewrite List.length_app, Nat.add_1_r, List.seq_S, List.filter_app. cbn.
  now rewrite (existsb_eqb_bound _ _ Hb).
Qed.

Lemma filter_filter {A : Type} (p q : A -> bool) (l : list A) :
  List.filter (fun x => p x && q x) l = List.filter q (List.filter p l).
Proof.
  induction l as [|x l IH]; [reflexivity|]. cbn.
  destruct (p x); cbn; [destruct (q x)|]; now rewrite IH.
Qed.

Lemma in_flight_add_settled (n : nat) (s : HuggingFaceChatApp.State) :
  HuggingFaceChatApp.in_flight (HuggingFaceChatApp.add_settled n s)
  = List.filter (fun i => negb (Nat.eqb i n)) (HuggingFaceChatApp.in_flight s).
Proof.
  unfold HuggingFaceChatApp.in_flight. cbn. rewrite <- filter_filter.
  apply List.filter_ext. intros i. rewrite List.existsb_app. cbn.
  now rewrite orb_false_r, negb_orb.
Qed.

(** What [sendMessage] leaves of the state outside the messages and the
    console, once its request is answered. *)
Lemma sendMessage_resume_shell (n : nat) (res : HuggingFaceChatApp.FetchResult)
    (now : Z) (s : HuggingFaceChatApp.State) :
  let s' := exec (HuggingFaceChatApp.sendMessage_resume n res now) s in
  HuggingFaceChatApp.isLoading s' = false
  /\ HuggingFaceChatApp.requests s' = HuggingFaceChatApp.requests s
  /\ HuggingFaceChatApp.settled s'
     = (HuggingFaceChatApp.settled s ++ [n])%list
  /\ HuggingFaceChatApp.in_flight s'
     = List.filter (fun i => negb (Nat.eqb i n))
         (HuggingFaceChatApp.in_flight s).
Proof.
  unfold HuggingFaceChatApp.sendMessage_resume. run_handler.
  match goal with
  | |- context [match ?body s with _ => _ end] =>
      destruct (body s) as [r s1] eqn:E
  end.
  assert (Hs1 : HuggingFaceChatApp.requests s1 = HuggingFaceChatApp.requests s
                /\ HuggingFaceChatApp.settled s1
                   = HuggingFaceChatApp.settled s).
  { revert E. destruct res as [e|res]; run_handler.
    - intros [= <- <-]. split; reflexivity.
    - destruct (negb (HuggingFaceChatApp.Response.ok res)).
      + unfold HuggingFaceChatApp.error_detail.
        destruct (HuggingFaceChatApp.Response.data res) as [[| | | | |]|];
          run_handler;
          try (intros [= <- <-]; split; reflexivity);
          (destruct (ProChat.chain _ _) as [v|];
           [destruct (JSON.truthy v); [destruct (JSON.to_string v)|]|]);
          intros [= <- <-]; split; reflexivity.
      + destruct (HuggingFaceChatApp.Response.data res) as [data|];
          run_handler; [|intros [= <- <-]; split; reflexivity].
        destruct (ProChat.chain _ _) as [content|];
          [|intros [= <- <-]; split; reflexivity].
        destruct (JSON.truthy content); intros [= <- <-]; split; reflexivity. }
  destruct Hs1 as [Hr Hst].
  destruct r as [[]|e]; cbn [snd];
    (split; [reflexivity|]); (split; [exact Hr|]);
    (split; [cbn; now rewrite Hst|]);
    rewrite in_flight_add_settled; f_equal;
    unfold HuggingFaceChatApp.in_flight; cbn; now rewrite Hr, Hst.
Qed.

Lemma simple_invariant_step (s : HuggingFaceChatApp.State)
    (e : HuggingFaceChatApp.Event) :
  simple_invariant s -> simple_invariant (HuggingFaceChatApp.step s e).
Proof.
  intros [Hb Hstate].
  destruct e as [v|now|res now]; cbn [HuggingFaceChatApp.step].
  - split; [exact Hb | exact Hstate].
  - unfold HuggingFaceChatApp.sendMessage_begin. run_handler.
    destruct (Str.is_empty _ || HuggingFaceChatApp.isLoading s) eqn:G;
      [split; [exact Hb | exact Hstate]|].
    apply orb_false_iff in G. destruct G as [_ Hl].
    destruct Hstate as [[_ Hf] | [Hl' _]]; [|congruence].
    split.
    + cbn. rewrite List.length_app. cbn.
      eapply List.Forall_impl; [|exact Hb]. cbn. intros; lia.
    + right. split; [reflexivity|].
      eexists.
      match goal with
      | |- HuggingFaceChatApp.in_flight
             (HuggingFaceChatApp.add_request ?r ?x) = _ =>
          rewrite (in_flight_add_request r x Hb)
      end.
      change (HuggingFaceChatApp.in_flight _)
        with (HuggingFaceChatApp.in_flight s).
      rewrite Hf. reflexivity.
  - destruct (HuggingFaceChatApp.in_flight s) as [|n rest] eqn:Hf;
      [split; [exact Hb | rewrite Hf; exact Hstate]|].
    destruct (sendMessage_resume_shell n res now s) as (Hl & Hr & Hst & Hfl).
    assert (Hn : n < List.length (HuggingFaceChatApp.requests s)).
    { assert (Hin : List.In n (HuggingFaceChatApp.in_flight s))
        by (rewrite Hf; now left).
      unfold HuggingFaceChatApp.in_flight in Hin.
      apply List.filter_In in Hin. destruct Hin as [Hin _].
      apply List.in_seq in Hin. lia. }
    split.
    + rewrite Hr, Hst. apply List.Forall_app. split; [exact Hb|].
      constructor; [exact Hn | constructor].
    + left. split; [exact Hl|]. rewrite Hfl, Hf.
      destruct Hstate as [[_ Hf'] | [_ [n' Hf']]]; [discriminate|].
      injection Hf' as -> ->. cbn. now rewrite Nat.eqb_refl.
Qed.

Lemma simple_invariant_run (es : list HuggingFaceChatApp.Event)
    (s : HuggingFaceChatApp.State) :
  simple_invariant s -> simple_invariant (HuggingFaceChatApp.run s es).
Proof.
  revert s. induction es as [|e es IH]; intros s H; [exact H|].
  cbn. apply IH. now apply simple_invariant_step.
Qed.

(** X19.  The simple screen has at most one request in flight.  In every
    state that typing, sending and the arrival of answers lead to from the
    opening of the chat view, a request in flight is the only one, and a
    send at that time does nothing: [sendMessage] raises [isLoading] before
    it calls [fetch] and lowers it only when the call has settled. *)
Lemma sendMessage_while_in_flight (cfg : HuggingFaceChatApp.ModelConfig.t)
    (style : AssistantStyle) (msgs : list HuggingFaceChatApp.Message.t)
    (es : list HuggingFaceChatApp.Event) (now : Z) :
  let s := HuggingFaceChatApp.run
             (HuggingFaceChatApp.initial cfg style msgs) es in
  HuggingFaceChatApp.in_flight s <> [] ->
  HuggingFaceChatApp.sendMessage_begin now s = (Ok None, s)
  /\ List.length (HuggingFaceChatApp.in_flight s) = 1.
Proof.
  intros s Hf.
  assert (Hinv : simple_invariant s).
  { apply simple_invariant_run. split; [constructor|]. left. now split. }
  destruct Hinv as [_ [[_ H] | [Hl [n Hn]]]]; [contradiction|].
  split; [|now rewrite Hn].
  unfold HuggingFaceChatApp.sendMessage_begin. run_handler.
  now rewrite Hl, orb_true_r.
Qed.

Lemma sendMessage_while_in_flight_witness :
  HuggingFaceChatApp.sendMessage_begin 2%Z simple_sent = (Ok None, simple_sent)
  /\ List.length (HuggingFaceChatApp.in_flight simple_sent) = 1.
Proof.
  refine (sendMessage_while_in_flight simple_config Claude []
            [HuggingFaceChatApp.Type_ "hi"; HuggingFaceChatApp.Send 1%Z]
            2%Z _).
  vm_compute. discriminate.
Defined.

(** * Further properties of the two screens *)

(** ** Chat management *)

Lemma find_filter_keeps {A : Type} (p q : A -> bool) (l : list A) (a : A) :
  List.find p l = Some a -> q a = true ->
  List.find p (List.filter q l) = Some a.
Proof.
  induction l as [|x l IH]; cbn; [discriminate|].
  destruct (p x) eqn:Hp.
  - intros [= ->] Hq. rewrite Hq. cbn. now rewrite Hp.
  - intros Hf Hq. destruct (q x); cbn; [rewrite Hp|]; now apply IH.
Qed.

Lemma find_hd_filter {A : Type} (p : A -> bool) (l : list A) :
  List.find p l = List.hd_error (List.filter p l).
Proof.
  induction l as [|x l IH]; cbn; [reflexivity|].
  destruct (p x); [reflexivity | exact IH].
Qed.

(** Among two or more conversations with distinct identifiers, one has
    another identifier than [id]. *)
Lemma other_chat (l : list Chat.t) (id : string) :
  List.NoDup (List.map Chat.id l) -> 2 <= List.length l ->
  exists c, List.find (fun c => negb (String.eqb (Chat.id c) id)) l = Some c.
Proof.
  destruct l as [|x [|y l]]; cbn; try lia.
  intros Hnd _.
  destruct (String.eqb (Chat.id x) id) eqn:Hx; cbn; [|now exists x].
  destruct (String.eqb (Chat.id y) id) eqn:Hy; cbn; [|now exists y].
  apply String.eqb_eq in Hx, Hy. inversion Hnd as [|? ? Hn _]; subst.
  exfalso. apply Hn. left. congruence.
Qed.

(** X1.  In a list of two or more conversations with distinct identifiers,
    one of them active, [deleteChat] returns normally, removes the
    conversations with the given identifier and leaves a conversation
    active: the one that was active when another one is deleted, and the
    first of the conversations that remain when the active one is. *)
Theorem deleteChat_keeps_selection (s : State) (id : string) (a : Chat.t) :
  List.NoDup (List.map Chat.id (chats s)) ->
  2 <= List.length (chats s) ->
  ProChat.activeChat s = Some a ->
  let out := ProChat.deleteChat id s in
  fst out = Ok tt
  /\ chats (snd out)
     = List.filter (fun c => negb (String.eqb (Chat.id c) id)) (chats s)
  /\ (Chat.id a <> id -> ProChat.activeChat (snd out) = Some a)
  /\ (Chat.id a = id ->
      exists c, List.hd_error (chats (snd out)) = Some c
                /\ ProChat.activeChat (snd out) = Some c).
Proof.
  intros Hnd Hlen Ha out. subst out.
  pose proof (activeChat_same_id s a Ha) as Hid.
  destruct (activeChatId s) as [cur|] eqn:Hcur; [|discriminate].
  cbn [same_id] in Hid. apply String.eqb_eq in Hid. subst cur.
  destruct (other_chat (chats s) id Hnd Hlen) as (c & Hc).
  unfold ProChat.deleteChat. run_handler. rewrite Hcur. cbn [same_id].
  assert (Hlt : Nat.ltb 1 (List.length (chats s)) = true)
    by now apply Nat.ltb_lt.
  rewrite Hlt, andb_true_r.
  destruct (String.eqb id (Chat.id a)) eqn:E.
  - apply String.eqb_eq in E. subst id. rewrite Hc.
    cbn [fst snd chats set_chats set_activeChatId].
    repeat split.
    + intros H. now contradiction H.
    + intros _. exists c. rewrite find_hd_filter in Hc. split; [exact Hc|].
      unfold ProChat.activeChat.
      cbn [chats activeChatId set_chats set_activeChatId].
      destruct (List.filter _ (chats s)) as [|c' l']; [discriminate|].
      injection Hc as ->. cbn. now rewrite String.eqb_refl.
  - cbn [fst snd chats set_chats]. repeat split.
    + intros Hne. unfold ProChat.activeChat.
      cbn [chats activeChatId set_chats]. rewrite Hcur.
      apply find_filter_keeps.
      * unfold ProChat.activeChat in Ha. now rewrite Hcur in Ha.
      * apply negb_true_iff. now apply String.eqb_neq.
    + intros Heq. subst id. now rewrite String.eqb_refl in E.
Qed.

Lemma deleteChat_keeps_selection_witness :
  let s :=
    mkState [Chat.mk "c2" "New Chat" []; edit_chat] (Some "c2") Claude
      EmptyString sole_config false None EmptyString [] [] [] [] [] [] in
  let out := ProChat.deleteChat "c2" s in
  fst out = Ok tt
  /\ chats (snd out) = [edit_chat]
  /\ exists c, List.hd_error (chats (snd out)) = Some c
               /\ ProChat.activeChat (snd out) = Some c.
Proof.
  pose proof (deleteChat_keeps_selection
                (mkState [Chat.mk "c2" "New Chat" []; edit_chat] (Some "c2")
                   Claude EmptyString sole_config false None EmptyString []
                   [] [] [] [] [])
                "c2" (Chat.mk "c2" "New Chat" [])) as H.
  cbv zeta in H |- *.
  refine ((fun H' => conj (proj1 H')
             (conj (proj1 (proj2 H'))
                (proj2 (proj2 (proj2 H')) eq_refl))) (H _ _ eq_refl)).
  - repeat constructor; cbn; intuition discriminate.
  - cbn. lia.
Defined.

(** X2.  A conversation made by [newChat] under a fresh identifier and then
    deleted leaves the list of conversations as it was before, with an empty
    composer; the active conversation is then the first of the list,
    whichever was active before. *)
Theorem newChat_then_deleteChat (s : State) (id : string) :
  ~ List.In id (List.map Chat.id (chats s)) ->
  let s1 := exec (ProChat.newChat id) s in
  let out := ProChat.deleteChat id s1 in
  ProChat.activeChat s1 = Some (Chat.mk id "New Chat" [])
  /\ fst out = Ok tt
  /\ chats (snd out) = chats s
  /\ activeChatId (snd out)
     = match chats s with
       | c :: _ => Some (Chat.id c)
       | [] => Some id
       end
  /\ inputMessage (snd out) = EmptyString
  /\ attachments (snd out) = [].
Proof.
  intros Hfresh s1 out. subst out s1.
  assert (Hfilter :
    List.filter (fun c => negb (String.eqb (Chat.id c) id)) (chats s)
    = chats s).
  { revert Hfresh. induction (chats s) as [|c l IH]; cbn; [reflexivity|].
    intros H. destruct (String.eqb (Chat.id c) id) eqn:E.
    - apply String.eqb_eq in E. exfalso. apply H. now left.
    - cbn. f_equal. apply IH. intros Hin. apply H. now right. }
  destruct s as [l act sty cus cfg str ab inp att rq st abt con al].
  cbn [chats] in Hfresh, Hfilter.
  unfold ProChat.newChat, ProChat.deleteChat, ProChat.activeChat.
  run_handler.
  destruct l as [|c l]; repeat first [rewrite String.eqb_refl | progress cbn];
    [repeat split|].
  cbn in Hfilter.
  destruct (String.eqb (Chat.id c) id) eqn:E.
  - apply String.eqb_eq in E. exfalso. apply Hfresh. now left.
  - repeat first [rewrite String.eqb_refl | progress cbn].
    injection Hfilter as Hfilter. rewrite Hfilter.
    repeat split; now rewrite ?E.
Qed.

Lemma newChat_then_deleteChat_witness :
  let s1 := exec (ProChat.newChat "c2") edit_state in
  let out := ProChat.deleteChat "c2" s1 in
  ProChat.activeChat s1 = Some (Chat.mk "c2" "New Chat" [])
  /\ fst out = Ok tt
  /\ chats (snd out) = chats edit_state
  /\ activeChatId (snd out) = Some "c1"
  /\ inputMessage (snd out) = EmptyString
  /\ attachments (snd out) = [].
Proof.
  refine (newChat_then_deleteChat edit_state "c2" _).
  cbn. intuition discriminate.
Defined.

(** ** The conversations across reloads *)

Lemma Chat_of_to_json (c : Chat.t) :
  View.Chat_of_json (View.Chat_to_json c) = Some c.
Proof.
  destruct c as [i t m].
  unfold View.Chat_of_json, View.Chat_to_json, View.req. cbn.
  now rewrite (all_some_map _ _ m Message_of_to_json).
Qed.

Lemma integral_chats (l : list Chat.t) :
  integral (View.chats_to_json l) = true.
Proof. exact (forallb_map_true integral _ l integral_Chat). Qed.

Lemma stringify_chats_not_empty (l : list Chat.t) :
  Str.is_empty (JSON.stringify 0 (View.chats_to_json l)) = false.
Proof. destruct l; reflexivity. Qed.

(** X3.  What the persisting effects store of a state is read back by the
    initializer as the same list of conversations, without a seed and
    without a line on the console, whatever else the storage holds; the
    conversation active after the reload is the first of the list, not the
    one that was active. *)
Theorem initial_after_persist (s s' : State) (st : ProChat.Storage)
    (id : string) :
  ProChat.initial (ProChat.persist_settings s' (ProChat.persist_chats s st)) id
  = Some (ProChat.Initial.mk (chats s)
            (option_map Chat.id (List.hd_error (chats s))) []).
Proof.
  unfold ProChat.initial, ProChat.persist_settings, ProChat.persist_chats,
    ProChat.setItem.
  cbn [String.eqb ProChat.LS_KEY_CHATS ProChat.LS_KEY_SETTINGS Ascii.eqb
         Bool.eqb].
  rewrite stringify_chats_not_empty.
  rewrite (parse_stringify 0 _ (integral_chats (chats s))).
  unfold View.chats_to_json, View.as_array.
  now rewrite (all_some_map _ _ _ Chat_of_to_json).
Qed.

(** X4.  Deleting the only conversation does not reach the storage.  The
    list becomes empty while the selection stays, so that the render of the
    new state finds no active conversation and throws; the effect that
    stores the list does not run, and the storage keeps the list of the
    last render that went through.  After a reload the conversation is
    there again, and it is the active one. *)
Theorem deleteChat_sole_then_reload (s : State) (c : Chat.t)
    (st : ProChat.Storage) (id : string) :
  chats s = [c] ->
  activeChatId s = Some (Chat.id c) ->
  let stored := ProChat.commit s st in
  let s1 := exec (ProChat.deleteChat (Chat.id c)) s in
  ProChat.render s = Ok tt
  /\ (exists e, ProChat.render s1 = Throw e)
  /\ ProChat.commit s1 stored = stored
  /\ ProChat.initial (ProChat.commit s1 stored) id
     = Some (ProChat.Initial.mk [c] (Some (Chat.id c)) []).
Proof.
  intros Hc Ha stored s1.
  assert (Hr : ProChat.render s = Ok tt).
  { unfold ProChat.render, ProChat.activeChat. rewrite Hc, Ha.
    cbn. now rewrite String.eqb_refl. }
  assert (H1 : ProChat.activeChat s1 = None).
  { subst s1.
    destruct s as [l act sty cus cfg str ab inp att rq sd abt con al].
    cbn [chats activeChatId] in Hc, Ha. subst.
    unfold ProChat.deleteChat, ProChat.activeChat. run_handler. cbn.
    rewrite !String.eqb_refl. cbn. now rewrite String.eqb_refl. }
  assert (Hs : stored = ProChat.persist_chats s st).
  { subst stored. unfold ProChat.commit. now rewrite Hr. }
  assert (Hk : ProChat.commit s1 stored = stored).
  { unfold ProChat.commit, ProChat.render. now rewrite H1. }
  split; [exact Hr|].
  split; [unfold ProChat.render; rewrite H1; now eexists|].
  split; [exact Hk|].
  rewrite Hk, Hs.
  unfold ProChat.initial, ProChat.persist_chats, ProChat.setItem.
  rewrite String.eqb_refl, stringify_chats_not_empty.
  rewrite (parse_stringify 0 _ (integral_chats (chats s))).
  unfold View.chats_to_json, View.as_array.
  rewrite (all_some_map _ _ _ Chat_of_to_json). now rewrite Hc.
Qed.

Lemma deleteChat_sole_then_reload_witness :
  let stored := ProChat.commit sole_state (fun _ => None) in
  let s1 := exec (ProChat.deleteChat "c1") sole_state in
  ProChat.render sole_state = Ok tt
  /\ (exists e, ProChat.render s1 = Throw e)
  /\ ProChat.commit s1 stored = stored
  /\ ProChat.initial (ProChat.commit s1 stored) "c9"
     = Some (ProChat.Initial.mk [Chat.mk "c1" "New Chat" []] (Some "c1") []).
Proof.
  exact (deleteChat_sole_then_reload sole_state (Chat.mk "c1" "New Chat" [])
           (fun _ => None) "c9" eq_refl eq_refl).
Defined.

(** ** The stream: chunks and lines *)

Lemma split_lines_aux_app (a b cur : string) :
  Str.split_lines_aux cur (a ++ LF ++ b)
  = (Str.split_lines_aux cur a ++ Str.split_lines b)%list.
Proof.
  revert cur. induction a as [|c a IH]; intros cur.
  - reflexivity.
  - cbn [String.append Str.split_lines_aux].
    destruct (Ascii.eqb c "010"); [cbn; f_equal|]; apply IH.
Qed.

Lemma split_lines_app (a b : string) :
  Str.split_lines (a ++ LF ++ b)
  = (Str.split_lines a ++ Str.split_lines b)%list.
Proof. apply split_lines_aux_app. Qed.

Lemma process_lines_app (active : option string) (l1 l2 : list string)
    (full : string) (s : State) :
  ProChat.process_lines active full (l1 ++ l2)%list s
  = ProChat.process_lines active (lines_text full l1) l2
      (snd (ProChat.process_lines active full l1 s)).
Proof.
  revert full s. induction l1 as [|line l1 IH]; intros full s.
  - reflexivity.
  - cbn [List.app ProChat.process_lines].
    rewrite !(bind_run _ _ _ _ (process_line_result active full line s)).
    now rewrite IH.
Qed.

Lemma lines_text_app (full : string) (l1 l2 : list string) :
  lines_text full (l1 ++ l2)%list = lines_text (lines_text full l1) l2.
Proof. apply List.fold_left_app. Qed.

(** Two chunks are read as one chunk in which a line feed joins them. *)
Lemma read_loop_merge (active : option string) (a b : string)
    (rest : list string) (ending : StreamEnd) (full : string) (s : State) :
  ProChat.read_loop active full (a :: b :: rest) ending s
  = ProChat.read_loop active full ((a ++ LF ++ b) :: rest) ending s.
Proof.
  cbn [ProChat.read_loop]. unfold ProChat.process_chunk.
  rewrite split_lines_app.
  rewrite (bind_run _ _ _ _ (process_lines_result active _ full s)).
  rewrite (bind_run _ _ _ _ (process_lines_result active _ _ _)).
  rewrite (bind_run _ _ _ _ (process_lines_result active _ full s)).
  now rewrite process_lines_app, lines_text_app.
Qed.

(** X5.  The read loop does not carry text over from one chunk to the next:
    a body that arrives in the chunks [chunks] is read, however it ends,
    exactly as the single chunk in which line feeds join them.  The end of a
    chunk acts as the end of a line, and a frame cut by it is not put
    together again. *)
Theorem read_loop_chunks_as_lines (active : option string)
    (chunks : list string) (ending : StreamEnd) (full : string) (s : State) :
  ProChat.read_loop active full chunks ending s
  = ProChat.read_loop active full [Str.join LF chunks] ending s.
Proof.
  revert full s. induction chunks as [|a [|b rest] IH]; intros full s.
  - reflexivity.
  - reflexivity.
  - change (Str.join LF (a :: b :: rest))
      with (a ++ LF ++ Str.join LF (b :: rest)).
    rewrite <- read_loop_merge.
    cbn [ProChat.read_loop] in IH |- *. unfold ProChat.process_chunk.
    rewrite !(bind_run _ _ _ _ (process_lines_result active _ full s)).
    apply IH.
Qed.

(** A frame that arrives in two chunks adds no text, and its first part is
    logged as a parse failure. *)
Example frame_cut_by_chunk :
  stream_text [frame_text "Hi"] = "Hi"
  /\ stream_text [substring 0 20 (frame_text "Hi");
                  substring 20 40 (frame_text "Hi")] = EmptyString
  /\ substring 0 20 (frame_text "Hi") ++ substring 20 40 (frame_text "Hi")
     = frame_text "Hi".
Proof. vm_compute. repeat split. Qed.

(** ** The stream: lines that end with a carriage return *)

Lemma trimStart_suffix (n : nat) (s : string) :
  String.length s <= n -> exists p, s = p ++ Str.trimStart s.
Proof.
  revert s. induction n as [|n IH]; intros s Hn.
  - destruct s; [now exists EmptyString | cbn in Hn; lia].
  - destruct s as [|c1 r1]; [now exists EmptyString|].
    cbn [Str.trimStart].
    destruct (Str.ws_len (String c1 r1)) as [|[|[|[|k]]]];
      try (now exists EmptyString).
    + cbn in Hn. destruct (IH r1 ltac:(lia)) as (p & Hp).
      exists (String c1 p). cbn. now f_equal.
    + destruct r1 as [|c2 r2]; [now exists EmptyString|].
      cbn in Hn. destruct (IH r2 ltac:(lia)) as (p & Hp).
      exists (String c1 (String c2 p)). cbn. now do 2 f_equal.
    + destruct r1 as [|c2 [|c3 r3]]; try (now exists EmptyString).
      cbn in Hn. destruct (IH r3 ltac:(lia)) as (p & Hp).
      exists (String c1 (String c2 (String c3 p))). cbn. now do 3 f_equal.
Qed.

Lemma has_line_terminator_end (w : string) :
  Str.has_line_terminator (w ++ CR) = true.
Proof.
  induction w as [|c w IH]; [reflexivity|].
  cbn [String.append Str.has_line_terminator]. rewrite IH.
  apply orb_true_r.
Qed.

(** A suffix of a text that ends with a carriage return is empty or ends
    with it. *)
Lemma suffix_of_end (p q x : string) :
  x ++ CR = p ++ q -> q = EmptyString \/ exists w, q = w ++ CR.
Proof.
  revert x. induction p as [|c p IH]; intros x H.
  - right. exists x. now rewrite H.
  - destruct x as [|d x]; cbn in H.
    + injection H as _ H. destruct p; [|discriminate].
      cbn in H. left. now rewrite <- H.
    + injection H as _ H. now apply (IH x).
Qed.

Lemma prefix_app (p s : string) :
  String.prefix p s = true -> exists y, s = p ++ y.
Proof.
  revert s. induction p as [|c p IH]; intros s H.
  - now exists s.
  - destruct s as [|d s]; [discriminate|]. cbn in H.
    destruct (Ascii.ascii_dec c d) as [->|]; [|discriminate].
    destruct (IH s H) as (y & ->). now exists y.
Qed.

Lemma match_data_carriage_return (x : string) :
  ProChat.match_data (x ++ CR) = None
  \/ ProChat.match_data (x ++ CR) = Some EmptyString.
Proof.
  unfold ProChat.match_data.
  destruct (String.prefix "data:" (x ++ CR)) eqn:Hp; [|now left].
  destruct (prefix_app _ _ Hp) as (y & Hy). rewrite Hy.
  rewrite length_append.
  replace (String.length "data:" + String.length y - 5)
    with (String.length y) by (cbn; lia).
  pose proof (substring_tail "data:" y) as Ht.
  cbn [String.length] in Ht. rewrite Ht.
  destruct (trimStart_suffix _ y (le_n _)) as (p & Hp').
  destruct (suffix_of_end "data:" y x Hy) as [-> | (w & Hw)];
    [now right|].
  rewrite Hw in Hp' at 1.
  destruct (suffix_of_end p _ w Hp') as [-> | (w' & ->)]; [now right|].
  left. now rewrite has_line_terminator_end.
Qed.

(** A line that ends with a carriage return adds no text. *)
Lemma line_delta_carriage_return (x : string) :
  line_delta (x ++ CR) = EmptyString.
Proof.
  unfold line_delta.
  now destruct (match_data_carriage_return x) as [-> | ->].
Qed.

Lemma lines_text_carriage_returns (full : string) (lines : list string) :
  (forall line, List.In line lines ->
                line = EmptyString \/ exists x, line = x ++ CR) ->
  lines_text full lines = full.
Proof.
  unfold lines_text. induction lines as [|l lines IH]; intros H.
  - reflexivity.
  - cbn [List.fold_left].
    assert (Hl : line_delta l = EmptyString).
    { destruct (H l (or_introl eq_refl)) as [-> | (x & ->)];
        [reflexivity | apply line_delta_carriage_return]. }
    rewrite Hl, cat_nil_r. apply IH. intros line Hin. apply H. now right.
Qed.

(** X6.  A line that ends with a carriage return is no frame for the read
    loop: the pattern asks the payload to reach the end of the line, and a
    payload holds no carriage return.  A body whose lines all end with one
    (or are empty), as when the server ends its lines with a carriage
    return and a line feed, therefore adds no text, and [streamChat] ends in
    the error [Empty response from model]. *)
Theorem streamChat_read_carriage_returns (r : State) (res : Response.t)
    (asstId : string) (t : Z) (s : State) :
  Response.ok res = true ->
  Response.has_body res = true ->
  Response.ending res = EndDone ->
  (forall chunk line,
     List.In chunk (Response.chunks res) ->
     List.In line (Str.split_lines chunk) ->
     line = EmptyString \/ exists x, line = x ++ CR) ->
  stream_text (Response.chunks res) = EmptyString
  /\ fst (ProChat.streamChat_read r (Responded res) asstId t s)
     = Throw (Err.Error "Empty response from model").
Proof.
  intros Hok Hbody Hend Hlines.
  assert (Htext : stream_text (Response.chunks res) = EmptyString).
  { unfold stream_text, stream_from. revert Hlines.
    induction (Response.chunks res) as [|chunk chunks IH]; intros Hlines.
    - reflexivity.
    - cbn [List.fold_left].
      rewrite lines_text_carriage_returns.
      + apply IH. intros c l Hc. apply Hlines. now right.
      + intros line Hin. apply (Hlines chunk line); [now left | exact Hin]. }
  split; [exact Htext|].
  unfold ProChat.streamChat_read. rewrite Hok, Hbody, Hend.
  cbn [negb orb]. unfold ProChat.cleanup, ProChat.addMessage. run_handler.
  match goal with
  | |- context [ProChat.read_loop ?a ?f ?c ?e ?x] =>
      pose proof (read_loop_done a c f x) as Hfull;
      destruct (ProChat.read_loop a f c e x) as [rfull s2]
  end.
  cbn [fst] in Hfull. unfold stream_text in Htext.
  rewrite Hfull, Htext. reflexivity.
Qed.

Lemma streamChat_read_carriage_returns_witness :
  stream_text (Response.chunks crlf_response) = EmptyString
  /\ fst (ProChat.streamChat_read (set_inputMessage "hi" sole_state)
            (Responded crlf_response) "a1" 2%Z streaming_state)
     = Throw (Err.Error "Empty response from model").
Proof.
  refine (streamChat_read_carriage_returns (set_inputMessage "hi" sole_state)
            crlf_response "a1" 2%Z streaming_state eq_refl eq_refl eq_refl _).
  intros chunk line [<-|[]] Hin. vm_compute in Hin.
  destruct Hin as [<-|[<-|[<-|[]]]].
  - right. exists (frame_text "Hi"). reflexivity.
  - right. exists EmptyString. reflexivity.
  - now left.
Defined.

(** ** The update of the last assistant message *)

Lemma update_last_assistant_at (f : Message.t -> Message.t)
    (pre post : list Message.t) (m : Message.t) (j : nat) :
  Message.role m = assistant ->
  List.Forall (fun x => Message.role x <> assistant) post ->
  j <= List.length post ->
  ProChat.update_last_assistant f (pre ++ m :: post)%list
    (List.length pre + 1 + j)
  = (pre ++ f m :: post)%list.
Proof.
  intros Hm Hpost. induction j as [|j IH]; intros Hj.
  - rewrite Nat.add_0_r, Nat.add_1_r. cbn [ProChat.update_last_assistant].
    rewrite List.nth_error_app2, Nat.sub_diag by lia. cbn [List.nth_error].
    rewrite Hm. cbn [Role_eqb].
    rewrite List.firstn_app, Nat.sub_diag, List.firstn_all.
    cbn [List.firstn]. rewrite List.app_nil_r.
    change (S (List.length pre)) with (1 + List.length pre).
    rewrite <- List.skipn_skipn.
    rewrite List.skipn_app, Nat.sub_diag, List.skipn_all. reflexivity.
  - replace (List.length pre + 1 + S j) with (S (List.length pre + 1 + j))
      by lia.
    cbn [ProChat.update_last_assistant].
    rewrite List.nth_error_app2 by lia.
    replace (List.length pre + 1 + j - List.length pre) with (S j) by lia.
    cbn [List.nth_error].
    destruct (List.nth_error post j) as [x|] eqn:Hx.
    + assert (Hr : Message.role x <> assistant).
      { rewrite List.Forall_forall in Hpost. apply Hpost.
        eapply List.nth_error_In, Hx. }
      destruct (Role_eqb (Message.role x) assistant) eqn:E;
        [now apply Role_eqb_eq in E|].
      apply IH. lia.
    + apply IH. lia.
Qed.

Lemma update_last_assistant_none (f : Message.t -> Message.t)
    (msgs : list Message.t) (k : nat) :
  List.Forall (fun x => Message.role x <> assistant) msgs ->
  ProChat.update_last_assistant f msgs k = msgs.
Proof.
  intros H. induction k as [|k IH]; [reflexivity|].
  cbn [ProChat.update_last_assistant].
  destruct (List.nth_error msgs k) as [x|] eqn:Hx; [|exact IH].
  assert (Hr : Message.role x <> assistant).
  { rewrite List.Forall_forall in H. apply H. eapply List.nth_error_In, Hx. }
  destruct (Role_eqb (Message.role x) assistant) eqn:E;
    [now apply Role_eqb_eq in E | exact IH].
Qed.

(** The conversations a handler made by a render with [active] does not
    write to. *)
Lemma others_map (f : Chat.t -> Chat.t) (active : option string)
    (l : list Chat.t) :
  (forall c, same_id (Chat.id c) active = false -> f c = c) ->
  (forall c, Chat.id (f c) = Chat.id c) ->
  List.filter (fun c => negb (same_id (Chat.id c) active)) (List.map f l)
  = List.filter (fun c => negb (same_id (Chat.id c) active)) l.
Proof.
  intros Hf Hid. induction l as [|c l IH]; [reflexivity|].
  cbn [List.map List.filter]. rewrite Hid, IH.
  destruct (same_id (Chat.id c) active) eqn:E; [reflexivity|].
  cbn [negb]. now rewrite (Hf c E).
Qed.

(** X7.  [updateLastAssistant] applies the updater to the last message of
    the conversation that has the role [assistant], wherever it stands, and
    to no other message; the conversations with another identifier are left
    as they are.  In a conversation without assistant message it changes
    nothing. *)
Theorem updateLastAssistant_last_only (active : option string)
    (f : Message.t -> Message.t) (s : State) (c : Chat.t) :
  chat_of active s = Some c ->
  let s' := exec (ProChat.updateLastAssistant active f) s in
  (forall pre m post,
     Chat.messages c = (pre ++ m :: post)%list ->
     Message.role m = assistant ->
     List.Forall (fun x => Message.role x <> assistant) post ->
     chat_of active s'
     = Some (ProChat.with_messages c (pre ++ f m :: post)%list))
  /\ (List.Forall (fun x => Message.role x <> assistant) (Chat.messages c) ->
      chat_of active s' = Some c)
  /\ List.filter (fun c => negb (same_id (Chat.id c) active)) (chats s')
     = List.filter (fun c => negb (same_id (Chat.id c) active)) (chats s)
  /\ List.map Chat.id (chats s') = List.map Chat.id (chats s).
Proof.
  intros Hc s'. subst s'. unfold ProChat.updateLastAssistant. run_handler.
  set (g := fun c0 : Chat.t => if negb (same_id (Chat.id c0) active) then c0
                               else _).
  assert (Hid : forall c0, Chat.id (g c0) = Chat.id c0).
  { intros c0. subst g. cbv beta. now destruct (same_id _ _). }
  rewrite (chat_of_set_chats_map g active s Hid), Hc. cbn [option_map].
  pose proof (chat_of_same_id _ _ _ Hc) as Hsame.
  repeat split.
  - intros pre m post Hm Hr Hpost. subst g. cbv beta.
    rewrite Hsame. cbn [negb]. do 2 f_equal. rewrite Hm.
    replace (List.length (pre ++ m :: post)%list)
      with (List.length pre + 1 + List.length post)
      by (rewrite List.length_app; cbn; lia).
    now apply update_last_assistant_at.
  - intros Hnone. subst g. cbv beta. rewrite Hsame. cbn [negb].
    rewrite update_last_assistant_none by exact Hnone.
    now destruct c.
  - cbn [chats set_chats]. apply others_map; [|exact Hid].
    intros c0 E. subst g. cbv beta. now rewrite E.
  - cbn [chats set_chats]. rewrite List.map_map.
    apply List.map_ext. exact Hid.
Qed.

Lemma updateLastAssistant_last_only_witness :
  let s' :=
    exec (ProChat.updateLastAssistant (Some "c1")
            (ProChat.append_content "!")) pending_state in
  chat_of (Some "c1") s'
  = Some (ProChat.with_messages pending_chat
            [ Message.mk "u1" user "hi" 1%Z (Some []);
              Message.mk "a1" assistant "hello!" 2%Z None;
              Message.mk "u2" user "more" 3%Z (Some []) ]).
Proof.
  refine (proj1 (updateLastAssistant_last_only (Some "c1")
                   (ProChat.append_content "!") pending_state pending_chat
                   eq_refl)
            [Message.mk "u1" user "hi" 1%Z (Some [])]
            (Message.mk "a1" assistant "hello" 2%Z None)
            [Message.mk "u2" user "more" 3%Z (Some [])]
            eq_refl eq_refl _).
  repeat constructor. discriminate.
Defined.

(** ** The whole of [streamChat] after the response *)

Lemma streams_into_updateLastAssistant (c : Chat.t) (active : option string)
    (base : list Message.t) (p : Message.t) (d : string) (s : State) :
  Message.role p = assistant ->
  streams_into c active base p s ->
  streams_into c active base (ProChat.append_content d p)
    (exec (ProChat.updateLastAssistant active (ProChat.append_content d)) s).
Proof.
  intros Hp Hc. unfold streams_into in *.
  unfold ProChat.updateLastAssistant. run_handler.
  rewrite chat_of_set_chats_map.
  - rewrite Hc. cbn [option_map]. f_equal.
    pose proof (chat_of_same_id _ _ _ Hc) as Hsame.
    cbn [ProChat.with_messages Chat.id] in Hsame. 
    cbn [ProChat.with_messages Chat.id Chat.title Chat.messages].
    rewrite Hsame. cbn [negb]. unfold ProChat.with_messages.
    cbn [Chat.id Chat.title]. f_equal.
    now apply update_last_assistant_live.
  - intros c'. now destruct (negb _).
Qed.

Lemma process_line_streams_into (c : Chat.t) (active : option string)
    (full line : string) (base : list Message.t) (p : Message.t) (s : State) :
  Message.role p = assistant ->
  streams_into c active base p s ->
  streams_into c active base (ProChat.append_content (line_delta line) p)
    (snd (ProChat.process_line active full line s)).
Proof.
  intros Hp Hl.
  unfold ProChat.process_line, line_delta.
  destruct (ProChat.match_data line) as [data|];
    [|run_handler; now rewrite append_content_nil].
  destruct (String.eqb data "[DONE]");
    [run_handler; now rewrite append_content_nil|].
  run_handler.
  destruct (JSON.parse data) as [j|];
    [|rewrite append_content_nil; exact Hl].
  destruct (ProChat.delta_content j) as [delta|];
    [|rewrite append_content_nil; exact Hl].
  destruct (JSON.truthy delta); [|now rewrite append_content_nil].
  destruct (JSON.to_string delta) as [text|];
    [|rewrite append_content_nil; exact Hl].
  now apply streams_into_updateLastAssistant.
Qed.

Lemma process_lines_streams_into (c : Chat.t) (active : option string)
    (lines : list string) (full : string) (base : list Message.t)
    (p : Message.t) (s : State) :
  Message.role p = assistant ->
  streams_into c active base p s ->
  streams_into c active base
    (set_content (lines_text (Message.content p) lines) p)
    (snd (ProChat.process_lines active full lines s)).
Proof.
  intros Hp. revert full p s Hp.
  induction lines as [|line rest IH]; intros full p s Hp Hl.
  - cbn [lines_text List.fold_left ProChat.process_lines ret snd].
    now rewrite set_content_same.
  - cbn [ProChat.process_lines].
    rewrite (bind_run _ _ _ _ (process_line_result active full line s)).
    exact (IH _ (ProChat.append_content (line_delta line) p) _ Hp
             (process_line_streams_into c active full line base p s Hp Hl)).
Qed.

Lemma read_loop_streams_into (c : Chat.t) (active : option string)
    (chunks : list string) (full : string) (ending : StreamEnd)
    (base : list Message.t) (p : Message.t) (s : State) :
  Message.role p = assistant ->
  streams_into c active base p s ->
  streams_into c active base
    (set_content (stream_from (Message.content p) chunks) p)
    (snd (ProChat.read_loop active full chunks ending s)).
Proof.
  intros Hp. revert full p s Hp.
  induction chunks as [|chunk rest IH]; intros full p s Hp Hl.
  - cbn [ProChat.read_loop stream_from List.fold_left].
    rewrite set_content_same.
    destruct ending; try exact Hl.
    unfold ProChat.stopStreaming. run_handler.
    destruct (abortRef s); exact Hl.
  - cbn [ProChat.read_loop]. unfold ProChat.process_chunk.
    rewrite (bind_run _ _ _ _ (process_lines_result active _ full s)).
    exact (IH _ (set_content
                   (lines_text (Message.content p) (Str.split_lines chunk)) p)
             _ Hp
             (process_lines_streams_into c active _ full base p s Hp Hl)).
Qed.

(** What the read loop leaves alone, and what its last step changes when
    the user stops the stream. *)
Lemma read_loop_shell (active : option string) (chunks : list string)
    (full : string) (ending : StreamEnd) (s : State) :
  let s' := snd (ProChat.read_loop active full chunks ending s) in
  activeChatId s' = activeChatId s
  /\ inputMessage s' = inputMessage s
  /\ attachments s' = attachments s
  /\ requests s' = requests s
  /\ settled s' = settled s
  /\ alerts s' = alerts s
  /\ aborted s'
     = match ending, abortRef s with
       | EndStopped _, Some ctl => (aborted s ++ [ctl])%list
       | _, _ => aborted s
       end.
Proof.
  revert full s. induction chunks as [|chunk rest IH]; intros full s.
  - cbn [ProChat.read_loop]. destruct ending; cbn; try tauto.
    unfold ProChat.stopStreaming. run_handler.
    destruct (abortRef s); cbn; tauto.
  - cbn [ProChat.read_loop]. unfold ProChat.process_chunk.
    rewrite (bind_run _ _ _ _ (process_lines_result active _ full s)).
    pose proof (process_lines_shell active (Str.split_lines chunk) full s)
      as (H1 & H2 & H3 & H4 & H5 & H6 & H7 & H8 & H9).
    specialize (IH (lines_text full (Str.split_lines chunk))
                  (snd (ProChat.process_lines active full
                          (Str.split_lines chunk) s))).
    cbv zeta in IH |- *.
    destruct IH as (I1 & I2 & I3 & I4 & I5 & I6 & I7).
    rewrite I1, I2, I3, I4, I5, I6, I7, H1, H3, H4, H5, H6, H7, H8, H9.
    tauto.
Qed.

Lemma read_loop_result (active : option string) (chunks : list string)
    (full : string) (ending : StreamEnd) (s : State) :
  fst (ProChat.read_loop active full chunks ending s)
  = match ending with
    | EndDone => Ok (stream_from full chunks)
    | EndStopped e | EndFailed e => Throw e
    end.
Proof.
  destruct ending as [|e|e].
  - apply read_loop_done.
  - apply (read_loop_rejected _ _ _ (EndStopped e)). now left.
  - apply (read_loop_rejected _ _ _ (EndFailed e)). now right.
Qed.

(** [streamChat] from the arrival of a response with a body: what it
    returns or throws, and the state it leaves. *)
Lemma streamChat_read_outcome (r : State) (res : Response.t)
    (asstId : string) (t : Z) (s : State) (c : Chat.t) :
  chat_of (activeChatId r) s = Some c ->
  Response.ok res = true ->
  Response.has_body res = true ->
  let out := ProChat.streamChat_read r (Responded res) asstId t s in
  let text := stream_text (Response.chunks res) in
  fst out
  = match Response.ending res with
    | EndDone =>
        if Str.is_empty (Str.trim text)
        then Throw (Err.Error "Empty response from model") else Ok text
    | EndStopped e | EndFailed e => Throw e
    end
  /\ chat_of (activeChatId r) (snd out)
     = Some (ProChat.with_messages c
               (Chat.messages c
                ++ [Message.mk asstId assistant text t None])%list)
  /\ isStreaming (snd out) = false
  /\ abortRef (snd out) = None
  /\ activeChatId (snd out) = activeChatId s
  /\ inputMessage (snd out) = inputMessage s
  /\ attachments (snd out) = attachments s
  /\ requests (snd out) = requests s
  /\ settled (snd out) = settled s
  /\ alerts (snd out) = alerts s
  /\ aborted (snd out)
     = match Response.ending res, abortRef s with
       | EndStopped _, Some ctl => (aborted s ++ [ctl])%list
       | _, _ => aborted s
       end.
Proof.
  intros Hc Hok Hbody out text. subst out text.
  unfold ProChat.streamChat_read. rewrite Hok, Hbody. cbn [negb orb].
  unfold ProChat.cleanup, ProChat.addMessage. run_handler.
  match goal with
  | |- context [ProChat.read_loop _ _ _ _ ?x] => set (s1 := x)
  end.
  assert (Hlive : streams_into c (activeChatId r) (Chat.messages c)
                    (ProChat.placeholder asstId t) s1).
  { unfold streams_into.
    exact (addMessage_chat_of (activeChatId r)
             (ProChat.placeholder asstId t) (set_isStreaming true s) c Hc). }
  pose proof (read_loop_streams_into c (activeChatId r) (Response.chunks res)
                EmptyString (Response.ending res) _
                (ProChat.placeholder asstId t) s1 eq_refl Hlive) as Hl.
  pose proof (read_loop_result (activeChatId r) (Response.chunks res)
                EmptyString (Response.ending res) s1) as Hfull.
  pose proof (read_loop_shell (activeChatId r) (Response.chunks res)
                EmptyString (Response.ending res) s1) as Hsh.
  cbv zeta in Hsh.
  fold (stream_text (Response.chunks res)) in Hfull.
  cbn [ProChat.placeholder Message.content] in Hl.
  fold (stream_text (Response.chunks res)) in Hl.
  unfold streams_into in Hl.
  destruct (ProChat.read_loop (activeChatId r) EmptyString
              (Response.chunks res) (Response.ending res) s1)
    as [[full|e] s2]; cbn [fst snd] in Hl, Hfull, Hsh |- *.
  - destruct (Response.ending res) as [|e|e]; try discriminate.
    injection Hfull as ->.
    destruct (Str.is_empty (Str.trim (stream_text (Response.chunks res))));
      cbn [fst snd]; (split; [reflexivity|]); (split; [exact Hl|]);
      cbn; tauto.
  - destruct (Response.ending res) as [|e'|e']; try discriminate;
      injection Hfull as ->; cbn [fst snd];
      (split; [reflexivity|]); (split; [exact Hl|]); cbn; tauto.
Qed.

(** ** [handleSend] from the guards to the end *)

Lemma handleSend_begin_sends (s : State) (c : Chat.t)
    (custom : option ProChat.Custom.t) (uid : string) (t : Z)
    (errId : string) (t2 : Z) :
  ProChat.activeChat s = Some c ->
  sendable custom s ->
  ProChat.handleSend_begin custom uid t errId t2 s
  = (Ok (Some (ProChat.Pending.mk s (List.length (requests s))
                 (sent_content custom s))),
     add_request (sent_request s (sent_message custom uid t s)
                    (Chat.messages c))
       (set_abortRef (Some (List.length (requests s)))
          (set_attachments []
             (set_inputMessage EmptyString
                (exec (ProChat.addMessage (activeChatId s)
                         (sent_message custom uid t s)) s))))).
Proof.
  intros Ha (Hs & Hc & Hk & Hm).
  unfold ProChat.handleSend_begin. run_handler.
  rewrite Hs. fold (sent_content custom s). rewrite Hc, Hk, Hm.
  cbn [orb]. run_handler. rewrite Ha.
  unfold ProChat.streamChat_fetch. run_handler. reflexivity.
Qed.

(** The second half of [handleSend], by the outcome of [streamChat]. *)
Lemma handleSend_resume_outcome (p : ProChat.Pending.t) (res : FetchResult)
    (asstId : string) (t1 : Z) (errId : string) (t2 : Z) (s1 s5 : State)
    (c : Chat.t) (result : Result string) :
  ProChat.activeChat (ProChat.Pending.render p) = Some c ->
  ProChat.streamChat_read (ProChat.Pending.render p) res asstId t1 s1
  = (result, s5) ->
  ProChat.handleSend_resume p res asstId t1 errId t2 s1
  = (Ok tt,
     match result with
     | Ok _ =>
         if String.eqb (Chat.title c) "New Chat"
            && negb (Nat.eqb (String.length (ProChat.Pending.content p)) 0)
         then set_chats
                (List.map (fun c =>
                   if same_id (Chat.id c)
                        (activeChatId (ProChat.Pending.render p))
                   then ProChat.with_title c
                          (Str.slice0 42 (ProChat.Pending.content p))
                   else c))
                (add_settled (ProChat.Pending.controller p) s5)
         else add_settled (ProChat.Pending.controller p) s5
     | Throw e =>
         exec (ProChat.addMessage (activeChatId (ProChat.Pending.render p))
                 (send_notice errId t2 e))
           (add_settled (ProChat.Pending.controller p) s5)
     end).
Proof.
  intros Ha Hr. unfold ProChat.handleSend_resume, ProChat.settling.
  run_handler. rewrite Hr, Ha. destruct result as [full|e].
  - destruct (_ && _); reflexivity.
  - unfold ProChat.addMessage, send_notice. run_handler. reflexivity.
Qed.

Lemma handleSend_runs (s : State) (c : Chat.t)
    (custom : option ProChat.Custom.t) (uid : string) (t : Z)
    (res : FetchResult) (asstId : string) (t1 : Z) (errId : string)
    (t2 : Z) :
  ProChat.activeChat s = Some c ->
  sendable custom s ->
  ProChat.handleSend custom uid t res asstId t1 errId t2 s
  = ProChat.handleSend_resume
      (ProChat.Pending.mk s (List.length (requests s))
         (sent_content custom s))
      res asstId t1 errId t2
      (snd (ProChat.handleSend_begin custom uid t errId t2 s)).
Proof.
  intros Ha Hs. unfold ProChat.handleSend.
  pose proof (handleSend_begin_sends s c custom uid t errId t2 Ha Hs) as Hb.
  rewrite (bind_run _ _ _ _ (f_equal fst Hb)). reflexivity.
Qed.

(** The conversation the send writes to, once the user message is in it. *)
Lemma handleSend_begin_chat (s : State) (c : Chat.t)
    (custom : option ProChat.Custom.t) (uid : string) (t : Z)
    (errId : string) (t2 : Z) :
  ProChat.activeChat s = Some c ->
  sendable custom s ->
  chat_of (activeChatId s)
    (snd (ProChat.handleSend_begin custom uid t errId t2 s))
  = Some (ProChat.with_messages c
            (Chat.messages c ++ [sent_message custom uid t s])%list).
Proof.
  intros Ha Hs.
  rewrite (handleSend_begin_sends s c custom uid t errId t2 Ha Hs).
  cbn [snd].
  exact (addMessage_chat_of (activeChatId s) (sent_message custom uid t s)
           s c Ha).
Qed.

(** X8.  The guards of [handleSend].  A send whose text is empty once
    trimmed does nothing at all, whatever attachments wait in the composer;
    a send without API key or without model only raises the alert: no
    message is added, no request is made and the composer keeps its text
    and its attachments. *)
Theorem handleSend_guards (custom : option ProChat.Custom.t) (uid : string)
    (t : Z) (res : FetchResult) (asstId : string) (t1 : Z) (errId : string)
    (t2 : Z) (s : State) :
  (Str.is_empty (sent_content custom s) = true ->
   ProChat.handleSend custom uid t res asstId t1 errId t2 s = (Ok tt, s))
  /\ (isStreaming s = false ->
      Str.is_empty (sent_content custom s) = false ->
      Str.is_empty (ModelConfig.apiKey (modelConfig s)) = true
      \/ Str.is_empty (ModelConfig.selectedModel (modelConfig s)) = true ->
      ProChat.handleSend custom uid t res asstId t1 errId t2 s
      = (Ok tt,
         add_alert "Please set API key and model in Settings (gear icon)" s)).
Proof.
  split.
  - intros Hc. unfold ProChat.handleSend, ProChat.handleSend_begin.
    run_handler. fold (sent_content custom s). rewrite Hc.
    now destruct (isStreaming s).
  - intros Hs Hc Hmiss. unfold ProChat.handleSend, ProChat.handleSend_begin.
    run_handler. fold (sent_content custom s). rewrite Hs, Hc.
    destruct Hmiss as [-> | ->]; [reflexivity|].
    now rewrite orb_true_r.
Qed.

(** [streamChat] when the request fails before anything is read. *)
Lemma streamChat_read_fails (r : State) (res : Response.t) (asstId : string)
    (t : Z) (s : State) :
  Response.ok res = false \/ Response.has_body res = false ->
  ProChat.streamChat_read r (Responded res) asstId t s
  = (Throw (http_error res), s).
Proof.
  intros H. unfold ProChat.streamChat_read.
  assert (E : negb (Response.ok res) || negb (Response.has_body res) = true).
  { destruct H as [-> | ->]; [reflexivity | apply orb_true_r]. }
  now rewrite E.
Qed.

(** X9.  A send whose request fails before any text is read: [fetch]
    rejects, or the response is not [ok] or has no body, in which case the
    error reads [HTTP], the status, and the text of the response or, when
    that is empty, the status text.  [handleSend] still returns normally.
    The conversation holds the user message and, right after it, the error
    notice, with no placeholder between them; its title is unchanged, the
    composer is empty, the one request made has settled, and [isStreaming]
    was never raised.  [abortRef] is not cleared: it still holds the
    controller of the failed request. *)
Theorem handleSend_request_fails (s : State) (c : Chat.t)
    (custom : option ProChat.Custom.t) (uid : string) (t : Z)
    (res : FetchResult) (e : Err.t) (asstId : string) (t1 : Z)
    (errId : string) (t2 : Z) :
  ProChat.activeChat s = Some c ->
  sendable custom s ->
  res = Rejected e
  \/ (exists r, res = Responded r /\ e = http_error r
                /\ (Response.ok r = false \/ Response.has_body r = false)) ->
  let out := ProChat.handleSend custom uid t res asstId t1 errId t2 s in
  fst out = Ok tt
  /\ ProChat.activeChat (snd out)
     = Some (ProChat.with_messages c
               (Chat.messages c
                ++ [sent_message custom uid t s; send_notice errId t2 e])%list)
  /\ isStreaming (snd out) = false
  /\ abortRef (snd out) = Some (List.length (requests s))
  /\ requests (snd out)
     = (requests s
        ++ [sent_request s (sent_message custom uid t s)
              (Chat.messages c)])%list
  /\ settled (snd out) = (settled s ++ [List.length (requests s)])%list
  /\ inputMessage (snd out) = EmptyString
  /\ attachments (snd out) = []
  /\ alerts (snd out) = alerts s.
Proof.
  intros Ha Hs Hres out. subst out.
  rewrite (handleSend_runs s c custom uid t res asstId t1 errId t2 Ha Hs).
  pose proof (handleSend_begin_chat s c custom uid t errId t2 Ha Hs) as Hchat.
  set (s1 := snd (ProChat.handleSend_begin custom uid t errId t2 s)) in *.
  assert (Hr : ProChat.streamChat_read s res asstId t1 s1 = (Throw e, s1)).
  { destruct Hres as [-> | (r & -> & -> & Hr)]; [reflexivity|].
    now apply streamChat_read_fails. }
  rewrite (handleSend_resume_outcome
             (ProChat.Pending.mk s (List.length (requests s))
                (sent_content custom s))
             res asstId t1 errId t2 s1 s1 c (Throw e) Ha Hr).
  cbn [fst snd ProChat.Pending.render ProChat.Pending.controller].
  assert (Hid : activeChatId s1 = activeChatId s).
  { subst s1.
    now rewrite (handleSend_begin_sends s c custom uid t errId t2 Ha Hs). }
  split; [reflexivity|]. split.
  - rewrite activeChat_chat_of.
    change (activeChatId (exec _ _)) with (activeChatId s1). rewrite Hid.
    rewrite (addMessage_chat_of (activeChatId s) _
               (add_settled (List.length (requests s)) s1) _ Hchat).
    cbn [ProChat.with_messages Chat.id Chat.title Chat.messages].
    now rewrite <- List.app_assoc.
  - subst s1.
    rewrite (handleSend_begin_sends s c custom uid t errId t2 Ha Hs).
    destruct Hs as (Hs & _). cbn. rewrite Hs. repeat split.
Qed.

Lemma handleSend_request_fails_witness :
  let s := set_inputMessage "hi" sole_state in
  let out :=
    ProChat.handleSend None "u1" 1%Z (Responded unauthorized_response)
      "a1" 2%Z "e1" 3%Z s in
  fst out = Ok tt
  /\ ProChat.activeChat (snd out)
     = Some (ProChat.with_messages (Chat.mk "c1" "New Chat" [])
               [ Message.mk "u1" user "hi" 1%Z (Some []);
                 send_notice "e1" 3%Z
                   (Err.Error "HTTP 401: No auth credentials found") ])
  /\ isStreaming (snd out) = false
  /\ abortRef (snd out) = Some 0.
Proof.
  pose proof (handleSend_request_fails (set_inputMessage "hi" sole_state)
                (Chat.mk "c1" "New Chat" []) None "u1" 1%Z
                (Responded unauthorized_response)
                (http_error unauthorized_response) "a1" 2%Z "e1" 3%Z
                eq_refl) as H.
  cbv zeta in H |- *.
  refine ((fun H' => conj (proj1 H')
             (conj (proj1 (proj2 H'))
                (conj (proj1 (proj2 (proj2 H')))
                   (proj1 (proj2 (proj2 (proj2 H'))))))) (H _ _)).
  - repeat split.
  - right. exists unauthorized_response. repeat split. now left.
Defined.

(** The state [handleSend] leaves after a response with a body, by the end
    of the stream. *)
Lemma handleSend_after_stream (s : State) (c : Chat.t)
    (custom : option ProChat.Custom.t) (uid : string) (t : Z)
    (res : Response.t) (asstId : string) (t1 : Z) (errId : string) (t2 : Z) :
  ProChat.activeChat s = Some c ->
  sendable custom s ->
  Response.ok res = true ->
  Response.has_body res = true ->
  let out :=
    ProChat.handleSend custom uid t (Responded res) asstId t1 errId t2 s in
  let text := stream_text (Response.chunks res) in
  let answered :=
    ProChat.with_messages c
      (Chat.messages c
       ++ [sent_message custom uid t s;
           Message.mk asstId assistant text t1 None])%list in
  let failed (e : Err.t) :=
    ProChat.with_messages c
      (Chat.messages c
       ++ [sent_message custom uid t s;
           Message.mk asstId assistant text t1 None;
           send_notice errId t2 e])%list in
  fst out = Ok tt
  /\ ProChat.activeChat (snd out)
     = Some match Response.ending res with
            | EndDone =>
                if Str.is_empty (Str.trim text)
                then failed (Err.Error "Empty response from model")
                else if String.eqb (Chat.title c) "New Chat"
                then ProChat.with_title answered
                       (Str.slice0 42 (sent_content custom s))
                else answered
            | EndStopped e | EndFailed e => failed e
            end
  /\ isStreaming (snd out) = false
  /\ abortRef (snd out) = None
  /\ requests (snd out)
     = (requests s
        ++ [sent_request s (sent_message custom uid t s)
              (Chat.messages c)])%list
  /\ settled (snd out) = (settled s ++ [List.length (requests s)])%list
  /\ inputMessage (snd out) = EmptyString
  /\ attachments (snd out) = []
  /\ alerts (snd out) = alerts s
  /\ aborted (snd out)
     = match Response.ending res with
       | EndStopped _ => (aborted s ++ [List.length (requests s)])%list
       | _ => aborted s
       end.
Proof.
  intros Ha Hs Hok Hbody out text answered failed.
  subst out text answered failed.
  rewrite (handleSend_runs s c custom uid t (Responded res) asstId t1 errId
             t2 Ha Hs).
  pose proof (handleSend_begin_chat s c custom uid t errId t2 Ha Hs) as Hchat.
  pose proof (handleSend_begin_sends s c custom uid t errId t2 Ha Hs) as Hb.
  set (s1 := snd (ProChat.handleSend_begin custom uid t errId t2 s)) in *.
  pose proof (streamChat_read_outcome s res asstId t1 s1 _ Hchat Hok Hbody)
    as Hout.
  cbv zeta in Hout.
  destruct (ProChat.streamChat_read s (Responded res) asstId t1 s1)
    as [result s5] eqn:Hr.
  cbn [fst snd] in Hout.
  destruct Hout as (Hres & Hc5 & Hstr & Hab & Hid & Hin & Hat & Hrq & Hst
                    & Hal & Habt).
  rewrite (handleSend_resume_outcome
             (ProChat.Pending.mk s (List.length (requests s))
                (sent_content custom s))
             (Responded res) asstId t1 errId t2 s1 s5 c result Ha Hr).
  cbn [fst snd ProChat.Pending.render ProChat.Pending.controller
         ProChat.Pending.content].
  assert (Hs1 : activeChatId s1 = activeChatId s
                /\ inputMessage s1 = EmptyString
                /\ attachments s1 = []
                /\ requests s1
                   = (requests s
                      ++ [sent_request s (sent_message custom uid t s)
                            (Chat.messages c)])%list
                /\ settled s1 = settled s
                /\ alerts s1 = alerts s
                /\ aborted s1 = aborted s
                /\ abortRef s1 = Some (List.length (requests s))).
  { subst s1. rewrite Hb. cbn. repeat split. }
  destruct Hs1 as (J1 & J2 & J3 & J4 & J5 & J6 & J7 & J8).
  rewrite J8, J7 in Habt.
  assert (Hlen : negb (Nat.eqb (String.length (sent_content custom s)) 0)
                 = true).
  { destruct Hs as (_ & Hne & _).
    now destruct (sent_content custom s). }
  rewrite Hlen, andb_true_r.
  split; [reflexivity|].
  assert (Hfail : forall e,
    let s' :=
      exec (ProChat.addMessage (activeChatId s) (send_notice errId t2 e))
        (add_settled (List.length (requests s)) s5) in
    ProChat.activeChat s'
    = Some (ProChat.with_messages c
              (Chat.messages c
               ++ [sent_message custom uid t s;
                   Message.mk asstId assistant
                     (stream_text (Response.chunks res)) t1 None;
                   send_notice errId t2 e])%list)
    /\ isStreaming s' = false /\ abortRef s' = None
    /\ requests s' = requests s5
    /\ settled s' = (settled s5 ++ [List.length (requests s)])%list
    /\ inputMessage s' = inputMessage s5
    /\ attachments s' = attachments s5
    /\ alerts s' = alerts s5
    /\ aborted s' = aborted s5).
  { intros e s'. subst s'. split.
    - rewrite activeChat_chat_of.
      change (activeChatId (exec _ _)) with (activeChatId s5).
      rewrite Hid, J1.
      rewrite (addMessage_chat_of (activeChatId s) _
                 (add_settled (List.length (requests s)) s5) _ Hc5).
      cbn [ProChat.with_messages Chat.id Chat.title Chat.messages].
      now rewrite <- !List.app_assoc.
    - unfold ProChat.addMessage. run_handler. cbn. tauto. }
  assert (Hanswer :
    let s' := add_settled (List.length (requests s)) s5 in
    ProChat.activeChat s'
    = Some (ProChat.with_messages c
              (Chat.messages c
               ++ [sent_message custom uid t s;
                   Message.mk asstId assistant
                     (stream_text (Response.chunks res)) t1 None])%list)).
  { cbv zeta. rewrite activeChat_chat_of.
    change (activeChatId (add_settled _ s5)) with (activeChatId s5).
    rewrite Hid, J1.
    change (chat_of (activeChatId s) (add_settled _ s5))
      with (chat_of (activeChatId s) s5).
    rewrite Hc5.
    cbn [ProChat.with_messages Chat.id Chat.title Chat.messages].
    now rewrite <- !List.app_assoc. }
  cbv zeta in Hfail, Hanswer.
  rewrite <- Hrq in J4. rewrite <- Hst in J5. rewrite <- Hin in J2.
  rewrite <- Hat in J3. rewrite <- Hal in J6.
  destruct (Response.ending res) as [|e|e]; rewrite Hres.
  - destruct (Str.is_empty (Str.trim (stream_text (Response.chunks res)))).
    + destruct (Hfail (Err.Error "Empty response from model"))
        as (F1 & F2 & F3 & F4 & F5 & F6 & F7 & F8 & F9).
      rewrite F1, F2, F3, F4, F5, F6, F7, F8, F9, J4, J5, J2, J3, J6, Habt.
      repeat split.
    + destruct (String.eqb (Chat.title c) "New Chat").
      * split.
        -- rewrite activeChat_set_chats_map
             by (intros c'; now destruct (same_id _ _)).
           rewrite Hanswer. cbn [option_map ProChat.with_messages Chat.id].
           rewrite (activeChat_same_id s c Ha). reflexivity.
        -- cbn. rewrite Hstr, Hab, J4, J5, J2, J3, J6, Habt. repeat split.
      * split; [exact Hanswer|].
        cbn. rewrite Hstr, Hab, J4, J5, J2, J3, J6, Habt. repeat split.
  - destruct (Hfail e) as (F1 & F2 & F3 & F4 & F5 & F6 & F7 & F8 & F9).
    rewrite F1, F2, F3, F4, F5, F6, F7, F8, F9, J4, J5, J2, J3, J6, Habt.
    repeat split.
  - destruct (Hfail e) as (F1 & F2 & F3 & F4 & F5 & F6 & F7 & F8 & F9).
    rewrite F1, F2, F3, F4, F5, F6, F7, F8, F9, J4, J5, J2, J3, J6, Habt.
    repeat split.
Qed.

(** X10.  A send that is answered: the response is [ok], its body streams
    to the end and brings a text that is not blank.  [handleSend] returns
    normally; the conversation holds what it held, then the user message,
    then one assistant message with the identifier and the time of the
    placeholder and the whole text; [isStreaming] and [abortRef] are
    cleared, the composer is empty, the one request made has settled, and
    nothing was aborted or alerted. *)
Theorem handleSend_streams_answer (s : State) (c : Chat.t)
    (custom : option ProChat.Custom.t) (uid : string) (t : Z)
    (res : Response.t) (asstId : string) (t1 : Z) (errId : string) (t2 : Z) :
  ProChat.activeChat s = Some c ->
  sendable custom s ->
  Response.ok res = true ->
  Response.has_body res = true ->
  Response.ending res = EndDone ->
  Str.is_empty (Str.trim (stream_text (Response.chunks res))) = false ->
  let out :=
    ProChat.handleSend custom uid t (Responded res) asstId t1 errId t2 s in
  fst out = Ok tt
  /\ option_map Chat.messages (ProChat.activeChat (snd out))
     = Some (Chat.messages c
             ++ [sent_message custom uid t s;
                 Message.mk asstId assistant
                   (stream_text (Response.chunks res)) t1 None])%list
  /\ isStreaming (snd out) = false
  /\ abortRef (snd out) = None
  /\ in_flight (snd out)
     = List.filter
         (fun r => negb (Nat.eqb (Request.signal r)
                           (List.length (requests s))))
         (in_flight s)
  /\ inputMessage (snd out) = EmptyString
  /\ attachments (snd out) = []
  /\ alerts (snd out) = alerts s
  /\ aborted (snd out) = aborted s.
Proof.
  intros Ha Hs Hok Hbody Hend Htext out. subst out.
  pose proof (handleSend_after_stream s c custom uid t res asstId t1 errId
                t2 Ha Hs Hok Hbody) as H.
  cbv zeta in H. rewrite Hend, Htext in H.
  destruct H as (H1 & H2 & H3 & H4 & H5 & H6 & H7 & H8 & H9 & H10).
  split; [exact H1|]. split.
  - rewrite H2. now destruct (String.eqb (Chat.title c) "New Chat").
  - repeat split; try assumption.
    unfold in_flight. rewrite H5, H6, List.filter_app. cbn [List.filter].
    cbn [sent_request Request.signal]. rewrite List.existsb_app.
    cbn [List.existsb]. rewrite Nat.eqb_refl, orb_true_l, orb_true_r.
    cbn [negb]. rewrite List.app_nil_r, <- filter_filter.
    apply List.filter_ext. intros r. rewrite List.existsb_app. cbn.
    now rewrite orb_false_r, negb_orb.
Qed.

Lemma handleSend_streams_answer_witness :
  let out :=
    ProChat.handleSend None "u1" 1%Z (Responded mixed_response) "a1" 2%Z
      "e1" 3%Z (set_inputMessage "hi" sole_state) in
  fst out = Ok tt
  /\ option_map Chat.messages (ProChat.activeChat (snd out))
     = Some [ Message.mk "u1" user "hi" 1%Z (Some []);
              Message.mk "a1" assistant "Hel12😀" 2%Z None ]
  /\ isStreaming (snd out) = false
  /\ abortRef (snd out) = None
  /\ in_flight (snd out) = [].
Proof.
  pose proof (handleSend_streams_answer (set_inputMessage "hi" sole_state)
                (Chat.mk "c1" "New Chat" []) None "u1" 1%Z mixed_response
                "a1" 2%Z "e1" 3%Z eq_refl) as H.
  cbv zeta in H |- *.
  refine ((fun H' => conj (proj1 H')
             (conj (proj1 (proj2 H'))
                (conj (proj1 (proj2 (proj2 H')))
                   (conj (proj1 (proj2 (proj2 (proj2 H'))))
                      (proj1 (proj2 (proj2 (proj2 (proj2 H')))))))))
            (H _ eq_refl eq_refl eq_refl _)).
  - repeat split.
  - vm_compute. reflexivity.
Defined.

Lemma substring_prefix (n : nat) (s : string) :
  String.length (substring 0 n s) <= n
  /\ String.prefix (substring 0 n s) s = true.
Proof.
  revert s. induction n as [|n IH]; intros s.
  - destruct s; cbn; split; (lia || reflexivity).
  - destruct s as [|a s]; cbn; [split; [lia | reflexivity]|].
    destruct (IH s) as (H1 & H2). split; [lia|].
    destruct (Ascii.ascii_dec a a); [exact H2 | contradiction].
Qed.

(** On a text of 7-bit characters the code units are the bytes. *)
Lemma slice0_ascii (n : nat) (s : string) :
  is_ascii s = true -> Str.slice0 n s = substring 0 n s.
Proof.
  unfold is_ascii. revert n. induction s as [|c s IH]; intros n H.
  - now destruct n.
  - destruct n as [|n]; [reflexivity|].
    cbn [list_ascii_of_string List.forallb] in H.
    apply andb_true_iff in H. destruct H as [Hc Hs].
    cbn [Str.slice0 substring].
    replace (Str.code c <? 192)%N with true
      by (symmetry; apply N.ltb_lt; apply N.ltb_lt in Hc; lia).
    f_equal. now apply IH.
Qed.

(** X11.  The title of a conversation comes from the first send that is
    answered.  When the conversation was titled [New Chat] at the time of
    the send, the answered send titles it with the first 42 characters of
    the text sent (a text of 7-bit characters here); a conversation with
    another title keeps it. *)
Theorem handleSend_titles_conversation (s : State) (c : Chat.t)
    (custom : option ProChat.Custom.t) (uid : string) (t : Z)
    (res : Response.t) (asstId : string) (t1 : Z) (errId : string) (t2 : Z) :
  ProChat.activeChat s = Some c ->
  sendable custom s ->
  is_ascii (sent_content custom s) = true ->
  Response.ok res = true ->
  Response.has_body res = true ->
  Response.ending res = EndDone ->
  Str.is_empty (Str.trim (stream_text (Response.chunks res))) = false ->
  let out :=
    ProChat.handleSend custom uid t (Responded res) asstId t1 errId t2 s in
  let title := option_map Chat.title (ProChat.activeChat (snd out)) in
  (Chat.title c = "New Chat" ->
   title = Some (substring 0 42 (sent_content custom s))
   /\ String.length (substring 0 42 (sent_content custom s)) <= 42
   /\ String.prefix (substring 0 42 (sent_content custom s))
        (sent_content custom s) = true)
  /\ (Chat.title c <> "New Chat" -> title = Some (Chat.title c)).
Proof.
  intros Ha Hs Hascii Hok Hbody Hend Htext out title. subst out title.
  pose proof (handleSend_after_stream s c custom uid t res asstId t1 errId
                t2 Ha Hs Hok Hbody) as H.
  cbv zeta in H. rewrite Hend, Htext in H.
  destruct H as (_ & H2 & _). rewrite H2. split.
  - intros Ht. rewrite Ht. cbn [String.eqb Ascii.eqb Bool.eqb option_map
      ProChat.with_title Chat.title]. rewrite (slice0_ascii _ _ Hascii).
    split; [reflexivity|]. apply substring_prefix.
  - intros Ht. apply String.eqb_neq in Ht. now rewrite Ht.
Qed.

Lemma handleSend_titles_conversation_witness :
  let out :=
    ProChat.handleSend None "u1" 1%Z (Responded mixed_response) "a1" 2%Z
      "e1" 3%Z
      (set_inputMessage long_question sole_state) in
  option_map Chat.title (ProChat.activeChat (snd out))
  = Some "Please explain how the streaming parser of".
Proof.
  pose proof (handleSend_titles_conversation
                (set_inputMessage long_question sole_state)
                (Chat.mk "c1" "New Chat" []) None "u1" 1%Z mixed_response
                "a1" 2%Z "e1" 3%Z eq_refl) as H.
  cbv zeta in H.
  refine (proj1 (proj1 (H _ _ eq_refl eq_refl eq_refl _) eq_refl)).
  - repeat split.
  - vm_compute. reflexivity.
  - vm_compute. reflexivity.
Defined.

(** X12.  A stream that breaks off keeps what it brought.  When the user
    stops the stream or a read of the body fails, with the error [e], the
    text that had arrived stays in the assistant message, and [handleSend]
    adds the error notice for [e] after it: a stop by the user is reported
    like a failure.  The flags are cleared and the request has settled; on a
    stop the controller of the request has been aborted. *)
Theorem handleSend_keeps_partial_text (s : State) (c : Chat.t)
    (custom : option ProChat.Custom.t) (uid : string) (t : Z)
    (res : Response.t) (e : Err.t) (asstId : string) (t1 : Z)
    (errId : string) (t2 : Z) :
  ProChat.activeChat s = Some c ->
  sendable custom s ->
  Response.ok res = true ->
  Response.has_body res = true ->
  Response.ending res = EndStopped e \/ Response.ending res = EndFailed e ->
  let out :=
    ProChat.handleSend custom uid t (Responded res) asstId t1 errId t2 s in
  fst out = Ok tt
  /\ ProChat.activeChat (snd out)
     = Some (ProChat.with_messages c
               (Chat.messages c
                ++ [sent_message custom uid t s;
                    Message.mk asstId assistant
                      (stream_text (Response.chunks res)) t1 None;
                    Message.mk errId assistant
                      ("## Error" ++ LF ++ LF
                       ++ (if Str.is_empty (Err.message e)
                           then Err.to_string e else Err.message e)
                       ++ LF ++ LF ++ "**Tips**" ++ LF
                       ++ "- Check API key / model" ++ LF
                       ++ "- Verify base URL") t2 None])%list)
  /\ isStreaming (snd out) = false
  /\ abortRef (snd out) = None
  /\ settled (snd out) = (settled s ++ [List.length (requests s)])%list
  /\ (Response.ending res = EndStopped e ->
      aborted (snd out) = (aborted s ++ [List.length (requests s)])%list)
  /\ (Response.ending res = EndFailed e -> aborted (snd out) = aborted s).
Proof.
  intros Ha Hs Hok Hbody Hend out. subst out.
  pose proof (handleSend_after_stream s c custom uid t res asstId t1 errId
                t2 Ha Hs Hok Hbody) as H.
  cbv zeta in H.
  destruct H as (H1 & H2 & H3 & H4 & H5 & H6 & H7 & H8 & H9 & H10).
  destruct Hend as [Hend | Hend]; rewrite Hend in H2, H10;
    repeat split; try assumption; intros Hend'; rewrite Hend in Hend';
    try discriminate; exact H10.
Qed.

Lemma handleSend_keeps_partial_text_witness :
  let out :=
    ProChat.handleSend None "u1" 1%Z (Responded broken_response) "a1" 2%Z
      "e1" 3%Z (set_inputMessage "hi" sole_state) in
  fst out = Ok tt
  /\ ProChat.activeChat (snd out)
     = Some (Chat.mk "c1" "New Chat"
               [ Message.mk "u1" user "hi" 1%Z (Some []);
                 Message.mk "a1" assistant "Hel12" 2%Z None;
                 Message.mk "e1" assistant
                   ("## Error" ++ LF ++ LF ++ "network error" ++ LF ++ LF
                    ++ "**Tips**" ++ LF ++ "- Check API key / model" ++ LF
                    ++ "- Verify base URL") 3%Z None ])
  /\ isStreaming (snd out) = false
  /\ abortRef (snd out) = None.
Proof.
  pose proof (handleSend_keeps_partial_text
                (set_inputMessage "hi" sole_state)
                (Chat.mk "c1" "New Chat" []) None "u1" 1%Z broken_response
                (Err.mk "TypeError" "network error") "a1" 2%Z "e1" 3%Z
                eq_refl) as H.
  cbv zeta in H |- *.
  refine ((fun H' => conj (proj1 H')
             (conj (proj1 (proj2 H'))
                (conj (proj1 (proj2 (proj2 H')))
                   (proj1 (proj2 (proj2 (proj2 H')))))))
            (H _ eq_refl eq_refl _)).
  - repeat split.
  - now right.
Defined.

(** A response whose only content is a number too small for a double adds
    no text: the send ends in the error of the empty response, and the
    conversation keeps its title. *)
Example handleSend_zero_number :
  let out :=
    ProChat.handleSend None "u1" 1%Z (Responded zero_response) "a1" 2%Z
      "e1" 3%Z (set_inputMessage "hi" sole_state) in
  stream_text (Response.chunks zero_response) = EmptyString
  /\ ProChat.activeChat (snd out)
     = Some (Chat.mk "c1" "New Chat"
               [ Message.mk "u1" user "hi" 1%Z (Some []);
                 Message.mk "a1" assistant EmptyString 2%Z None;
                 Message.mk "e1" assistant
                   ("## Error" ++ LF ++ LF ++ "Empty response from model"
                    ++ LF ++ LF ++ "**Tips**" ++ LF
                    ++ "- Check API key / model" ++ LF
                    ++ "- Verify base URL") 3%Z None ]).
Proof. vm_compute. split; reflexivity. Qed.

(** ** Regenerate *)

(** The state a send leaves when its request fails before anything is
    read. *)
Lemma handleSend_failed_state (s : State) (c : Chat.t)
    (custom : option ProChat.Custom.t) (uid : string) (t : Z)
    (res : FetchResult) (e : Err.t) (asstId : string) (t1 : Z)
    (errId : string) (t2 : Z) :
  ProChat.activeChat s = Some c ->
  sendable custom s ->
  res = Rejected e
  \/ (exists r, res = Responded r /\ e = http_error r
                /\ (Response.ok r = false \/ Response.has_body r = false)) ->
  ProChat.handleSend custom uid t res asstId t1 errId t2 s
  = (Ok tt,
     exec (ProChat.addMessage (activeChatId s) (send_notice errId t2 e))
       (add_settled (List.length (requests s))
          (snd (ProChat.handleSend_begin custom uid t errId t2 s)))).
Proof.
  intros Ha Hs Hres.
  rewrite (handleSend_runs s c custom uid t res asstId t1 errId t2 Ha Hs).
  set (s1 := snd (ProChat.handleSend_begin custom uid t errId t2 s)).
  assert (Hr : ProChat.streamChat_read s res asstId t1 s1 = (Throw e, s1)).
  { destruct Hres as [-> | (r & -> & -> & Hr)]; [reflexivity|].
    now apply streamChat_read_fails. }
  exact (handleSend_resume_outcome
           (ProChat.Pending.mk s (List.length (requests s))
              (sent_content custom s))
           res asstId t1 errId t2 s1 s1 c (Throw e) Ha Hr).
Qed.

Lemma last_user_after_notice (base : list Message.t) (m notice : Message.t) :
  Message.role m = user ->
  Message.role notice = assistant ->
  ProChat.last_user (base ++ [m; notice])%list
    (List.length (base ++ [m; notice])%list)
  = Some (List.length base, m).
Proof.
  intros Hm Hn. rewrite List.length_app. cbn [List.length].
  replace (List.length base + 2) with (S (S (List.length base))) by lia.
  cbn [ProChat.last_user].
  rewrite List.nth_error_app2 by lia.
  replace (S (List.length base) - List.length base) with 1 by lia.
  cbn [List.nth_error]. rewrite Hn. cbn [Role_eqb].
  rewrite List.nth_error_app2, Nat.sub_diag by lia.
  cbn [List.nth_error]. now rewrite Hm.
Qed.

(** X13.  Regenerate after a failed send repeats the send.  In the state a
    send leaves when its request failed before anything was read,
    [handleRegenerate] drops the error notice, so that the conversation ends
    with the user message again, and makes a second request with the URL,
    the key and the body of the failed one. *)
Theorem handleRegenerate_retries_failed_send (s : State) (c : Chat.t)
    (custom : option ProChat.Custom.t) (uid : string) (t : Z)
    (res : FetchResult) (e : Err.t) (asstId : string) (t1 : Z)
    (errId : string) (t2 : Z) :
  ProChat.activeChat s = Some c ->
  sendable custom s ->
  res = Rejected e
  \/ (exists r, res = Responded r /\ e = http_error r
                /\ (Response.ok r = false \/ Response.has_body r = false)) ->
  let failed :=
    exec (ProChat.handleSend custom uid t res asstId t1 errId t2) s in
  let out := ProChat.handleRegenerate_begin failed in
  let first :=
    sent_request s (sent_message custom uid t s) (Chat.messages c) in
  (exists p, fst out = Ok (Some p))
  /\ ProChat.activeChat (snd out)
     = Some (ProChat.with_messages c
               (Chat.messages c ++ [sent_message custom uid t s])%list)
  /\ requests (snd out)
     = (requests s
        ++ [first;
            Request.mk (Request.url first) (Request.authorization first)
              (Request.body first) (S (List.length (requests s)))])%list.
Proof.
  intros Ha Hs Hres failed out first. subst out failed first.
  unfold exec.
  rewrite (handleSend_failed_state s c custom uid t res e asstId t1 errId t2
             Ha Hs Hres).
  cbn [snd].
  pose proof (handleSend_begin_chat s c custom uid t errId t2 Ha Hs) as Hchat.
  pose proof (handleSend_begin_sends s c custom uid t errId t2 Ha Hs) as Hb.
  set (s1 := snd (ProChat.handleSend_begin custom uid t errId t2 s)) in *.
  set (s2 := exec (ProChat.addMessage (activeChatId s)
                     (send_notice errId t2 e))
               (add_settled (List.length (requests s)) s1)).
  assert (Hs1 : activeChatId s1 = activeChatId s
                /\ requests s1
                   = (requests s
                      ++ [sent_request s (sent_message custom uid t s)
                            (Chat.messages c)])%list
                /\ assistantStyle s1 = assistantStyle s
                /\ customSystemPrompt s1 = customSystemPrompt s
                /\ modelConfig s1 = modelConfig s).
  { subst s1. rewrite Hb. cbn. repeat split. }
  destruct Hs1 as (J1 & J2 & J3 & J4 & J5).
  assert (Hid2 : activeChatId s2 = activeChatId s) by exact J1.
  assert (Hrq2 : requests s2 = requests s1) by reflexivity.
  assert (Hcfg : forall m h,
            ProChat.buildPayload s2 m h = ProChat.buildPayload s m h).
  { intros m h. unfold ProChat.buildPayload, ProChat.systemPrompt.
    change (assistantStyle s2) with (assistantStyle s1).
    change (customSystemPrompt s2) with (customSystemPrompt s1).
    change (modelConfig s2) with (modelConfig s1).
    now rewrite J3, J4, J5. }
  assert (Ha2 : ProChat.activeChat s2
                = Some (ProChat.with_messages c
                          (Chat.messages c
                           ++ [sent_message custom uid t s;
                               send_notice errId t2 e])%list)).
  { rewrite activeChat_chat_of, Hid2. subst s2.
    rewrite (addMessage_chat_of (activeChatId s) _
               (add_settled (List.length (requests s)) s1) _ Hchat).
    cbn [ProChat.with_messages Chat.id Chat.title Chat.messages].
    now rewrite <- List.app_assoc. }
  unfold ProChat.handleRegenerate_begin. run_handler. rewrite Ha2.
  cbn [ProChat.with_messages Chat.messages].
  rewrite last_user_after_notice by reflexivity.
  unfold ProChat.streamChat_fetch. run_handler.
  cbn [fst snd].
  assert (Hfirst : forall k,
            List.firstn (List.length (Chat.messages c) + k)
              (Chat.messages c
               ++ [sent_message custom uid t s; send_notice errId t2 e])%list
            = (Chat.messages c
               ++ List.firstn k
                    [sent_message custom uid t s;
                     send_notice errId t2 e])%list).
  { intros k. rewrite List.firstn_app.
    replace (List.length (Chat.messages c) + k - List.length (Chat.messages c))
      with k by lia.
    rewrite List.firstn_all2 by lia. reflexivity. }
  split; [eexists; reflexivity|]. split.
  - match goal with
    | |- ProChat.activeChat (add_request ?r (set_abortRef ?v ?x)) = _ =>
        change (ProChat.activeChat (add_request r (set_abortRef v x)))
          with (ProChat.activeChat x)
    end.
    rewrite activeChat_set_chats_map
      by (intros c'; now destruct (same_id _ _)).
    rewrite Ha2. cbn [option_map ProChat.with_messages Chat.id].
    rewrite Hid2, (activeChat_same_id s c Ha).
    rewrite (Hfirst 1). reflexivity.
  - cbn [requests add_request set_abortRef set_chats].
    rewrite Hrq2, J2, Hcfg.
    pose proof (Hfirst 0) as H0. rewrite Nat.add_0_r in H0.
    cbn [List.firstn] in H0. rewrite List.app_nil_r in H0. rewrite H0.
    rewrite <- List.app_assoc. cbn [List.app].
    rewrite List.length_app, Nat.add_1_r.
    unfold sent_request at 2 3 4. cbn [Request.url Request.authorization
      Request.body].
    change (modelConfig s2) with (modelConfig s1). now rewrite J5.
Qed.

Lemma handleRegenerate_retries_failed_send_witness :
  let failed :=
    exec (ProChat.handleSend None "u1" 1%Z (Responded unauthorized_response)
            "a1" 2%Z "e1" 3%Z) (set_inputMessage "hi" sole_state) in
  let out := ProChat.handleRegenerate_begin failed in
  ProChat.activeChat (snd out)
  = Some (Chat.mk "c1" "New Chat" [Message.mk "u1" user "hi" 1%Z (Some [])])
  /\ List.map Request.body (requests (snd out))
     = [ ProChat.buildPayload sole_state
           (Message.mk "u1" user "hi" 1%Z (Some [])) [];
         ProChat.buildPayload sole_state
           (Message.mk "u1" user "hi" 1%Z (Some [])) [] ].
Proof.
  pose proof (handleRegenerate_retries_failed_send
                (set_inputMessage "hi" sole_state)
                (Chat.mk "c1" "New Chat" []) None "u1" 1%Z
                (Responded unauthorized_response)
                (http_error unauthorized_response) "a1" 2%Z "e1" 3%Z
                eq_refl) as H.
  cbv zeta in H |- *.
  refine ((fun H' => conj (proj1 (proj2 H'))
             (f_equal (List.map Request.body) (proj2 (proj2 H'))))
            (H _ _)).
  - repeat split.
  - right. exists unauthorized_response. repeat split. now left.
Defined.

Lemma last_user_none (msgs : list Message.t) (k : nat) :
  List.Forall (fun m => Message.role m <> user) msgs ->
  ProChat.last_user msgs k = None.
Proof.
  intros H. induction k as [|k IH]; [reflexivity|].
  cbn [ProChat.last_user].
  destruct (List.nth_error msgs k) as [x|] eqn:Hx; [|exact IH].
  assert (Hr : Message.role x <> user).
  { rewrite List.Forall_forall in H. apply H. eapply List.nth_error_In, Hx. }
  destruct (Role_eqb (Message.role x) user) eqn:E;
    [now apply Role_eqb_eq in E | exact IH].
Qed.

(** X14.  Edit and regenerate without a target.  [handleEditMessage] with
    an identifier that no message of the active conversation has, and
    [handleRegenerate] in a conversation without user message, return
    normally and leave the state as it is: no message is removed, the
    composer is not touched and no request is made. *)
Theorem edit_regenerate_without_target (s : State) (c : Chat.t) :
  ProChat.activeChat s = Some c ->
  (forall mid,
     List.Forall (fun m => Message.id m <> mid) (Chat.messages c) ->
     ProChat.handleEditMessage mid s = (Ok tt, s))
  /\ (List.Forall (fun m => Message.role m <> user) (Chat.messages c) ->
      forall res asstId t1 errId t2,
        ProChat.handleRegenerate res asstId t1 errId t2 s = (Ok tt, s)).
Proof.
  intros Ha. split.
  - intros mid Hno. unfold ProChat.handleEditMessage. run_handler.
    rewrite Ha.
    destruct (List.find _ (Chat.messages c)) as [m|] eqn:Hf; [|reflexivity].
    apply List.find_some in Hf. destruct Hf as (Hin & He).
    apply String.eqb_eq in He. rewrite List.Forall_forall in Hno.
    now destruct (Hno m Hin).
  - intros Hno res asstId t1 errId t2.
    unfold ProChat.handleRegenerate, ProChat.handleRegenerate_begin.
    run_handler. rewrite Ha, (last_user_none _ _ Hno). reflexivity.
Qed.

Lemma edit_regenerate_without_target_witness :
  ProChat.handleEditMessage "u9" edit_state = (Ok tt, edit_state)
  /\ ProChat.handleRegenerate (Responded hello_response) "a1" 2%Z "e1" 3%Z
       sole_state
     = (Ok tt, sole_state).
Proof.
  split.
  - refine (proj1 (edit_regenerate_without_target edit_state edit_chat
                     eq_refl) "u9" _).
    repeat constructor; discriminate.
  - refine (proj2 (edit_regenerate_without_target sole_state
                     (Chat.mk "c1" "New Chat" []) eq_refl)
              (List.Forall_nil _) _ _ _ _ _).
Defined.

(** ** Attachments *)

Lemma existsb_filter_same {A : Type} (p : A -> bool) (l : list A) :
  List.existsb p (List.filter p l) = List.existsb p l.
Proof.
  induction l as [|x l IH]; [reflexivity|]. cbn.
  destruct (p x) eqn:E; cbn; [now rewrite E | exact IH].
Qed.

Lemma filter_idempotent {A : Type} (p : A -> bool) (l : list A) :
  List.filter p (List.filter p l) = List.filter p l.
Proof.
  induction l as [|x l IH]; [reflexivity|]. cbn.
  destruct (p x) eqn:E; cbn; [rewrite E; now f_equal | exact IH].
Qed.

(** X15.  A file attachment of the message that is sent does not reach the
    request.  The request built for a user message is the request built for
    the same message with its image attachments only: the name, the type and
    the text preview of an attached file are not part of it, and a message
    with files only is sent as its plain text. *)
Theorem buildPayload_ignores_files (s : State) (m : Message.t)
    (history : list Message.t) :
  ProChat.buildPayload s m history
  = ProChat.buildPayload s (only_images m) history
  /\ ((forall a, List.In a (or_nil (Message.attachments m)) ->
                 Attachment.type a = file) ->
      List.last (Payload.messages (ProChat.buildPayload s m history))
        (PayloadMessage.mk system (PlainContent EmptyString))
      = PayloadMessage.mk user (PlainContent (Message.content m))).
Proof.
  split.
  - unfold ProChat.buildPayload, ProChat.userContent, ProChat.imageParts,
      only_images.
    cbn [Message.attachments Message.content or_nil].
    now rewrite existsb_filter_same, filter_idempotent.
  - intros Hfiles. unfold ProChat.buildPayload. cbn [Payload.messages].
    rewrite List.app_comm_cons, List.last_last.
    unfold ProChat.userContent.
    replace (List.existsb ProChat.is_image (or_nil (Message.attachments m)))
      with false; [reflexivity|].
    symmetry. apply not_true_is_false. intros H.
    apply List.existsb_exists in H. destruct H as (a & Hin & Hi).
    unfold ProChat.is_image in Hi. now rewrite (Hfiles a Hin) in Hi.
Qed.

Lemma attach_well_kinded (id : string) (f : ProChat.Picked.t)
    (a : Attachment.t) :
  ProChat.attach id f = Ok a ->
  Attachment.id a = id
  /\ Attachment.name a = ProChat.Picked.name f
  /\ well_kinded a.
Proof.
  unfold ProChat.attach, well_kinded.
  destruct (String.prefix "image/" (ProChat.Picked.type f)).
  - destruct (ProChat.Picked.dataUrl f) as [u|e]; [|discriminate].
    intros [= <-]. cbn. repeat split. discriminate.
  - intros [= <-]. cbn. repeat split. discriminate.
Qed.

Lemma attach_throws (id : string) (f : ProChat.Picked.t) (e : Err.t) :
  ProChat.attach id f = Throw e ->
  String.prefix "image/" (ProChat.Picked.type f) = true
  /\ ProChat.Picked.dataUrl f = Throw e.
Proof.
  unfold ProChat.attach.
  destruct (String.prefix "image/" (ProChat.Picked.type f)); [|discriminate].
  destruct (ProChat.Picked.dataUrl f) as [u|e']; [discriminate|].
  now intros [= ->].
Qed.

Lemma pick_loop_outcome (uuid : nat -> string) (files : list ProChat.Picked.t)
    (k : nat) (arr : list Attachment.t) :
  match ProChat.pick_loop uuid k files arr with
  | Ok res =>
      exists more,
        res = (arr ++ more)%list
        /\ List.map Attachment.name more
           = List.map ProChat.Picked.name files
        /\ List.map Attachment.id more
           = List.map uuid (List.seq k (List.length files))
        /\ List.Forall well_kinded more
  | Throw e =>
      exists f, List.In f files
                /\ String.prefix "image/" (ProChat.Picked.type f) = true
                /\ ProChat.Picked.dataUrl f = Throw e
  end.
Proof.
  revert k arr. induction files as [|f files IH]; intros k arr.
  - cbn. exists []. rewrite List.app_nil_r. repeat split. constructor.
  - cbn [ProChat.pick_loop].
    destruct (ProChat.attach (uuid k) f) as [a|e] eqn:Ea.
    + destruct (attach_well_kinded _ _ _ Ea) as (Hid & Hname & Hk).
      specialize (IH (S k) (arr ++ [a])%list).
      destruct (ProChat.pick_loop uuid (S k) files (arr ++ [a])%list)
        as [res|e].
      * destruct IH as (more & -> & Hn & Hi & Hw).
        exists (a :: more). rewrite <- List.app_assoc. cbn.
        rewrite Hn, Hi, Hid, Hname. repeat split. now constructor.
      * destruct IH as (f' & Hin & Hp & Hd). exists f'.
        repeat split; [now right | exact Hp | exact Hd].
    + destruct (attach_throws _ _ _ Ea) as (Hp & Hd).
      exists f. repeat split; [now left | exact Hp | exact Hd].
Qed.

(** X16.  Picking files is all or nothing.  When every read succeeds,
    [onPickFiles] puts one attachment per file, in the order of the files
    and under the identifiers drawn for them, after the attachments the
    composer already holds, and changes nothing else; each new attachment
    carries the data of its kind only, an image its data URL and a file its
    text preview.  When the data URL of an image cannot be read, the handler
    ends with that error and the composer is not changed at all, the files
    read before the failing one included. *)
Theorem onPickFiles_all_or_nothing (files : list ProChat.Picked.t)
    (uuid : nat -> string) (s : State) :
  let out := ProChat.onPickFiles (Some files) uuid s in
  match fst out with
  | Ok _ =>
      exists more,
        snd out = set_attachments (attachments s ++ more)%list s
        /\ List.map Attachment.name more
           = List.map ProChat.Picked.name files
        /\ List.map Attachment.id more
           = List.map uuid (List.seq 0 (List.length files))
        /\ List.Forall well_kinded more
  | Throw e =>
      snd out = s
      /\ exists f, List.In f files
                   /\ String.prefix "image/" (ProChat.Picked.type f) = true
                   /\ ProChat.Picked.dataUrl f = Throw e
  end.
Proof.
  cbv zeta. unfold ProChat.onPickFiles.
  destruct files as [|f files].
  - cbn. exists []. rewrite List.app_nil_r. repeat split; [|constructor].
    now destruct s.
  - pose proof (pick_loop_outcome uuid (f :: files) 0 []) as H.
    destruct (ProChat.pick_loop uuid 0 (f :: files) []) as [res|e].
    + destruct H as (more & -> & Hn & Hi & Hw). run_handler. cbn [fst snd].
      exists more. repeat split; assumption.
    + run_handler. cbn [fst snd]. split; [reflexivity | exact H].
Qed.

(** The two cases on a picture and a text file, and on a picture that
    cannot be read after one that can. *)
Example onPickFiles_example :
  attachments
    (exec (ProChat.onPickFiles (Some [picked_photo; picked_notes])
             (fun k => if Nat.eqb k 0 then "f1" else "f2")) sole_state)
  = [ Attachment.mk "f1" "cat.png" image "image/png"
        (Some "data:image/png;base64,AAAA") None (Some 2048%Z);
      Attachment.mk "f2" "notes.txt" file "text/plain" None (Some "abc")
        (Some 3%Z) ]
  /\ ProChat.onPickFiles (Some [picked_photo; picked_unreadable])
       (fun k => if Nat.eqb k 0 then "f1" else "f2") sole_state
     = (Throw (Err.mk "NotReadableError" "The file could not be read"),
        sole_state).
Proof. split; reflexivity. Qed.

Lemma filter_fresh (id : string) (l : list Attachment.t) :
  ~ List.In id (List.map Attachment.id l) ->
  List.filter (fun a => negb (String.eqb (Attachment.id a) id)) l = l.
Proof.
  induction l as [|x l IH]; intros Hfresh; [reflexivity|].
  cbn [List.filter].
  destruct (String.eqb (Attachment.id x) id) eqn:E.
  - apply String.eqb_eq in E. exfalso. apply Hfresh. now left.
  - cbn [negb]. f_equal. apply IH. intros Hin. apply Hfresh. now right.
Qed.

(** X17.  Removing a picked file undoes the pick: after one file was picked
    under an identifier that no attachment of the composer has,
    [removeAttachment] of that identifier leaves the attachments that were
    there before, in their order. *)
Theorem removeAttachment_undoes_pick (f : ProChat.Picked.t)
    (uuid : nat -> string) (s : State) :
  ~ List.In (uuid 0) (List.map Attachment.id (attachments s)) ->
  fst (ProChat.onPickFiles (Some [f]) uuid s) = Ok tt ->
  let picked := exec (ProChat.onPickFiles (Some [f]) uuid) s in
  List.length (attachments picked) = S (List.length (attachments s))
  /\ ProChat.removeAttachment (uuid 0) picked = (Ok tt, s).
Proof.
  intros Hfresh Hok picked. subst picked. revert Hok.
  unfold ProChat.onPickFiles, ProChat.removeAttachment, exec.
  cbn [ProChat.pick_loop].
  destruct (ProChat.attach (uuid 0) f) as [a|e] eqn:Ea; [|discriminate].
  destruct (attach_well_kinded _ _ _ Ea) as (Hid & _).
  intros _. run_handler.
  destruct s as [l act sty cus cfg str ab inp att rq sd abt con al].
  cbn [attachments] in Hfresh. cbn.
  split; [rewrite List.length_app; cbn; lia|].
  rewrite List.filter_app. cbn [List.filter].
  rewrite Hid, String.eqb_refl. cbn [negb].
  now rewrite List.app_nil_r, (filter_fresh _ _ Hfresh).
Qed.

Lemma removeAttachment_undoes_pick_witness :
  let picked :=
    exec (ProChat.onPickFiles (Some [picked_photo]) (fun _ => "f1"))
      sole_state in
  List.length (attachments picked) = 1
  /\ ProChat.removeAttachment "f1" picked = (Ok tt, sole_state).
Proof.
  refine (removeAttachment_undoes_pick picked_photo (fun _ => "f1")
            sole_state _ eq_refl).
  intros [].
Defined.

(** ** Slash commands *)

Lemma rev_app (a b : string) : Str.rev (a ++ b) = Str.rev b ++ Str.rev a.
Proof.
  induction a as [|c a IH]; cbn.
  - now rewrite append_nil_r.
  - now rewrite IH, append_assoc.
Qed.

(** The scan of [trimEnd] never takes the slash at the start of a text. *)
Lemma trimStart_rev_slash (n : nat) (w : string) :
  String.length w <= n ->
  exists w', Str.trimStart_rev (w ++ "/") = w' ++ "/".
Proof.
  revert w. induction n as [|n IH]; intros w Hn.
  - destruct w; [|cbn in Hn; lia]. now exists EmptyString.
  - destruct w as [|c1 r1]; [now exists EmptyString|].
    cbn [String.append Str.trimStart_rev].
    assert (Hstop : exists w', String c1 (r1 ++ "/") = w' ++ "/")
      by now exists (String c1 r1).
    cbn in Hn.
    destruct (Str.ws_len_rev (String c1 (r1 ++ "/")))
      as [|[|[|[|k]]]] eqn:E; try exact Hstop.
    + apply IH. lia.
    + destruct r1 as [|c2 r2]; cbn [String.append].
      * exfalso. revert E. unfold Str.ws_len_rev. cbn [String.append].
        destruct (Nat.eqb (Str.ws_len (String c1 EmptyString)) 1);
          [discriminate|].
        cbn. discriminate.
      * apply IH. cbn in Hn. lia.
    + destruct r1 as [|c2 [|c3 r3]]; cbn [String.append].
      * exfalso. revert E. unfold Str.ws_len_rev. cbn [String.append].
        destruct (Nat.eqb (Str.ws_len (String c1 EmptyString)) 1);
          [discriminate|].
        cbn. discriminate.
      * exfalso. revert E. unfold Str.ws_len_rev. cbn [String.append].
        destruct (Nat.eqb (Str.ws_len (String c1 EmptyString)) 1);
          [discriminate|].
        destruct (Nat.eqb (Str.ws_len (String c2 (String c1 EmptyString))) 2);
          [discriminate|].
        cbn. rewrite ?andb_false_r. cbn. discriminate.
      * apply IH. cbn in Hn. lia.
Qed.

Lemma trim_keeps_slash (v : string) :
  String.prefix "/" v = true -> String.prefix "/" (Str.trim v) = true.
Proof.
  intros Hp. destruct (prefix_app _ _ Hp) as (y & ->).
  unfold Str.trim.
  assert (Hs : Str.trimStart ("/" ++ y) = "/" ++ y).
  { cbn [String.append Str.trimStart].
    destruct y as [|c2 [|c3 y]]; reflexivity. }
  rewrite Hs. unfold Str.trimEnd.
  change (Str.rev ("/" ++ y)) with (Str.rev y ++ "/").
  destruct (trimStart_rev_slash _ (Str.rev y) (le_n _)) as (w' & ->).
  rewrite rev_app. cbn.
  destruct (Ascii.ascii_dec "/" "/"); [|contradiction].
  now destruct (Str.rev w').
Qed.

(** X18.  What typing a text that starts with a slash does.  The text goes
    to the composer and its trimmed form is looked up: [/clear] empties the
    active conversation and leaves the other conversations and the text in
    the composer as they are; [/system] scrolls to the prompt editor;
    [/summarize] and [/tests] replace the text by their prompt; any other
    text is left as typed and nothing else changes.  No such text reaches a
    member that the table of commands inherits. *)
Theorem onInputChange_slash (v : string) (s : State) :
  String.prefix "/" v = true ->
  let typed := set_inputMessage v s in
  let cmd := Str.trim v in
  ProChat.onInputChange v s
  = if String.eqb cmd "/clear" then
      ProChat.Slashed true
        (set_chats
           (List.map (fun c =>
              if same_id (Chat.id c) (activeChatId s)
              then ProChat.with_messages c [] else c)) typed)
        None
    else if String.eqb cmd "/system" then
      ProChat.Slashed true typed (Some "systemPromptBox")
    else if String.eqb cmd "/summarize" then
      ProChat.Slashed true
        (set_inputMessage
           "Summarize the conversation so far in bullet points." s)
        None
    else if String.eqb cmd "/tests" then
      ProChat.Slashed true
        (set_inputMessage "Write unit tests for the code above." s) None
    else ProChat.Slashed false typed None.
Proof.
  intros Hp typed cmd. subst typed cmd.
  unfold ProChat.onInputChange. cbv zeta. rewrite Hp.
  destruct (prefix_app _ _ (trim_keeps_slash v Hp)) as (y & ->).
  unfold ProChat.handleSlash.
  cbn [activeChatId set_inputMessage].
  destruct (String.eqb ("/" ++ y) "/clear") eqn:E1; [reflexivity|].
  destruct (String.eqb ("/" ++ y) "/system") eqn:E2; [reflexivity|].
  unfold ProChat.lookup, ProChat.slash_map. cbn [ProChat.own].
  rewrite E1, E2.
  destruct (String.eqb ("/" ++ y) "/summarize") eqn:E3; [reflexivity|].
  destruct (String.eqb ("/" ++ y) "/tests") eqn:E4; [reflexivity|].
  reflexivity.
Qed.

Lemma onInputChange_slash_witness :
  ProChat.onInputChange "/clear " edit_state
  = ProChat.Slashed true
      (mkState [Chat.mk "c1" "hi" []] (Some "c1") Claude EmptyString
         sole_config false None "/clear " [] [] [] [] [] [])
      None.
Proof.
  exact (onInputChange_slash "/clear " edit_state eq_refl).
Defined.

(** ** The simple screen *)

Ltac simple_state :=
  cbn [fst snd HuggingFaceChatApp.messages HuggingFaceChatApp.inputMessage
         HuggingFaceChatApp.isLoading HuggingFaceChatApp.console
         HuggingFaceChatApp.requests HuggingFaceChatApp.settled
         HuggingFaceChatApp.modelConfig HuggingFaceChatApp.assistantStyle
         HuggingFaceChatApp.set_messages HuggingFaceChatApp.set_isLoading
         HuggingFaceChatApp.set_inputMessage HuggingFaceChatApp.add_settled
         HuggingFaceChatApp.add_console HuggingFaceChatApp.add_request].

(** X20.  Every answer to a send of the simple screen adds exactly one
    message.  Whatever [fetch] gives, [sendMessage] returns normally, lowers
    [isLoading] and puts one assistant message after the messages shown,
    which it leaves as they are: the first-choice message content of the
    completion when the response is [ok] and carries one that is truthy, and
    otherwise the notice of the error, which is also written to the
    console. *)
Theorem sendMessage_resume_appends_one (n : nat)
    (res : HuggingFaceChatApp.FetchResult) (now : Z)
    (s : HuggingFaceChatApp.State) :
  let out := HuggingFaceChatApp.sendMessage_resume n res now s in
  fst out = Ok tt
  /\ HuggingFaceChatApp.isLoading (snd out) = false
  /\ HuggingFaceChatApp.inputMessage (snd out)
     = HuggingFaceChatApp.inputMessage s
  /\ (exists content,
        HuggingFaceChatApp.messages (snd out)
        = (HuggingFaceChatApp.messages s
           ++ [HuggingFaceChatApp.Message.mk (JSON.decimal (now + 1))
                 assistant content now])%list
        /\ ((JSON.truthy content = true
             /\ HuggingFaceChatApp.console (snd out)
                = HuggingFaceChatApp.console s
             /\ exists r d,
                  res = HuggingFaceChatApp.Responded r
                  /\ HuggingFaceChatApp.Response.ok r = true
                  /\ HuggingFaceChatApp.Response.data r = Some d
                  /\ ProChat.chain (JSON.prop "content")
                       (ProChat.chain (JSON.prop "message")
                          (ProChat.chain JSON.index0
                             (ProChat.chain (JSON.prop "choices") (Some d))))
                     = Some content)
            \/ exists e,
                 content
                 = JStr (HuggingFaceChatApp.error_notice (Err.message e))
                 /\ HuggingFaceChatApp.console (snd out)
                    = (HuggingFaceChatApp.console s
                       ++ [("Error sending message: "
                            ++ Err.to_string e)%string])%list))
  /\ (forall r c,
        res = HuggingFaceChatApp.Responded r ->
        HuggingFaceChatApp.Response.ok r = true ->
        HuggingFaceChatApp.Response.data r = Some (completion c) ->
        JSON.truthy c = true ->
        HuggingFaceChatApp.messages (snd out)
        = (HuggingFaceChatApp.messages s
           ++ [HuggingFaceChatApp.Message.mk (JSON.decimal (now + 1))
                 assistant c now])%list).
Proof.
  cbv zeta. unfold HuggingFaceChatApp.sendMessage_resume. run_handler.
  destruct res as [e|r].
  - simple_state. repeat split; [|intros r c [=]].
    eexists. split; [reflexivity|]. right. exists e. split; reflexivity.
  - destruct (HuggingFaceChatApp.Response.ok r) eqn:Hok; cbn [negb].
    + destruct (HuggingFaceChatApp.Response.data r) as [d|] eqn:Hd.
      * destruct (ProChat.chain (JSON.prop "content") _) as [content|] eqn:Hc.
        -- destruct (JSON.truthy content) eqn:Ht.
           ++ simple_state. repeat split.
              ** eexists. split; [reflexivity|]. left.
                 repeat split; [exact Ht|]. exists r, d.
                 repeat split; assumption.
              ** intros r' c [= <-] _ Hd' Hc'. rewrite Hd' in Hd.
                 injection Hd as <-. cbn in Hc. destruct c; try discriminate;
                   injection Hc as <-; reflexivity.
           ++ simple_state. repeat split.
              ** eexists. split; [reflexivity|]. right. eexists.
                 split; reflexivity.
              ** intros r' c [= <-] _ Hd' Hc'. rewrite Hd' in Hd.
                 injection Hd as <-. cbn in Hc.
                 destruct c; try discriminate; injection Hc as <-;
                   congruence.
        -- simple_state. repeat split.
           ++ eexists. split; [reflexivity|]. right. eexists.
              split; reflexivity.
           ++ intros r' c [= <-] _ Hd' Hc'. rewrite Hd' in Hd.
              injection Hd as <-. cbn in Hc.
              destruct c; discriminate.
      * simple_state.
        repeat split; [|intros r' c [= <-] _ Hd'; congruence].
        eexists. split; [reflexivity|]. right. eexists. split; reflexivity.
    + unfold HuggingFaceChatApp.error_detail.
      assert (Hno : forall r' (c : json),
                HuggingFaceChatApp.Responded r
                = HuggingFaceChatApp.Responded r' ->
                HuggingFaceChatApp.Response.ok r' = true -> False)
        by (intros r' c [= <-] H; congruence).
      destruct (HuggingFaceChatApp.Response.data r) as [[| | | | |]|];
        run_handler;
        try (destruct (ProChat.chain _ _) as [v|];
             [destruct (JSON.truthy v); [destruct (JSON.to_string v)|]|]);
        simple_state;
        (repeat split;
         [|intros r' c H1 H2; now destruct (Hno r' c H1 H2)]);
        eexists; (split; [reflexivity|]); right; eexists; split; reflexivity.
Qed.

(** X21.  The connection test never throws, and it succeeds in one case
    only: the response is [ok], its body is JSON, the first-choice message
    content of the completion is a string, and that string, trimmed, holds
    the words [Connection successful] in any letter case.  A rejected
    [fetch], an error status, a body that is not JSON and a completion
    without such a content all give [false].  The conversation is not
    touched. *)
Theorem testConnection_verdict (n : nat)
    (res : HuggingFaceChatApp.FetchResult) (s : HuggingFaceChatApp.State) :
  let out := HuggingFaceChatApp.testConnection_resume n res s in
  (exists b,
     fst out = Ok b
     /\ (b = true <->
         exists r d c,
           res = HuggingFaceChatApp.Responded r
           /\ HuggingFaceChatApp.Response.ok r = true
           /\ HuggingFaceChatApp.Response.data r = Some d
           /\ first_choice_content d = Some (JStr c)
           /\ Str.includes_ci "Connection successful" (Str.trim c) = true))
  /\ HuggingFaceChatApp.messages (snd out) = HuggingFaceChatApp.messages s
  /\ HuggingFaceChatApp.modelConfig (snd out)
     = HuggingFaceChatApp.modelConfig s
  /\ HuggingFaceChatApp.settled (snd out)
     = (HuggingFaceChatApp.settled s ++ [n])%list.
Proof.
  cbv zeta. unfold HuggingFaceChatApp.testConnection_resume. run_handler.
  assert (Hfalse : forall P : Prop, (P -> False) -> (false = true <-> P))
    by (intros P HP; split; [discriminate | intros H; destruct (HP H)]).
  destruct res as [e|r].
  - simple_state. repeat split. exists false. split; [reflexivity|].
    apply Hfalse. intros (r & d & c & [=] & _).
  - destruct (HuggingFaceChatApp.Response.ok r) eqn:Hok; cbn [negb].
    + destruct (HuggingFaceChatApp.Response.data r) as [d|] eqn:Hd.
      * unfold HuggingFaceChatApp.reply_text. fold (first_choice_content d).
        destruct (first_choice_content d) as [[| | | c | |]|] eqn:Hc;
          simple_state; repeat split;
          try (exists false; split; [reflexivity|]; apply Hfalse;
               intros (r' & d' & c' & [= <-] & _ & Hd' & Hc' & _);
               congruence).
        eexists. split; [reflexivity|]. split.
        -- intros Hb. apply andb_true_iff in Hb. destruct Hb as (_ & Hi).
           exists r, d, c. repeat split; assumption.
        -- intros (r' & d' & c' & [= <-] & _ & Hd' & Hc' & Hi).
           assert (c' = c) by congruence. subst c'.
           rewrite Hi, andb_true_r.
           destruct (Str.trim c); [discriminate Hi | reflexivity].
      * simple_state. repeat split. exists false. split; [reflexivity|].
        apply Hfalse.
        intros (r' & d' & c' & [= <-] & _ & Hd' & _). congruence.
    + unfold HuggingFaceChatApp.error_detail.
      destruct (HuggingFaceChatApp.Response.data r) as [[| | | | |]|];
        run_handler;
        try (destruct (ProChat.chain _ _) as [v|];
             [destruct (JSON.truthy v); [destruct (JSON.to_string v)|]|]);
        simple_state; repeat split;
        exists false; (split; [reflexivity|]); apply Hfalse;
        intros (r' & d' & c' & [= <-] & Hok' & _); congruence.
Qed.

Lemma testConnection_resume_keeps (n : nat)
    (res : HuggingFaceChatApp.FetchResult) (s : HuggingFaceChatApp.State) :
  let out := HuggingFaceChatApp.testConnection_resume n res s in
  HuggingFaceChatApp.messages (snd out) = HuggingFaceChatApp.messages s
  /\ HuggingFaceChatApp.modelConfig (snd out)
     = HuggingFaceChatApp.modelConfig s
  /\ HuggingFaceChatApp.assistantStyle (snd out)
     = HuggingFaceChatApp.assistantStyle s.
Proof.
  cbv zeta. unfold HuggingFaceChatApp.testConnection_resume. run_handler.
  destruct res as [e|r]; [simple_state; repeat split|].
  destruct (HuggingFaceChatApp.Response.ok r); cbn [negb].
  - destruct (HuggingFaceChatApp.Response.data r) as [d|];
      [|simple_state; repeat split].
    destruct (HuggingFaceChatApp.reply_text d); simple_state; repeat split.
  - unfold HuggingFaceChatApp.error_detail.
    destruct (HuggingFaceChatApp.Response.data r) as [[| | | | |]|];
      run_handler;
      try (destruct (ProChat.chain _ _) as [v|];
           [destruct (JSON.truthy v); [destruct (JSON.to_string v)|]|]);
      simple_state; repeat split.
Qed.

Ltac screen_state :=
  cbn [fst snd HuggingFaceChatApp.Screen.state
         HuggingFaceChatApp.Screen.currentView
         HuggingFaceChatApp.Screen.isCustomModel
         HuggingFaceChatApp.Screen.customModelId
         HuggingFaceChatApp.Screen.isConnecting
         HuggingFaceChatApp.Screen.connectionStatus
         HuggingFaceChatApp.Screen.alerts HuggingFaceChatApp.Screen.timers
         HuggingFaceChatApp.set_state HuggingFaceChatApp.set_currentView
         HuggingFaceChatApp.set_isConnecting
         HuggingFaceChatApp.set_connectionStatus
         HuggingFaceChatApp.add_alert HuggingFaceChatApp.set_timers].

(** X22.  A connection that is not made changes nothing but what the setup
    view shows of it.  Without API key or without model, [handleConnect]
    only raises the alert and makes no request.  When the test fails, it
    sets the status to [error] and lowers [isConnecting]: the view stays,
    the conversation and the selected model are as before, and no timer is
    started. *)
Theorem handleConnect_refused (sc : HuggingFaceChatApp.Screen.t) :
  (Str.is_empty
     (HuggingFaceChatApp.ModelConfig.apiKey
        (HuggingFaceChatApp.modelConfig (HuggingFaceChatApp.Screen.state sc)))
   = true
   \/ Str.is_empty (HuggingFaceChatApp.modelToUse sc) = true ->
   HuggingFaceChatApp.handleConnect_begin sc
   = (Ok None,
      HuggingFaceChatApp.add_alert "Please fill in all required fields" sc))
  /\ (forall r n res,
        fst (HuggingFaceChatApp.testConnection_resume n res
               (HuggingFaceChatApp.Screen.state sc)) = Ok false ->
        let out := HuggingFaceChatApp.handleConnect_resume r n res sc in
        fst out = Ok tt
        /\ HuggingFaceChatApp.Screen.connectionStatus (snd out)
           = HuggingFaceChatApp.ConnectionStatus.error
        /\ HuggingFaceChatApp.Screen.isConnecting (snd out) = false
        /\ HuggingFaceChatApp.Screen.currentView (snd out)
           = HuggingFaceChatApp.Screen.currentView sc
        /\ HuggingFaceChatApp.Screen.timers (snd out)
           = HuggingFaceChatApp.Screen.timers sc
        /\ HuggingFaceChatApp.messages
             (HuggingFaceChatApp.Screen.state (snd out))
           = HuggingFaceChatApp.messages (HuggingFaceChatApp.Screen.state sc)
        /\ HuggingFaceChatApp.modelConfig
             (HuggingFaceChatApp.Screen.state (snd out))
           = HuggingFaceChatApp.modelConfig
               (HuggingFaceChatApp.Screen.state sc)).
Proof.
  split.
  - intros Hmiss. unfold HuggingFaceChatApp.handleConnect_begin. run_handler.
    destruct Hmiss as [-> | ->]; [reflexivity|].
    now rewrite orb_true_r.
  - intros r n res Htest. cbv zeta.
    pose proof (testConnection_resume_keeps n res
                  (HuggingFaceChatApp.Screen.state sc)) as Hv.
    cbv zeta in Hv. destruct Hv as (Hm & Hc & _).
    unfold HuggingFaceChatApp.handleConnect_resume, HuggingFaceChatApp.lift.
    run_handler.
    destruct (HuggingFaceChatApp.testConnection_resume n res
                (HuggingFaceChatApp.Screen.state sc)) as [b s1].
    cbn [fst snd] in Htest, Hm, Hc. subst b.
    screen_state. repeat split; assumption.
Qed.

Lemma testConnection_resume_true (n : nat)
    (r : HuggingFaceChatApp.Response.t) (d : json) (c : string)
    (s : HuggingFaceChatApp.State) :
  HuggingFaceChatApp.Response.ok r = true ->
  HuggingFaceChatApp.Response.data r = Some d ->
  first_choice_content d = Some (JStr c) ->
  Str.includes_ci "Connection successful" (Str.trim c) = true ->
  HuggingFaceChatApp.testConnection_resume n
    (HuggingFaceChatApp.Responded r) s
  = (Ok true, HuggingFaceChatApp.add_settled n s).
Proof.
  intros Hok Hd Hc Hi.
  unfold HuggingFaceChatApp.testConnection_resume. run_handler.
  rewrite Hok, Hd. cbn [negb]. unfold HuggingFaceChatApp.reply_text.
  fold (first_choice_content d). rewrite Hc, Hi.
  destruct (Str.trim c); [discriminate Hi | reflexivity].
Qed.

(** X23.  A connection that is made starts the conversation anew.  With a
    key and a model set and an answer to the test that carries the expected
    words, [handleConnect] makes one request, for the model to use and with
    the persona prompt and the test phrase as its two messages, selects that
    model, sets the status to [success] and lowers [isConnecting]; the view
    and the conversation are still as before.  When the timer it started
    fires, the chat view opens on the greeting as the only message: the
    messages of an earlier conversation are gone. *)
Theorem handleConnect_starts_anew (sc : HuggingFaceChatApp.Screen.t)
    (r : HuggingFaceChatApp.Response.t) (d : json) (c : string) (now : Z) :
  Str.is_empty
    (HuggingFaceChatApp.ModelConfig.apiKey
       (HuggingFaceChatApp.modelConfig (HuggingFaceChatApp.Screen.state sc)))
  = false ->
  Str.is_empty (HuggingFaceChatApp.modelToUse sc) = false ->
  HuggingFaceChatApp.Screen.timers sc = [] ->
  HuggingFaceChatApp.Response.ok r = true ->
  HuggingFaceChatApp.Response.data r = Some d ->
  first_choice_content d = Some (JStr c) ->
  Str.includes_ci "Connection successful" (Str.trim c) = true ->
  let st := HuggingFaceChatApp.Screen.state sc in
  let made :=
    HuggingFaceChatApp.handleConnect (HuggingFaceChatApp.Responded r) sc in
  let opened := exec (HuggingFaceChatApp.timer_fires now) (snd made) in
  fst made = Ok tt
  /\ HuggingFaceChatApp.Screen.connectionStatus (snd made)
     = HuggingFaceChatApp.ConnectionStatus.success
  /\ HuggingFaceChatApp.Screen.isConnecting (snd made) = false
  /\ HuggingFaceChatApp.Screen.currentView (snd made)
     = HuggingFaceChatApp.Screen.currentView sc
  /\ HuggingFaceChatApp.messages (HuggingFaceChatApp.Screen.state (snd made))
     = HuggingFaceChatApp.messages st
  /\ HuggingFaceChatApp.modelConfig
       (HuggingFaceChatApp.Screen.state (snd made))
     = HuggingFaceChatApp.ModelConfig.mk
         (HuggingFaceChatApp.ModelConfig.apiKey
            (HuggingFaceChatApp.modelConfig st))
         (HuggingFaceChatApp.modelToUse sc)
         (HuggingFaceChatApp.ModelConfig.baseUrl
            (HuggingFaceChatApp.modelConfig st))
  /\ HuggingFaceChatApp.requests (HuggingFaceChatApp.Screen.state (snd made))
     = (HuggingFaceChatApp.requests st
        ++ [HuggingFaceChatApp.Request.mk
              (Str.strip_trailing_slash
                 (HuggingFaceChatApp.ModelConfig.baseUrl
                    (HuggingFaceChatApp.modelConfig st))
               ++ "/chat/completions")
              ("Bearer "
               ++ HuggingFaceChatApp.ModelConfig.apiKey
                    (HuggingFaceChatApp.modelConfig st))
              (HuggingFaceChatApp.modelToUse sc)
              [ (system,
                 JStr (STYLE_PROMPTS (HuggingFaceChatApp.assistantStyle st)));
                (user,
                 JStr "Reply with exactly: Connection successful") ]])%list
  /\ HuggingFaceChatApp.Screen.currentView opened = HuggingFaceChatApp.chat
  /\ HuggingFaceChatApp.messages (HuggingFaceChatApp.Screen.state opened)
     = [HuggingFaceChatApp.Message.mk "1" assistant
          (JStr (HuggingFaceChatApp.greeting
                   (HuggingFaceChatApp.modelName sc)
                   (HuggingFaceChatApp.assistantStyle st)))
          now]
  /\ HuggingFaceChatApp.Screen.timers opened = [].
Proof.
  intros Hk Hm Ht Hok Hd Hc Hi st made opened. subst opened made st.
  unfold HuggingFaceChatApp.handleConnect,
    HuggingFaceChatApp.handleConnect_begin,
    HuggingFaceChatApp.handleConnect_resume,
    HuggingFaceChatApp.timer_fires, HuggingFaceChatApp.connected,
    HuggingFaceChatApp.lift, HuggingFaceChatApp.testConnection_fetch.
  run_handler. rewrite Hk, Hm. cbn [orb]. screen_state.
  rewrite (testConnection_resume_true _ r d c _ Hok Hd Hc Hi).
  screen_state. rewrite Ht. simple_state.
  cbn [List.app HuggingFaceChatApp.set_selectedModel]. simple_state.
  repeat split.
Qed.

Lemma handleConnect_starts_anew_witness :
  let made := HuggingFaceChatApp.handleConnect connected_response setup_screen
  in
  let opened := exec (HuggingFaceChatApp.timer_fires 99%Z) (snd made) in
  HuggingFaceChatApp.messages (HuggingFaceChatApp.Screen.state (snd made))
  = [HuggingFaceChatApp.Message.mk "17" user (JStr "earlier") 17%Z]
  /\ HuggingFaceChatApp.Screen.currentView opened = HuggingFaceChatApp.chat
  /\ HuggingFaceChatApp.messages (HuggingFaceChatApp.Screen.state opened)
     = [HuggingFaceChatApp.Message.mk "1" assistant
          (JStr (HuggingFaceChatApp.greeting "Gemma 2 9B IT" Claude)) 99%Z].
Proof.
  pose proof (handleConnect_starts_anew setup_screen
                (HuggingFaceChatApp.Response.mk true 200 "OK"
                   (Some (completion (JStr " connection SUCCESSFUL. "))))
                (completion (JStr " connection SUCCESSFUL. "))
                " connection SUCCESSFUL. " 99%Z
                eq_refl eq_refl eq_refl eq_refl eq_refl eq_refl) as H.
  cbv zeta in H |- *.
  refine ((fun H' =>
             conj (proj1 (proj2 (proj2 (proj2 (proj2 H')))))
               (conj (proj1 (proj2 (proj2 (proj2 (proj2 (proj2 (proj2
                              (proj2 H'))))))))
                  (proj1 (proj2 (proj2 (proj2 (proj2 (proj2 (proj2
                              (proj2 (proj2 H')))))))))))
            (H _)).
  vm_compute. reflexivity.
Defined.

(** ** A send and the other conversations *)

Lemma others_kept_refl (active : option string) (s : State) :
  others_kept active s s.
Proof. split; reflexivity. Qed.

Lemma others_kept_trans (active : option string) (a b c : State) :
  others_kept active a b -> others_kept active b c -> others_kept active a c.
Proof. intros [H1 H2] [H3 H4]. split; congruence. Qed.

Lemma others_kept_chats (active : option string) (s s' : State) :
  chats s' = chats s -> others_kept active s s'.
Proof. intros H. unfold others_kept. now rewrite H. Qed.

Lemma others_kept_map (active : option string) (f : Chat.t -> Chat.t)
    (s : State) :
  (forall c, same_id (Chat.id c) active = false -> f c = c) ->
  (forall c, Chat.id (f c) = Chat.id c) ->
  others_kept active s (set_chats (List.map f) s).
Proof.
  intros Hf Hid. split; cbn [chats set_chats].
  - rewrite List.map_map. apply List.map_ext. exact Hid.
  - now apply others_map.
Qed.

Lemma others_kept_addMessage (active : option string) (msg : Message.t)
    (s : State) :
  others_kept active s (exec (ProChat.addMessage active msg) s).
Proof.
  unfold ProChat.addMessage. run_handler. apply others_kept_map.
  - intros c E. now rewrite E.
  - intros c. now destruct (same_id _ _).
Qed.

Lemma others_kept_updateLastAssistant (active : option string)
    (f : Message.t -> Message.t) (s : State) :
  others_kept active s (exec (ProChat.updateLastAssistant active f) s).
Proof.
  unfold ProChat.updateLastAssistant. run_handler. apply others_kept_map.
  - intros c E. now rewrite E.
  - intros c. now destruct (negb _).
Qed.

Lemma others_kept_process_line (active : option string) (full line : string)
    (s : State) :
  others_kept active s (snd (ProChat.process_line active full line s)).
Proof.
  unfold ProChat.process_line.
  destruct (ProChat.match_data line) as [data|];
    [|apply others_kept_refl].
  destruct (String.eqb data "[DONE]"); [apply others_kept_refl|].
  run_handler.
  destruct (JSON.parse data) as [j|]; [|now apply others_kept_chats].
  destruct (ProChat.delta_content j) as [delta|];
    [|now apply others_kept_chats].
  destruct (JSON.truthy delta); [|apply others_kept_refl].
  destruct (JSON.to_string delta) as [text|];
    [|now apply others_kept_chats].
  apply (others_kept_updateLastAssistant active _ s).
Qed.

Lemma others_kept_process_lines (active : option string)
    (lines : list string) (full : string) (s : State) :
  others_kept active s (snd (ProChat.process_lines active full lines s)).
Proof.
  revert full s. induction lines as [|line rest IH]; intros full s.
  - apply others_kept_refl.
  - cbn [ProChat.process_lines].
    rewrite (bind_run _ _ _ _ (process_line_result active full line s)).
    eapply others_kept_trans; [apply others_kept_process_line | apply IH].
Qed.

Lemma others_kept_read_loop (active : option string) (chunks : list string)
    (full : string) (ending : StreamEnd) (s : State) :
  others_kept active s
    (snd (ProChat.read_loop active full chunks ending s)).
Proof.
  revert full s. induction chunks as [|chunk rest IH]; intros full s.
  - cbn [ProChat.read_loop]. destruct ending; try apply others_kept_refl.
    unfold ProChat.stopStreaming. run_handler.
    destruct (abortRef s); now apply others_kept_chats.
  - cbn [ProChat.read_loop]. unfold ProChat.process_chunk.
    rewrite (bind_run _ _ _ _ (process_lines_result active _ full s)).
    eapply others_kept_trans; [apply others_kept_process_lines | apply IH].
Qed.

Lemma others_kept_streamChat_read (r : State) (res : FetchResult)
    (asstId : string) (t : Z) (s : State) :
  others_kept (activeChatId r) s
    (snd (ProChat.streamChat_read r res asstId t s)).
Proof.
  unfold ProChat.streamChat_read.
  destruct res as [e|res]; [apply others_kept_refl|].
  destruct (negb (Response.ok res) || negb (Response.has_body res));
    [apply others_kept_refl|].
  pose proof (others_kept_addMessage (activeChatId r)
                (ProChat.placeholder asstId t) (set_isStreaming true s))
    as Ha.
  revert Ha. unfold ProChat.cleanup, ProChat.addMessage. run_handler.
  intros Ha.
  match goal with
  | |- context [ProChat.read_loop ?a ?f ?c ?e ?x] =>
      pose proof (others_kept_read_loop a c f e x) as Hl;
      destruct (ProChat.read_loop a f c e x) as [[full|err] s2]
  end; cbn [snd] in Hl.
  - eapply others_kept_trans; [exact Ha|].
    eapply others_kept_trans; [exact Hl|].
    destruct (Str.is_empty (Str.trim full)); now apply others_kept_chats.
  - eapply others_kept_trans; [exact Ha|].
    eapply others_kept_trans; [exact Hl|]. now apply others_kept_chats.
Qed.

Lemma handleSend_resume_others (p : ProChat.Pending.t) (res : FetchResult)
    (asstId : string) (t1 : Z) (errId : string) (t2 : Z) (s : State) :
  let out := ProChat.handleSend_resume p res asstId t1 errId t2 s in
  fst out = Ok tt
  /\ activeChatId (snd out) = activeChatId s
  /\ others_kept (activeChatId (ProChat.Pending.render p)) s (snd out).
Proof.
  cbv zeta. unfold ProChat.handleSend_resume, ProChat.settling. run_handler.
  pose proof (others_kept_streamChat_read (ProChat.Pending.render p) res
                asstId t1 s) as Hr.
  assert (Hid : activeChatId
                  (snd (ProChat.streamChat_read (ProChat.Pending.render p)
                          res asstId t1 s))
                = activeChatId s).
  { unfold ProChat.streamChat_read.
    destruct res as [e|res]; [reflexivity|].
    destruct (negb (Response.ok res) || negb (Response.has_body res));
      [reflexivity|].
    unfold ProChat.cleanup, ProChat.addMessage. run_handler.
    match goal with
    | |- context [ProChat.read_loop ?a ?f ?c ?e ?x] =>
        pose proof (read_loop_activeChatId a c f e x) as Hl;
        destruct (ProChat.read_loop a f c e x) as [[full|err] s2]
    end; cbn [snd] in Hl;
      [destruct (Str.is_empty (Str.trim full))|]; cbn; exact Hl. }
  destruct (ProChat.streamChat_read (ProChat.Pending.render p) res asstId t1
              s) as [[full|e] s5]; cbn [snd] in Hr, Hid.
  - destruct (ProChat.activeChat (ProChat.Pending.render p)) as [c|].
    + destruct (_ && _); cbn [fst snd].
      * split; [reflexivity|]. split; [exact Hid|].
        eapply others_kept_trans; [exact Hr|].
        apply (others_kept_map _ _ (add_settled _ s5)).
        -- intros c' E. now rewrite E.
        -- intros c'. now destruct (same_id _ _).
      * split; [reflexivity|]. split; [exact Hid|].
        eapply others_kept_trans; [exact Hr | now apply others_kept_chats].
    + cbn [fst snd]. split; [reflexivity|]. split; [exact Hid|].
      eapply others_kept_trans; [exact Hr|].
      apply (others_kept_addMessage _ _ (add_settled _ s5)).
  - cbn [fst snd]. split; [reflexivity|]. split; [exact Hid|].
    eapply others_kept_trans; [exact Hr|].
    apply (others_kept_addMessage _ _ (add_settled _ s5)).
Qed.

(** X24.  A send is confined to its conversation.  Whatever the composer
    holds and whatever the request brings, [handleSend] returns normally,
    leaves the active conversation selected, keeps the identifiers of the
    conversations in their order and leaves every conversation with another
    identifier than the active one exactly as it was. *)
Theorem handleSend_other_conversations (custom : option ProChat.Custom.t)
    (uid : string) (t : Z) (res : FetchResult) (asstId : string) (t1 : Z)
    (errId : string) (t2 : Z) (s : State) :
  let out := ProChat.handleSend custom uid t res asstId t1 errId t2 s in
  fst out = Ok tt
  /\ activeChatId (snd out) = activeChatId s
  /\ List.map Chat.id (chats (snd out)) = List.map Chat.id (chats s)
  /\ List.filter (fun c => negb (same_id (Chat.id c) (activeChatId s)))
       (chats (snd out))
     = List.filter (fun c => negb (same_id (Chat.id c) (activeChatId s)))
         (chats s).
Proof.
  cbv zeta.
  assert (H : let out :=
                ProChat.handleSend custom uid t res asstId t1 errId t2 s in
              fst out = Ok tt
              /\ activeChatId (snd out) = activeChatId s
              /\ others_kept (activeChatId s) s (snd out));
    [|cbv zeta in H; unfold others_kept in H; tauto].
  cbv zeta.
  pose proof (others_kept_addMessage (activeChatId s)
                (sent_message custom uid t s) s) as Ha.
  unfold ProChat.handleSend, ProChat.handleSend_begin.
  run_handler.
  destruct (isStreaming s);
    [split; [|split]; try reflexivity; apply others_kept_refl|].
  fold (sent_content custom s).
  destruct (Str.is_empty (sent_content custom s));
    [split; [|split]; try reflexivity; apply others_kept_refl|].
  destruct (_ || _);
    [split; [|split]; try reflexivity; now apply others_kept_chats|].
  fold (sent_message custom uid t s).
  unfold ProChat.streamChat_fetch. run_handler.
  change (let (_, y) := ProChat.addMessage (activeChatId s)
                          (sent_message custom uid t s) s in y)
    with (exec (ProChat.addMessage (activeChatId s)
                  (sent_message custom uid t s)) s).
  set (s1 := exec (ProChat.addMessage (activeChatId s)
                     (sent_message custom uid t s)) s) in *.
  destruct (ProChat.addMessage (activeChatId s)
              (sent_message custom uid t s) s) as [r0 s0] eqn:E0.
  assert (Hs0 : s0 = s1) by (subst s1; unfold exec; now rewrite E0).
  assert (Hr0 : r0 = Ok tt)
    by (revert E0; unfold ProChat.addMessage; run_handler; congruence).
  subst r0 s0.
  destruct (ProChat.activeChat s) as [c|].
  - match goal with
    | |- context [ProChat.handleSend_resume ?p ?r ?a ?t ?e ?u ?x] =>
        pose proof (handleSend_resume_others p r a t e u x) as Hr;
        destruct (ProChat.handleSend_resume p r a t e u x) as [result s']
    end.
    cbv zeta in Hr. cbn [fst snd ProChat.Pending.render] in Hr |- *.
    destruct Hr as (H1 & H2 & H3).
    split; [exact H1|]. split; [exact H2|].
    eapply others_kept_trans; [|exact H3].
    eapply others_kept_trans; [exact Ha|].
    now apply others_kept_chats.
  - match goal with
    | |- context [ProChat.addMessage ?a ?m ?x] =>
        pose proof (others_kept_addMessage a m x) as Hb; revert Hb;
        unfold ProChat.addMessage; run_handler; intros Hb
    end.
    cbn [fst snd]. split; [reflexivity|]. split; [reflexivity|].
    eapply others_kept_trans; [exact Ha|].
    eapply others_kept_trans; [|exact Hb].
    now apply others_kept_chats.
Qed.

Lemma find_filter_implied {A : Type} (p q : A -> bool) (l : list A) :
  (forall x, p x = true -> q x = true) ->
  List.find p (List.filter q l) = List.find p l.
Proof.
  intros H. induction l as [|x l IH]; [reflexivity|]. cbn.
  destruct (p x) eqn:Hp.
  - rewrite (H x Hp). cbn. now rewrite Hp.
  - destruct (q x); cbn; [rewrite Hp|]; exact IH.
Qed.

(** A conversation with another identifier is found as before. *)
Lemma others_kept_chat_of (active : option string) (b : string)
    (s s' : State) :
  others_kept active s s' ->
  same_id b active = false ->
  chat_of (Some b) s' = chat_of (Some b) s.
Proof.
  intros [_ Hf] Hb. unfold chat_of.
  assert (Himp : forall c : Chat.t,
            same_id (Chat.id c) (Some b) = true ->
            negb (same_id (Chat.id c) active) = true).
  { intros c Hc. cbn in Hc. apply String.eqb_eq in Hc. now rewrite Hc, Hb. }
  rewrite <- (find_filter_implied _ _ (chats s') Himp).
  rewrite <- (find_filter_implied _ _ (chats s) Himp).
  now rewrite Hf.
Qed.

(** X25.  An answer goes to the conversation the send was made in.  When
    the user selects another conversation while the request is out, the
    stream still writes to the conversation that was active at the send: it
    receives the placeholder and the whole text after the user message,
    while the conversation now selected stays selected and is not changed;
    the flags are cleared as usual. *)
Theorem stream_follows_its_conversation (s : State) (c : Chat.t)
    (b : string) (custom : option ProChat.Custom.t) (uid : string) (t : Z)
    (res : Response.t) (asstId : string) (t1 : Z) (errId : string) (t2 : Z) :
  ProChat.activeChat s = Some c ->
  sendable custom s ->
  same_id b (activeChatId s) = false ->
  Response.ok res = true ->
  Response.has_body res = true ->
  Response.ending res = EndDone ->
  Str.is_empty (Str.trim (stream_text (Response.chunks res))) = false ->
  let begun := ProChat.handleSend_begin custom uid t errId t2 s in
  let switched := exec (ProChat.selectChat b) (snd begun) in
  let out :=
    ProChat.handleSend_resume
      (ProChat.Pending.mk s (List.length (requests s))
         (sent_content custom s))
      (Responded res) asstId t1 errId t2 switched in
  fst begun
  = Ok (Some (ProChat.Pending.mk s (List.length (requests s))
                (sent_content custom s)))
  /\ fst out = Ok tt
  /\ activeChatId (snd out) = Some b
  /\ option_map Chat.messages (chat_of (activeChatId s) (snd out))
     = Some (Chat.messages c
             ++ [sent_message custom uid t s;
                 Message.mk asstId assistant
                   (stream_text (Response.chunks res)) t1 None])%list
  /\ chat_of (Some b) (snd out) = chat_of (Some b) s
  /\ isStreaming (snd out) = false
  /\ abortRef (snd out) = None.
Proof.
  intros Ha Hs Hb Hok Hbody Hend Htext begun switched out.
  subst out switched begun.
  pose proof (handleSend_begin_chat s c custom uid t errId t2 Ha Hs) as Hchat.
  pose proof (handleSend_begin_sends s c custom uid t errId t2 Ha Hs) as Hbg.
  split; [now rewrite Hbg|].
  set (s1 := snd (ProChat.handleSend_begin custom uid t errId t2 s)) in *.
  set (s2 := exec (ProChat.selectChat b) s1).
  assert (Hchat2 : chat_of (activeChatId s) s2
                   = Some (ProChat.with_messages c
                             (Chat.messages c
                              ++ [sent_message custom uid t s])%list))
    by exact Hchat.
  pose proof (streamChat_read_outcome s res asstId t1 s2 _ Hchat2 Hok Hbody)
    as Hout.
  cbv zeta in Hout. rewrite Hend, Htext in Hout.
  destruct (ProChat.streamChat_read s (Responded res) asstId t1 s2)
    as [result s5] eqn:Hr.
  cbn [fst snd] in Hout.
  destruct Hout as (Hres & Hc5 & Hstr & Hab & Hid & _).
  pose proof (handleSend_resume_others
                (ProChat.Pending.mk s (List.length (requests s))
                   (sent_content custom s))
                (Responded res) asstId t1 errId t2 s2) as Hothers.
  cbv zeta in Hothers. cbn [ProChat.Pending.render] in Hothers.
  destruct Hothers as (_ & _ & Hkept).
  assert (Hkept1 : others_kept (activeChatId s) s s2).
  { subst s2 s1. rewrite Hbg. cbn [snd].
    eapply others_kept_trans;
      [apply (others_kept_addMessage (activeChatId s)
                (sent_message custom uid t s) s)|].
    now apply others_kept_chats. }
  rewrite (handleSend_resume_outcome
             (ProChat.Pending.mk s (List.length (requests s))
                (sent_content custom s))
             (Responded res) asstId t1 errId t2 s2 s5 c result Ha Hr)
    in Hkept |- *.
  cbn [fst snd ProChat.Pending.render ProChat.Pending.controller
         ProChat.Pending.content] in Hkept |- *.
  subst result.
  split; [reflexivity|]. split; [|split; [|split]].
  - destruct (_ && _); cbn; rewrite Hid; reflexivity.
  - destruct (_ && _).
    + rewrite chat_of_set_chats_map
        by (intros c';
            destruct (same_id (Chat.id c') (activeChatId s)); reflexivity).
      change (chat_of (activeChatId s) (add_settled _ s5))
        with (chat_of (activeChatId s) s5).
      rewrite Hc5. cbn [option_map ProChat.with_messages Chat.id].
      rewrite (activeChat_same_id s c Ha). cbn.
      now rewrite <- List.app_assoc.
    + change (chat_of (activeChatId s) (add_settled _ s5))
        with (chat_of (activeChatId s) s5).
      rewrite Hc5. cbn. now rewrite <- List.app_assoc.
  - rewrite (others_kept_chat_of _ b _ _ Hkept Hb).
    exact (others_kept_chat_of _ b _ _ Hkept1 Hb).
  - destruct (_ && _); cbn; now rewrite Hstr, Hab.
Qed.

Lemma stream_follows_its_conversation_witness :
  let begun := ProChat.handleSend_begin None "u1" 1%Z "e1" 3%Z two_chats_state
  in
  let switched := exec (ProChat.selectChat "c2") (snd begun) in
  let out :=
    ProChat.handleSend_resume
      (ProChat.Pending.mk two_chats_state 0 "hi")
      (Responded mixed_response) "a1" 2%Z "e1" 3%Z switched in
  activeChatId (snd out) = Some "c2"
  /\ option_map Chat.messages (chat_of (Some "c1") (snd out))
     = Some [ Message.mk "u1" user "hi" 1%Z (Some []);
              Message.mk "a1" assistant "Hel12😀" 2%Z None ]
  /\ chat_of (Some "c2") (snd out) = Some (Chat.mk "c2" "Notes" []).
Proof.
  pose proof (stream_follows_its_conversation two_chats_state
                (Chat.mk "c1" "New Chat" []) "c2" None "u1" 1%Z
                mixed_response "a1" 2%Z "e1" 3%Z eq_refl) as H.
  cbv zeta in H |- *.
  refine ((fun H' =>
             conj (proj1 (proj2 (proj2 H')))
               (conj (proj1 (proj2 (proj2 (proj2 H'))))
                  (proj1 (proj2 (proj2 (proj2 (proj2 H')))))))
            (H _ eq_refl eq_refl eq_refl eq_refl _)).
  - repeat split.
  - vm_compute. reflexivity.
Defined.

(** ** Edit, then send *)

Lemma buildPayload_same_settings (s s' : State) (m : Message.t)
    (h : list Message.t) :
  assistantStyle s' = assistantStyle s ->
  customSystemPrompt s' = customSystemPrompt s ->
  modelConfig s' = modelConfig s ->
  ProChat.buildPayload s' m h = ProChat.buildPayload s m h.
Proof.
  intros H1 H2 H3. unfold ProChat.buildPayload, ProChat.systemPrompt.
  now rewrite H1, H2, H3.
Qed.

(** X26.  Edit and send asks again from the edited message.  After
    [handleEditMessage] of the message at index [k] of a conversation with
    distinct message identifiers, a send of what the composer then holds
    puts a new user message with the trimmed text and the attachments of
    the edited one after the first [k] messages, and makes one request,
    built from that message with those [k] messages as its history. *)
Theorem edit_then_send_asks_again (s : State) (a : Chat.t) (k : nat)
    (m : Message.t) (uid : string) (t : Z) (errId : string) (t2 : Z) :
  ProChat.activeChat s = Some a ->
  List.NoDup (List.map Message.id (Chat.messages a)) ->
  List.nth_error (Chat.messages a) k = Some m ->
  isStreaming s = false ->
  Str.is_empty (Str.trim (Message.content m)) = false ->
  Str.is_empty (ModelConfig.apiKey (modelConfig s)) = false ->
  Str.is_empty (ModelConfig.selectedModel (modelConfig s)) = false ->
  let edited := exec (ProChat.handleEditMessage (Message.id m)) s in
  let out := ProChat.handleSend_begin None uid t errId t2 edited in
  let again :=
    Message.mk uid user (Str.trim (Message.content m)) t
      (Some (or_nil (Message.attachments m))) in
  (exists p, fst out = Ok (Some p))
  /\ ProChat.activeChat (snd out)
     = Some (ProChat.with_messages a
               (List.firstn k (Chat.messages a) ++ [again])%list)
  /\ inputMessage (snd out) = EmptyString
  /\ attachments (snd out) = []
  /\ requests (snd out)
     = (requests s
        ++ [sent_request s again (List.firstn k (Chat.messages a))])%list.
Proof.
  intros Ha Hnd Hk Hs Hc Hkey Hmodel edited out again.
  assert (He : edited
               = set_chats
                   (List.map (fun c =>
                      if negb (same_id (Chat.id c) (activeChatId s)) then c
                      else
                        match findIndex
                                (fun x => String.eqb (Message.id x)
                                            (Message.id m))
                                (Chat.messages c) with
                        | None => c
                        | Some idx =>
                            ProChat.with_messages c
                              (List.firstn idx (Chat.messages c))
                        end))
                   (set_attachments (or_nil (Message.attachments m))
                      (set_inputMessage (Message.content m) s))).
  { subst edited. unfold ProChat.handleEditMessage, exec. run_handler.
    rewrite Ha. run_handler.
    now rewrite (find_by_key Message.id _ k m Hnd Hk). }
  assert (Hae : ProChat.activeChat edited
                = Some (ProChat.with_messages a
                          (List.firstn k (Chat.messages a)))).
  { rewrite He. rewrite activeChat_set_chats_map.
    - change (ProChat.activeChat
                (set_attachments (or_nil (Message.attachments m))
                   (set_inputMessage (Message.content m) s)))
        with (ProChat.activeChat s).
      rewrite Ha. cbn [option_map].
      rewrite (activeChat_same_id s a Ha). cbn [negb].
      now rewrite (findIndex_by_key Message.id _ k m Hnd Hk).
    - intros c. destruct (negb _); [reflexivity|].
      now destruct (findIndex _ _). }
  assert (Hfields : activeChatId edited = activeChatId s
                    /\ inputMessage edited = Message.content m
                    /\ attachments edited = or_nil (Message.attachments m)
                    /\ isStreaming edited = isStreaming s
                    /\ requests edited = requests s
                    /\ assistantStyle edited = assistantStyle s
                    /\ customSystemPrompt edited = customSystemPrompt s
                    /\ modelConfig edited = modelConfig s)
    by (rewrite He; repeat split).
  destruct Hfields as (F1 & F2 & F3 & F4 & F5 & F6 & F7 & F8).
  assert (Hsend : sendable None edited).
  { unfold sendable, sent_content. rewrite F4, F2, F8. repeat split;
      assumption. }
  assert (Hmsg : sent_message None uid t edited = again).
  { unfold sent_message, sent_content. now rewrite F2, F3. }
  pose proof (handleSend_begin_sends edited _ None uid t errId t2 Hae Hsend)
    as Hb.
  pose proof (handleSend_begin_chat edited _ None uid t errId t2 Hae Hsend)
    as Hchat.
  subst out. rewrite Hmsg in Hb, Hchat.
  split; [rewrite Hb; eexists; reflexivity|]. split.
  - rewrite activeChat_chat_of.
    replace (activeChatId
               (snd (ProChat.handleSend_begin None uid t errId t2 edited)))
      with (activeChatId edited) by (rewrite Hb; reflexivity).
    exact Hchat.
  - rewrite Hb. cbn [snd]. repeat split.
    cbn [requests add_request set_abortRef set_attachments set_inputMessage].
    change (requests (exec _ edited)) with (requests edited).
    rewrite F5. do 2 f_equal. unfold sent_request.
    cbn [ProChat.with_messages Chat.messages].
    now rewrite F5, F8, (buildPayload_same_settings s edited _ _ F6 F7 F8).
Qed.

Lemma edit_then_send_asks_again_witness :
  let edited := exec (ProChat.handleEditMessage "u2") edit_state in
  let out := ProChat.handleSend_begin None "u3" 5%Z "e1" 6%Z edited in
  ProChat.activeChat (snd out)
  = Some (Chat.mk "c1" "hi"
            [ Message.mk "u1" user "hi" 1%Z (Some []);
              Message.mk "a1" assistant "hello" 2%Z None;
              Message.mk "u3" user "more" 5%Z
                (Some [Attachment.mk "f1" "notes.txt" file "text/plain" None
                         (Some "abc") (Some 3%Z)]) ]).
Proof.
  pose proof (edit_then_send_asks_again edit_state edit_chat 2
                (Message.mk "u2" user "more" 3%Z
                   (Some [Attachment.mk "f1" "notes.txt" file "text/plain"
                            None (Some "abc") (Some 3%Z)]))
                "u3" 5%Z "e1" 6%Z eq_refl) as H.
  cbv zeta in H.
  refine (proj1 (proj2 (H _ eq_refl eq_refl eq_refl eq_refl eq_refl))).
  simpl. repeat constructor; simpl; intuition discriminate.
Defined.

(** ** The error notice of the simple screen *)

(** X27.  An error status on the simple screen is reported with what the
    server said.  For a response that is not [ok], the notice that
    [sendMessage] adds carries [API Error], the status, and the text of the
    member [error.message] of the body when the body is a JSON object with
    such a text; when the body is not JSON, or is an object without that
    member, it carries the status text instead. *)
Theorem sendMessage_error_status (n : nat)
    (r : HuggingFaceChatApp.Response.t) (now : Z)
    (s : HuggingFaceChatApp.State) :
  HuggingFaceChatApp.Response.ok r = false ->
  let out :=
    HuggingFaceChatApp.sendMessage_resume n
      (HuggingFaceChatApp.Responded r) now s in
  let notice (detail : string) :=
    HuggingFaceChatApp.Message.mk (JSON.decimal (now + 1)) assistant
      (JStr (HuggingFaceChatApp.error_notice
               ("API Error "
                ++ NilZero.string_of_uint
                     (Nat.to_uint (HuggingFaceChatApp.Response.status r))
                ++ ": " ++ detail)))
      now in
  (forall fields e msg,
     HuggingFaceChatApp.Response.data r = Some (JObj fields) ->
     JSON.field "error" fields = Some (JObj e) ->
     JSON.field "message" e = Some (JStr msg) ->
     msg <> EmptyString ->
     HuggingFaceChatApp.messages (snd out)
     = (HuggingFaceChatApp.messages s ++ [notice msg])%list)
  /\ (HuggingFaceChatApp.Response.data r = None
      \/ (exists fields,
            HuggingFaceChatApp.Response.data r = Some (JObj fields)
            /\ JSON.field "error" fields = None) ->
      HuggingFaceChatApp.messages (snd out)
      = (HuggingFaceChatApp.messages s
         ++ [notice (HuggingFaceChatApp.Response.statusText r)])%list).
Proof.
  intros Hok out notice. subst out notice. cbv beta.
  unfold HuggingFaceChatApp.sendMessage_resume,
    HuggingFaceChatApp.error_detail.
  run_handler. rewrite Hok. cbn [negb]. split.
  - intros fields e msg Hd He Hm Hne. rewrite Hd. cbn [JSON.prop].
    rewrite He. cbn [ProChat.chain JSON.prop]. rewrite Hm.
    destruct msg as [|c0 msg]; [contradiction|].
    simple_state. reflexivity.
  - intros [Hd | (fields & Hd & He)]; rewrite Hd.
    + simple_state. reflexivity.
    + cbn [JSON.prop]. rewrite He. simple_state. reflexivity.
Qed.

Lemma sendMessage_error_status_witness :
  HuggingFaceChatApp.messages
    (snd (HuggingFaceChatApp.sendMessage_resume 0
            (HuggingFaceChatApp.Responded simple_refused) 2%Z simple_sent))
  = [ HuggingFaceChatApp.Message.mk "1" user (JStr "hi") 1%Z;
      HuggingFaceChatApp.Message.mk "3" assistant
        (JStr (HuggingFaceChatApp.error_notice
                 "API Error 401: No auth credentials"))
        2%Z ].
Proof.
  refine (proj1 (sendMessage_error_status 0 simple_refused 2%Z simple_sent
                   eq_refl)
            [("error", JObj [("message", JStr "No auth credentials")])]
            [("message", JStr "No auth credentials")]
            "No auth credentials" eq_refl eq_refl eq_refl _).
  discriminate.
Defined.

(** ** The first run *)

(** X28.  On a screen that never stored anything, nothing can be sent
    before a key is entered.  The first render starts from one empty
    conversation titled [New Chat], which is active, and from the default
    settings, whose API key is empty; a send of any text then only raises
    the alert about the key and the model, and makes no request. *)
Theorem first_run_needs_key (id v uid : string) (t : Z) (res : FetchResult)
    (asstId : string) (t1 : Z) (errId : string) (t2 : Z) :
  Str.is_empty (Str.trim v) = false ->
  exists s0,
    ProChat.mount (fun _ => None) id = Some s0
    /\ chats s0 = [Chat.mk id "New Chat" []]
    /\ ProChat.activeChat s0 = Some (Chat.mk id "New Chat" [])
    /\ modelConfig s0 = ProChat.default_config
    /\ ProChat.handleSend None uid t res asstId t1 errId t2
         (set_inputMessage v s0)
       = (Ok tt,
          add_alert "Please set API key and model in Settings (gear icon)"
            (set_inputMessage v s0)).
Proof.
  intros Hv. eexists. split; [reflexivity|].
  split; [reflexivity|]. split.
  - unfold ProChat.activeChat. cbn. now rewrite String.eqb_refl.
  - split; [reflexivity|].
    unfold ProChat.handleSend, ProChat.handleSend_begin. run_handler.
    cbn [isStreaming inputMessage set_inputMessage]. now rewrite Hv.
Qed.

Lemma first_run_needs_key_witness :
  exists s0,
    ProChat.mount (fun _ => None) "c1" = Some s0
    /\ chats s0 = [Chat.mk "c1" "New Chat" []]
    /\ ProChat.activeChat s0 = Some (Chat.mk "c1" "New Chat" [])
    /\ modelConfig s0 = ProChat.default_config
    /\ ProChat.handleSend None "u1" 1%Z (Responded hello_response) "a1" 2%Z
         "e1" 3%Z (set_inputMessage "hi" s0)
       = (Ok tt,
          add_alert "Please set API key and model in Settings (gear icon)"
            (set_inputMessage "hi" s0)).
Proof.
  exact (first_run_needs_key "c1" "hi" "u1" 1%Z (Responded hello_response)
           "a1" 2%Z "e1" 3%Z eq_refl).
Defined.

(** ** C1: the lines of a chunk *)

Lemma split_lines_aux_one_line (cur l : string) :
  one_line l = true -> Str.split_lines_aux cur l = [cur ++ l].
Proof.
  unfold one_line. revert cur. induction l as [|c l IH]; intros cur H.
  - cbn. now rewrite append_nil_r.
  - cbn [list_ascii_of_string List.existsb] in H.
    apply negb_true_iff, orb_false_iff in H. destruct H as [Hc Hl].
    cbn [Str.split_lines_aux]. rewrite Hc.
    rewrite IH by now rewrite Hl.
    now rewrite append_assoc.
Qed.

Lemma split_lines_one_line (l : string) :
  one_line l = true -> Str.split_lines l = [l].
Proof. apply split_lines_aux_one_line. Qed.

(** A chunk is processed line by line: what is before a line feed, then
    what is after it. *)
Lemma process_chunk_line_feed (active : option string) (full a b : string)
    (s : State) :
  ProChat.process_chunk active full (a ++ LF ++ b) s
  = (full' <- ProChat.process_chunk active full a ;;
     ProChat.process_chunk active full' b) s.
Proof.
  unfold ProChat.process_chunk. rewrite split_lines_app, process_lines_app.
  now rewrite (bind_run _ _ _ _ (process_lines_result active _ full s)).
Qed.

Lemma process_chunk_one_line (active : option string) (full l : string)
    (s : State) :
  one_line l = true ->
  ProChat.process_chunk active full l s = ProChat.process_line active full l s.
Proof.
  intros H. unfold ProChat.process_chunk. rewrite (split_lines_one_line l H).
  cbn [ProChat.process_lines]. unfold bind, ret.
  pose proof (process_line_result active full l s) as Hr.
  destruct (ProChat.process_line active full l s) as [r s'].
  cbn [fst] in Hr. now rewrite Hr.
Qed.

Lemma trimStart_spaces (n : nat) (payload : string) :
  Str.ws_len payload = 0 ->
  Str.trimStart (Str.repeat " " n ++ payload) = payload.
Proof.
  intros H. induction n as [|n IH].
  - cbn [Str.repeat String.append]. destruct payload as [|c r];
      [reflexivity|]. cbn [Str.trimStart]. now rewrite H.
  - exact IH.
Qed.

Lemma prefix_append (p r : string) : String.prefix p (p ++ r) = true.
Proof.
  induction p as [|a p IH]; [now destruct r|].
  cbn. now destruct (Ascii.ascii_dec a a).
Qed.

(** The payload of a line: what follows [data:] and the white space after
    it, when it reaches the end of the line. *)
Lemma match_data_payload (n : nat) (payload : string) :
  Str.ws_len payload = 0 ->
  Str.has_line_terminator payload = false ->
  ProChat.match_data ("data:" ++ Str.repeat " " n ++ payload) = Some payload.
Proof.
  intros Hw Ht. unfold ProChat.match_data.
  rewrite prefix_append.
  rewrite length_append.
  replace (String.length "data:" + String.length (Str.repeat " " n ++ payload)
           - 5)
    with (String.length (Str.repeat " " n ++ payload)) by (cbn; lia).
  pose proof (substring_tail "data:" (Str.repeat " " n ++ payload)) as Hs.
  cbn [String.length] in Hs. rewrite Hs.
  now rewrite (trimStart_spaces n payload Hw), Ht.
Qed.

Lemma match_data_none (line : string) :
  String.prefix "data:" line = false -> ProChat.match_data line = None.
Proof. intros H. unfold ProChat.match_data. now rewrite H. Qed.

(** The text a frame adds is the delta content of its first choice. *)
Lemma line_delta_frame (d : string) (others : list json) :
  List.forallb integral others = true ->
  Str.has_line_terminator
    (JSON.stringify 0 (delta_frame (JStr d) others)) = false ->
  line_delta (frame_line (delta_frame (JStr d) others)) = d.
Proof.
  intros Hi Ht. unfold line_delta, frame_line.
  set (text := JSON.stringify 0 (delta_frame (JStr d) others)) in *.
  assert (Hshape : exists r, text = String "{" r).
  { subst text. unfold JSON.stringify, delta_frame.
    rewrite stringify_at_object. cbn [String.append]. now eexists. }
  destruct Hshape as (r & Hr).
  assert (Hm : ProChat.match_data ("data: " ++ text) = Some text).
  { apply (match_data_payload 1 text); [|exact Ht].
    rewrite Hr. now destruct r as [|c2 [|c3 r3]]. }
  rewrite Hm.
  replace (String.eqb text "[DONE]") with false by now rewrite Hr.
  subst text. rewrite parse_stringify.
  - cbn [delta_frame ProChat.delta_content ProChat.chain JSON.prop
           JSON.field JSON.index0 String.eqb Ascii.eqb Bool.eqb].
    cbn [JSON.truthy JSON.to_string]. now destruct d.
  - cbn [delta_frame integral List.forallb snd andb]. now rewrite Hi.
Qed.

Lemma process_line_logged (active : option string) (full line data : string)
    (s : State) :
  ProChat.match_data line = Some data ->
  data <> "[DONE]" ->
  (JSON.parse data = None
   \/ JSON.parse data = Some JNull
   \/ exists j delta,
        JSON.parse data = Some j /\ ProChat.delta_content j = Some delta
        /\ JSON.truthy delta = true /\ JSON.to_string delta = None) ->
  ProChat.process_line active full line s
  = (Ok full,
     add_console ("Failed to parse OpenRouter stream: " ++ line) s).
Proof.
  intros Hm Hd H. unfold ProChat.process_line. rewrite Hm.
  apply String.eqb_neq in Hd. rewrite Hd.
  destruct H as [-> | [-> | (j & delta & -> & Hc & Ht & Hs)]];
    try reflexivity.
  now rewrite Hc, Ht, Hs.
Qed.

(** C1.  A chunk is processed line by line, the lines being what the line
    feeds of the chunk separate.  A line is processed only when it has the
    [data:] framing: its payload is what follows [data:] and white space,
    up to the end of the line; a line that ends with a carriage return adds
    no text.
    The payload [[DONE]] changes nothing.  Any other payload is parsed as
    JSON: when the parse fails the line is dropped and logged; when it
    succeeds, the delta content of the first choice, whatever other choices
    follow, is appended to the accumulator and to the last assistant
    message of the conversation, the live message of the stream.  A content
    that is absent, [null] or otherwise falsy adds nothing; one that is no
    string is appended as its text, and a line whose content has no text,
    like the payload [null], is logged as a line whose parse fails.  No
    line makes the handler throw, so the rest of the lines of the chunk and
    the following chunks are processed whatever the line was. *)
Theorem process_line_cases (active : option string) (full : string)
    (s : State) :
  (* the lines of a chunk *)
  (forall a b,
     ProChat.process_chunk active full (a ++ LF ++ b) s
     = (full' <- ProChat.process_chunk active full a ;;
        ProChat.process_chunk active full' b) s)
  /\ (forall line,
        one_line line = true ->
        ProChat.process_chunk active full line s
        = ProChat.process_line active full line s)
  (* the framing *)
  /\ (forall line,
        String.prefix "data:" line = false ->
        ProChat.process_line active full line s = (Ok full, s))
  /\ (forall line,
        ProChat.match_data line = None ->
        ProChat.process_line active full line s = (Ok full, s))
  /\ (forall n payload,
        Str.ws_len payload = 0 ->
        Str.has_line_terminator payload = false ->
        ProChat.match_data ("data:" ++ Str.repeat " " n ++ payload)
        = Some payload)
  /\ (forall x, fst (ProChat.process_line active full (x ++ CR) s) = Ok full)
  (* the terminator *)
  /\ (forall line,
        ProChat.match_data line = Some "[DONE]" ->
        ProChat.process_line active full line s = (Ok full, s))
  (* a payload that is not JSON, and the payload [null], whose first choice
     cannot be read *)
  /\ (forall line data,
        ProChat.match_data line = Some data -> data <> "[DONE]" ->
        JSON.parse data = None \/ JSON.parse data = Some JNull ->
        ProChat.process_line active full line s
        = (Ok full,
           add_console ("Failed to parse OpenRouter stream: " ++ line) s))
  (* a payload that is JSON *)
  /\ (forall line data j delta,
        ProChat.match_data line = Some data -> data <> "[DONE]" ->
        JSON.parse data = Some j ->
        ProChat.delta_content j = Some delta ->
        (JSON.truthy delta = false ->
         ProChat.process_line active full line s = (Ok full, s))
        /\ (forall text,
              JSON.truthy delta = true ->
              JSON.to_string delta = Some text ->
              fst (ProChat.process_line active full line s)
              = Ok (Str.cat full text)
              /\ forall base p,
                   Message.role p = assistant ->
                   live active base p s ->
                   live active base
                     (set_content (Str.cat (Message.content p) text) p)
                     (snd (ProChat.process_line active full line s)))
        /\ (JSON.truthy delta = true ->
            JSON.to_string delta = None ->
            ProChat.process_line active full line s
            = (Ok full,
               add_console ("Failed to parse OpenRouter stream: " ++ line)
                 s))
        /\ (forall d,
              delta = JStr d ->
              fst (ProChat.process_line active full line s)
              = Ok (Str.cat full d)))
  (* a frame written on one line: the text of its first choice *)
  /\ (forall d others,
        List.forallb integral others = true ->
        Str.has_line_terminator
          (JSON.stringify 0 (delta_frame (JStr d) others)) = false ->
        let line := frame_line (delta_frame (JStr d) others) in
        fst (ProChat.process_line active full line s) = Ok (Str.cat full d)
        /\ forall base p,
             Message.role p = assistant ->
             live active base p s ->
             live active base
               (set_content (Str.cat (Message.content p) d) p)
               (snd (ProChat.process_line active full line s)))
  (* the loops go on: no line throws, the next lines of the chunk and the
     next chunks, each split into its lines, are processed in turn *)
  /\ (forall line,
        exists full', fst (ProChat.process_line active full line s) = Ok full')
  /\ (forall line rest,
        ProChat.process_lines active full (line :: rest) s
        = ProChat.process_lines active
            (Str.cat full (line_delta line)) rest
            (snd (ProChat.process_line active full line s)))
  /\ (forall chunk rest ending,
        ProChat.read_loop active full (chunk :: rest) ending s
        = ProChat.read_loop active
            (lines_text full (Str.split_lines chunk)) rest ending
            (snd (ProChat.process_lines active full
                    (Str.split_lines chunk) s))).
Proof.
  assert (Hdelta : forall line data j delta,
            ProChat.match_data line = Some data -> data <> "[DONE]" ->
            JSON.parse data = Some j ->
            ProChat.delta_content j = Some delta ->
            line_delta line
            = if JSON.truthy delta
              then match JSON.to_string delta with
                   | Some text => text
                   | None => EmptyString
                   end
              else EmptyString).
  { intros line data j delta Hm Hd Hp Hc. unfold line_delta. rewrite Hm.
    apply String.eqb_neq in Hd. now rewrite Hd, Hp, Hc. }
  repeat apply conj.
  - intros a b. apply process_chunk_line_feed.
  - intros line. apply process_chunk_one_line.
  - intros line H. unfold ProChat.process_line.
    now rewrite (match_data_none line H).
  - intros line H. unfold ProChat.process_line. now rewrite H.
  - apply match_data_payload.
  - intros x.
    pose proof (process_line_result active full (x ++ CR) s) as Hr.
    now rewrite line_delta_carriage_return, cat_nil_r in Hr.
  - intros line H. unfold ProChat.process_line. now rewrite H.
  - intros line data Hm Hd [Hp | Hp];
      apply (process_line_logged active full line data s Hm Hd); tauto.
  - intros line data j delta Hm Hd Hp Hc.
    pose proof (Hdelta line data j delta Hm Hd Hp Hc) as Hl.
    repeat apply conj.
    + intros Hf. unfold ProChat.process_line. rewrite Hm.
      apply String.eqb_neq in Hd. now rewrite Hd, Hp, Hc, Hf.
    + intros text Ht Hs. rewrite Ht, Hs in Hl. rewrite <- Hl. split.
      * apply process_line_result.
      * intros base p Hrole Hlive.
        exact (process_line_live active full line base p s Hrole Hlive).
    + intros Ht Hs.
      apply (process_line_logged active full line data s Hm Hd).
      right. right. now exists j, delta.
    + intros d ->.
      assert (Hd' : line_delta line = d) by (rewrite Hl; now destruct d).
      rewrite <- Hd'. apply process_line_result.
  - intros d others Hi Ht line. subst line. split.
    + pose proof (process_line_result active full
                    (frame_line (delta_frame (JStr d) others)) s) as Hr.
      now rewrite (line_delta_frame d others Hi Ht) in Hr.
    + intros base p Hrole Hlive.
      pose proof (process_line_live active full
                    (frame_line (delta_frame (JStr d) others)) base p s
                    Hrole Hlive) as Hr.
      now rewrite (line_delta_frame d others Hi Ht) in Hr.
  - intros line. eexists. apply process_line_result.
  - intros line rest. cbn [ProChat.process_lines].
    now rewrite (bind_run _ _ _ _ (process_line_result active full line s)).
  - intros chunk rest ending. cbn [ProChat.read_loop].
    unfold ProChat.process_chunk.
    now rewrite (bind_run _ _ _ _ (process_lines_result active _ full s)).
Qed.

Lemma process_line_cases_witness :
  let out := ProChat.process_chunk (Some "c1") "Hel" mixed_chunk live_state in
  fst out = Ok "Hello"
  /\ console (snd out) = ["Failed to parse OpenRouter stream: data: {bad"]
  /\ chats (snd out)
     = [Chat.mk "c1" "New Chat"
          [ Message.mk "u1" user "hi" 1%Z (Some []);
            Message.mk "a1" assistant "Hello" 2%Z None ]]
  /\ ProChat.process_line (Some "c1") "Hel" ": keep-alive" live_state
     = (Ok "Hel", live_state)
  /\ ProChat.process_line (Some "c1") "Hel" "data: [DONE]" live_state
     = (Ok "Hel", live_state)
  /\ ProChat.process_line (Some "c1") "Hel" "data: {bad" live_state
     = (Ok "Hel",
        add_console "Failed to parse OpenRouter stream: data: {bad"
          live_state)
  /\ ProChat.process_line (Some "c1") "Hel" (frame_with "0.0") live_state
     = (Ok "Hel", live_state)
  /\ fst (ProChat.process_line (Some "c1") "Hel" (frame_with "12")
            live_state)
     = Ok "Hel12"
  /\ ProChat.process_line (Some "c1") "Hel"
       (frame_with ("{" ++ DQ ++ "toString" ++ DQ ++ ":1}")) live_state
     = (Ok "Hel",
        add_console
          ("Failed to parse OpenRouter stream: "
           ++ frame_with ("{" ++ DQ ++ "toString" ++ DQ ++ ":1}"))
          live_state).
Proof.
  pose proof (process_line_cases (Some "c1") "Hel" live_state)
    as (Hfeed & _ & Hprefix & _ & _ & _ & Hdone & Hbad & Hjson & _).
  cbv zeta. unfold mixed_chunk. rewrite Hfeed.
  split; [vm_compute; reflexivity|].
  split; [vm_compute; reflexivity|].
  split; [vm_compute; reflexivity|].
  split; [exact (Hprefix ": keep-alive" eq_refl)|].
  split; [exact (Hdone "data: [DONE]" eq_refl)|].
  split.
  { apply (Hbad "data: {bad" "{bad" eq_refl); [discriminate | now left]. }
  split.
  { refine (proj1 (Hjson (frame_with "0.0") _ _ (JNum 0 (-1)) eq_refl _
                     eq_refl eq_refl) eq_refl).
    discriminate. }
  split.
  { refine (proj1 (proj1 (proj2 (Hjson (frame_with "12") _ _ (JNum 12 0)
                                   eq_refl _ eq_refl eq_refl))
                     "12" eq_refl eq_refl)).
    discriminate. }
  refine (proj1 (proj2 (proj2
            (Hjson (frame_with ("{" ++ DQ ++ "toString" ++ DQ ++ ":1}")) _ _
               (JObj [("toString", JNum 1 0)]) eq_refl _ eq_refl eq_refl)))
            eq_refl eq_refl).
  discriminate.
Defined.

(** Contents that are no plain text.  A number is the double of its
    literal: it is appended as the text of that double, and adds nothing
    when the double is zero.  An object with a member [toString] has no
    text: the line is logged.  The escapes of a surrogate pair give one
    character, also when two frames bring its halves. *)
Example process_line_other_contents :
  fst (ProChat.process_line (Some "c1") EmptyString
         (frame_with "12345678901234567890") live_state)
  = Ok "12345678901234567000"
  /\ ProChat.process_line (Some "c1") "Hel" (frame_with "1e-400") live_state
     = (Ok "Hel", live_state)
  /\ ProChat.process_line (Some "c1") "Hel"
       (frame_with ("{" ++ DQ ++ "toString" ++ DQ ++ ":1}")) live_state
     = (Ok "Hel",
        add_console
          ("Failed to parse OpenRouter stream: "
           ++ frame_with ("{" ++ DQ ++ "toString" ++ DQ ++ ":1}"))
          live_state)
  /\ fst (ProChat.process_line (Some "c1") EmptyString
            (frame_with (DQ ++ "\ud83d\ude00" ++ DQ)) live_state)
     = Ok "😀"
  /\ stream_text [frame_with (DQ ++ "\ud83d" ++ DQ) ++ LF
                  ++ frame_with (DQ ++ "\ude00" ++ DQ)]
     = "😀"
  /\ stream_text [frame_with "[1,null,[true,2.50],{}]"]
     = "1,,true,2.5,[object Object]".
Proof. vm_compute. repeat split. Qed.
